(** * SpectroscoPy.Utilities: unit conversion, peak-table grouping,
      coordinate transforms and eigendisplacements

    A shallow embedding of [SpectroscoPy/Utilities.py] and the proofs of its
    specification.

    Modelling conventions.
    - Numbers.  The Python code is written once for whatever numeric values
      the caller supplies; it only uses [+], [*], [/], [np.sqrt], the
      NumPy reductions and the conversion of a count to a number.  The
      embedding is therefore written once over an interface [Number], with
      two instances: the reals (exact arithmetic) and binary64 floats.
    - Division.  The operator [/] of [ConvertFrequencyUnits] works on the
      Python numbers of the list it is given and raises
      [ZeroDivisionError] on a zero divisor ([truediv]; [is_zero] is the
      test, true of both signed zeros in binary64).  The division inside
      [np.average] and [np.divide] is NumPy's and is total ([div]: IEEE
      infinities and NaN, [Rdiv] over the reals).
    - Sums.  [np_sum] adds the values one after the other.  Over the reals
      this is the arithmetic sum, whatever the order.  In binary64 NumPy's
      own order of additions (in blocks, pairwise, for eight values and
      more) can round differently and its result for signed zeros can
      differ; the statements about sums and means are made over the reals
      or spell the operations out.
    - Strings are sequences of ASCII characters; [lower] maps [A-Z] to [a-z]
      and leaves every other character alone, which is [str.lower] on such
      strings.  Where a statement depends on two keys being different after
      lower-casing it assumes [is_ascii] of them.
    - Sequences (frequencies, band indices, positions, nested eigenvectors)
      are Python lists; band indices are Python integers.
    - [raise Exception(msg)] is a value [Raise e] of the result type, one
      constructor of [Exception] per raise site; [message] renders the text.
      The exceptions Python itself raises on an index out of range, on a
      failed unpacking/broadcast or on a division by zero are [IndexError],
      [ValueError] and [ZeroDivisionError]; of these only the class is kept.
    - The module [Constants] is not part of this file's source; its three
      conversion factors are the fields of a record passed as a parameter.
    - Embedded are the six functions of the module:
      [GetFrequencyUnitLabel], [ConvertFrequencyUnits], [GroupForPeakTable],
      [CartesianToFractionalCoordinates],
      [FractionalToCartesianCoordinates] and
      [EigenvectorsToEigendisplacements].  The table
      [Constants.FrequencyUnitLabels] is a parameter of
      [GetFrequencyUnitLabel], for the same reason as the conversion
      factors.  [CartesianToFractionalCoordinates] is embedded over the
      reals only: on a matrix of non-zero determinant [np.linalg.inv] is the
      exact inverse (adjugate over determinant); its outcome on a matrix of
      determinant zero is a parameter about which nothing is assumed, and
      the rounding of NumPy's factorisation is outside the model. *)

From Stdlib Require Import PrimFloat.
From Stdlib Require Uint63.
From Stdlib Require Import Reals Lra ZArith Ascii String Sorted.
From stdpp Require Import gmap strings list pretty.

Local Open Scope Z_scope.

(** ** Numbers *)

Class Number (F : Type) : Type := {
  zero : F;
  one : F;
  add : F -> F -> F;
  mul : F -> F -> F;
  div : F -> F -> F;
  sqrt : F -> F;
  of_count : nat -> F;
  is_zero : F -> bool
}.

#[export] Instance R_Number : Number R := {|
  zero := 0%R;
  one := 1%R;
  add := Rplus;
  mul := Rmult;
  div := Rdiv;
  sqrt := R_sqrt.sqrt;
  of_count := INR;
  is_zero := fun x => if Req_dec_T x 0 then true else false
|}.

#[export] Instance float_Number : Number PrimFloat.float := {|
  zero := PrimFloat.zero;
  one := PrimFloat.one;
  add := PrimFloat.add;
  mul := PrimFloat.mul;
  div := PrimFloat.div;
  sqrt := PrimFloat.sqrt;
  of_count := fun n => PrimFloat.of_uint63 (Uint63.of_Z (Z.of_nat n));
  is_zero := fun x => PrimFloat.eqb x PrimFloat.zero
|}.

(** ** Exceptions and results *)

Inductive Exception : Type :=
| UnsupportedUnits (units : string)
| InconsistentLengths
| InconsistentLinewidths
| DuplicateBandIndex (index : Z)
| BandIndexOutOfBounds (index : Z) (numModes : nat)
| BandCountMismatch (numModes : nat)
| LatticeShape
| EigenvectorShape
| MassCount
| IndexError
| ValueError
| ZeroDivisionError.

Definition message (e : Exception) : string :=
  match e with
  | UnsupportedUnits units =>
      "Error: Unsupported units '" +:+ units +:+ "'."
  | InconsistentLengths =>
      "Error: The lengths of frequencies and intensities are inconsistent."
  | InconsistentLinewidths =>
      "Error: If supplied, linewidths must have the same number of elements as frequencies and intensities."
  | DuplicateBandIndex index =>
      "Error: Band index " +:+ pretty index +:+ " assigned to multiple ir. rep. groups."
  | BandIndexOutOfBounds index numModes =>
      "Error: Band index " +:+ pretty index +:+ " is out of bounds for # modes = "
        +:+ pretty numModes +:+ "."
  | BandCountMismatch numModes =>
      "Error: The number of bands references in the ir. rep. groups is more than # modes = "
        +:+ pretty numModes +:+ "."
  | LatticeShape =>
      "Error: latticeVectors must be a 3x3 matrix."
  | EigenvectorShape =>
      "Error: eigenvectors should be a 3N x N x 3 matrix."
  | MassCount =>
      "Error: The number of supplied atomic masses is inconsistent with the number of displacements in the eigenvectors."
  | IndexError => "IndexError"
  | ValueError => "ValueError"
  | ZeroDivisionError => "ZeroDivisionError"
  end.

Inductive result (A : Type) : Type :=
| Ok (a : A)
| Raise (e : Exception).

Arguments Ok {A} a.
Arguments Raise {A} e.

#[export] Instance result_ret : MRet result := fun A a => Ok a.
#[export] Instance result_bind : MBind result := fun A B f r =>
  match r with
  | Ok a => f a
  | Raise e => Raise e
  end.

(** ** Python built-ins used by the module *)

(** [str.lower] on ASCII. *)
Definition lower_ascii (c : ascii) : ascii :=
  let n := nat_of_ascii c in
  if ((65 <=? n) && (n <=? 90))%nat then ascii_of_nat (n + 32) else c.

Fixpoint lower (s : string) : string :=
  match s with
  | EmptyString => EmptyString
  | String c s' => String (lower_ascii c) (lower s')
  end.

(** [l[i]]: a negative index counts from the end, an index outside the list
    raises [IndexError]. *)
Definition py_index {A} (l : list A) (i : Z) : result A :=
  let n := Z.of_nat (length l) in
  let k := if i <? 0 then i + n else i in
  if (k <? 0) || (n <=? k) then Raise IndexError
  else match l !! Z.to_nat k with
       | Some a => Ok a
       | None => Raise IndexError
       end.

(** [a / b] on Python numbers: [ZeroDivisionError] when the divisor is zero,
    the quotient of the number type otherwise. *)
Definition truediv {F : Type} `{Number F} (a b : F) : result F :=
  if is_zero b then Raise ZeroDivisionError else Ok (div a b).

(** ** Unit handling *)

(** The three factors read from the module [Constants]. *)
Record ConstantsModule (F : Type) : Type := {
  THzToInvCm : F;
  THzToMeV : F;
  THzToInvUm : F
}.

Arguments THzToInvCm {F} _.
Arguments THzToMeV {F} _.
Arguments THzToInvUm {F} _.

(** The list object a variable is bound to during a call: the object the
    caller passed in (no copy of it is ever made), or a list built by a
    comprehension.  [elements] are the values found when it is iterated. *)
Inductive ListObject (F : Type) : Type :=
| Argument
| Built (values : list F).

Arguments Argument {F}.
Arguments Built {F} values.

Definition elements {F : Type} (argument : list F) (object : ListObject F)
    : list F :=
  match object with
  | Argument => argument
  | Built values => values
  end.

Section UnitHandling.
Context {F : Type} `{Number F} (Constants : ConstantsModule F).

(** [argument] holds the values of the list passed as [frequencies]; the
    local variable [frequencies] starts out bound to that object and is
    rebound by each comprehension.  A comprehension that divides stops at
    the first division by zero and leaves the call with that exception. *)
Definition ConvertFrequencyUnits
    (argument : list F) (unitsFrom unitsTo : string) : result (ListObject F) :=
  let frequencies := Argument in
  let unitsFrom := lower unitsFrom in
  let unitsTo := lower unitsTo in
  if String.eqb unitsFrom unitsTo then Ok frequencies
  else
    frequencies ←
      (if negb (String.eqb unitsFrom "thz") then
         if String.eqb unitsFrom "inv_cm" then
           built ← mapM (fun frequency =>
                           truediv frequency (THzToInvCm Constants))
                        (elements argument frequencies);
           Ok (Built built)
         else if String.eqb unitsFrom "mev" then
           built ← mapM (fun frequency =>
                           truediv frequency (THzToMeV Constants))
                        (elements argument frequencies);
           Ok (Built built)
         else if String.eqb unitsFrom "um" then
           built ← mapM (fun frequency =>
                           truediv one (mul frequency (THzToInvUm Constants)))
                        (elements argument frequencies);
           Ok (Built built)
         else Raise (UnsupportedUnits unitsFrom)
       else Ok frequencies);
    if negb (String.eqb unitsTo "thz") then
      if String.eqb unitsTo "inv_cm" then
        Ok (Built (map (fun frequency => mul frequency (THzToInvCm Constants))
                       (elements argument frequencies)))
      else if String.eqb unitsTo "mev" then
        Ok (Built (map (fun frequency => mul frequency (THzToMeV Constants))
                       (elements argument frequencies)))
      else if String.eqb unitsTo "um" then
        built ← mapM (fun frequency =>
                        truediv one (mul frequency (THzToInvUm Constants)))
                     (elements argument frequencies);
        Ok (Built built)
      else Raise (UnsupportedUnits unitsTo)
    else Ok frequencies.

End UnitHandling.

(** ** Peak-table preparation *)

(** One [(symbol, band_indices)] tuple of [irRepData]. *)
Abbreviation IrRepGroup := (string * list Z)%type.

Section PeakTable.
Context {F : Type} `{Number F}.

(** [np.sum] and [np.average] of a one-dimensional list: the values added
    one after the other; the sum of no values is zero and their average
    divides zero by the count zero.  (NumPy adds eight values and more in
    another order, which matters for binary64 rounding only.) *)
Definition np_sum (values : list F) : F :=
  match values with
  | [] => zero
  | value :: rest => fold_left add rest value
  end.

Definition np_average (values : list F) : F :=
  div (np_sum values) (of_count (length values)).

(** The inner loop of the band-index check: one group's indices against the
    set of indices seen so far. *)
Fixpoint check_band_indices (numModes : nat) (bandIndices : list Z)
    (includedIndices : gset Z) : result (gset Z) :=
  match bandIndices with
  | [] => Ok includedIndices
  | index :: rest =>
      if bool_decide (index ∈ includedIndices) then
        Raise (DuplicateBandIndex index)
      else if (index <? 1) || (index >? Z.of_nat numModes) then
        Raise (BandIndexOutOfBounds index numModes)
      else check_band_indices numModes rest (includedIndices ∪ {[index]})
  end.

(** The outer loop over [irRepData]. *)
Fixpoint check_groups (numModes : nat) (irRepData : list IrRepGroup)
    (includedIndices : gset Z) : result (gset Z) :=
  match irRepData with
  | [] => Ok includedIndices
  | (_, bandIndices) :: rest =>
      includedIndices ← check_band_indices numModes bandIndices includedIndices;
      check_groups numModes rest includedIndices
  end.

(** [[values[index - 1] for index in bandIndices]] *)
Definition select (values : list F) (bandIndices : list Z) : result (list F) :=
  mapM (fun index => py_index values (index - 1)) bandIndices.

(** The second loop.  The three accumulators are the lists being appended
    to; [linewidthsNew] is a list exactly when [linewidths] is one (both are
    decided by the same test), so the [None] accumulator is never appended
    to.  The pattern [[band]] is the test [len(bandIndices) == 1] followed by
    [bandIndices[0]]. *)
Fixpoint reduce_groups (frequencies intensities : list F)
    (linewidths : option (list F)) (irRepData : list IrRepGroup)
    (frequenciesNew intensitiesNew : list F) (linewidthsNew : option (list F))
    : result (list F * list F * option (list F)) :=
  match irRepData with
  | [] => Ok (frequenciesNew, intensitiesNew, linewidthsNew)
  | (_, bandIndices) :: rest =>
      '(frequenciesNew, intensitiesNew, linewidthsNew) ←
        match bandIndices with
        | [band] =>
            let index := band - 1 in
            frequency ← py_index frequencies index;
            intensity ← py_index intensities index;
            linewidthsNew ←
              match linewidths with
              | Some linewidths =>
                  linewidth ← py_index linewidths index;
                  Ok ((fun new => new ++ [linewidth]) <$> linewidthsNew)
              | None => Ok linewidthsNew
              end;
            Ok (frequenciesNew ++ [frequency], intensitiesNew ++ [intensity],
                linewidthsNew)
        | _ =>
            selected ← select frequencies bandIndices;
            let frequenciesNew := frequenciesNew ++ [np_average selected] in
            selected ← select intensities bandIndices;
            let intensitiesNew := intensitiesNew ++ [np_sum selected] in
            linewidthsNew ←
              match linewidths with
              | Some linewidths =>
                  selected ← select linewidths bandIndices;
                  Ok ((fun new => new ++ [np_average selected]) <$> linewidthsNew)
              | None => Ok linewidthsNew
              end;
            Ok (frequenciesNew, intensitiesNew, linewidthsNew)
        end;
      reduce_groups frequencies intensities linewidths rest
        frequenciesNew intensitiesNew linewidthsNew
  end.

Definition GroupForPeakTable (frequencies intensities : list F)
    (irRepData : list IrRepGroup) (linewidths : option (list F))
    : result (list F * list F * list string * option (list F)) :=
  let numModes := length frequencies in
  if negb (length intensities =? numModes)%nat then Raise InconsistentLengths
  else if match linewidths with
          | Some linewidths => negb (length linewidths =? numModes)%nat
          | None => false
          end
  then Raise InconsistentLinewidths
  else
    includedIndices ← check_groups numModes irRepData ∅;
    if negb (size includedIndices =? length frequencies)%nat then
      Raise (BandCountMismatch numModes)
    else
      let linewidthsNew :=
        match linewidths with Some _ => Some [] | None => None end in
      '(frequenciesNew, intensitiesNew, linewidthsNew) ←
        reduce_groups frequencies intensities linewidths irRepData [] [] linewidthsNew;
      Ok (frequenciesNew, intensitiesNew, irRepData.*1, linewidthsNew).

End PeakTable.

(** ** Helper routines *)

Section HelperRoutines.
Context {F : Type} `{Number F}.

(** [dim1, dim2 = np.shape(m)] for a list of rows of numbers: the rows must
    have one common length, and there must be a first row to read it from
    (the shape of [[]] is [(0,)], which does not unpack into two names). *)
Definition np_shape2 (m : list (list F)) : result (nat * nat) :=
  match m with
  | [] => Raise ValueError
  | row :: rest =>
      if forallb (fun r => (length r =? length row)%nat) rest then
        Ok (length m, length row)
      else Raise ValueError
  end.

(** [np.multiply] of a scalar and a vector, and [+] on vectors of equal
    length (the rows of a matrix that passed the 3x3 test). *)
Definition np_multiply (f : F) (v : list F) : list F := map (mul f) v.
Definition np_add (u v : list F) : list F := zip_with add u v.

Definition FractionalToCartesianCoordinates
    (positions : list (list F)) (latticeVectors : list (list F))
    : result (list (list F)) :=
  '(dim1, dim2) ← np_shape2 latticeVectors;
  if negb (dim1 =? 3)%nat || negb (dim2 =? 3)%nat then Raise LatticeShape
  else
    v1 ← py_index latticeVectors 0;
    v2 ← py_index latticeVectors 1;
    v3 ← py_index latticeVectors 2;
    mapM (fun position =>
            match position with
            | [f1; f2; f3] =>
                Ok (np_add (np_add (np_multiply f1 v1) (np_multiply f2 v2))
                           (np_multiply f3 v3))
            | _ => Raise ValueError
            end) positions.

(** [np.zeros((n1, n2, 3))] *)
Definition np_zeros3 (n1 n2 n3 : nat) : list (list (list F)) :=
  replicate n1 (replicate n2 (replicate n3 zero)).

(** [np.divide] of a vector by a scalar. *)
Definition np_divide (v : list F) (s : F) : list F := map (fun x => div x s) v.

(** The value stored by [a[i, j, :] = v] into a slice of three numbers: a
    vector of three is stored as it is, a vector of one is broadcast, any
    other length is refused. *)
Definition broadcast3 (v : list F) : result (list F) :=
  match v with
  | [x] => Ok [x; x; x]
  | [_; _; _] => Ok v
  | _ => Raise ValueError
  end.

(** [a[i, j, :] = v]; the loops only use indices inside the array they
    allocated ([i < numModes], [j < numAtoms]). *)
Definition set_slice (i j : nat) (v : list F) (a : list (list (list F)))
    : list (list (list F)) :=
  alter (fun plane => <[j := v]> plane) i a.

(** [for i in indices: body], threading the array being filled and stopping
    at the first exception; [for_range n] is [for i in range(0, n)]. *)
Fixpoint for_each {S : Type} (indices : list nat) (body : nat -> S -> result S)
    (s : S) : result S :=
  match indices with
  | [] => Ok s
  | i :: rest => s ← body i s; for_each rest body s
  end.

Definition for_range {S : Type} (n : nat) (body : nat -> S -> result S) (s : S)
    : result S :=
  for_each (seq 0 n) body s.

Definition EigenvectorsToEigendisplacements
    (eigenvectors : list (list (list F))) (atomicMasses : list F)
    : result (list (list (list F))) :=
  let numModes := length eigenvectors in
  eigenvectors0 ← py_index eigenvectors 0;
  let numAtoms := length eigenvectors0 in
  eigenvectors00 ← py_index eigenvectors0 0;
  let eigDim3 := length eigenvectors00 in
  if negb (numModes =? 3 * numAtoms)%nat || negb (eigDim3 =? 3)%nat then
    Raise EigenvectorShape
  else
    let massesDim1 := length atomicMasses in
    if negb (massesDim1 =? numAtoms)%nat then Raise MassCount
    else
      let sqrtMasses := map sqrt atomicMasses in
      let eigendisplacements := np_zeros3 numModes numAtoms 3 in
      for_range numModes (fun i eigendisplacements =>
        eigenvector ← py_index eigenvectors (Z.of_nat i);
        for_range numAtoms (fun j eigendisplacements =>
          displacement ← py_index eigenvector (Z.of_nat j);
          sqrtMass ← py_index sqrtMasses (Z.of_nat j);
          slice ← broadcast3 (np_divide displacement sqrtMass);
          Ok (set_slice i j slice eigendisplacements))
        eigendisplacements)
      eigendisplacements.

End HelperRoutines.

(** ** The remaining functions of the module *)

(** [GetFrequencyUnitLabel]; the dictionary [Constants.FrequencyUnitLabels]
    is not part of this file's source and is passed as a parameter. *)
Definition GetFrequencyUnitLabel (FrequencyUnitLabels : gmap string string)
    (frequencyUnits : string) : string :=
  let key := lower frequencyUnits in
  match FrequencyUnitLabels !! key with
  | Some label => label
  | None => frequencyUnits
  end.

(** [CartesianToFractionalCoordinates] calls [np.linalg.inv], which raises
    [numpy.linalg.LinAlgError] on a matrix it cannot invert.  A call ends
    either as the functions above do or in that exception. *)
Inductive linalg_result (A : Type) : Type :=
| Finished (r : result A)
| LinAlgError.

Arguments Finished {A} r.
Arguments LinAlgError {A}.

(** [np.linalg.inv] in exact real arithmetic, on the 3x3 matrices that reach
    it: for a determinant other than zero the inverse matrix (the adjugate
    over the determinant).  A matrix of determinant zero has no inverse; what
    NumPy makes of it depends on the rounding of its factorisation, which
    either meets a zero pivot and raises [LinAlgError] or returns some
    matrix of numbers.  That outcome is the parameter [singular] ([None] for
    [LinAlgError]); nothing is assumed about it.  A matrix that is not square
    is refused by NumPy too; after the 3x3 test none reaches the call. *)
Definition det3 (a11 a12 a13 a21 a22 a23 a31 a32 a33 : R) : R :=
  (a11 * (a22 * a33 - a23 * a32)
   - a12 * (a21 * a33 - a23 * a31)
   + a13 * (a21 * a32 - a22 * a31))%R.

Definition np_linalg_inv (singular : option (list (list R)))
    (m : list (list R)) : option (list (list R)) :=
  match m with
  | [[a11; a12; a13]; [a21; a22; a23]; [a31; a32; a33]] =>
      let d := det3 a11 a12 a13 a21 a22 a23 a31 a32 a33 in
      if Req_dec_T d 0 then singular
      else Some [[((a22 * a33 - a23 * a32) / d)%R;
                  ((a13 * a32 - a12 * a33) / d)%R;
                  ((a12 * a23 - a13 * a22) / d)%R];
                 [((a23 * a31 - a21 * a33) / d)%R;
                  ((a11 * a33 - a13 * a31) / d)%R;
                  ((a13 * a21 - a11 * a23) / d)%R];
                 [((a21 * a32 - a22 * a31) / d)%R;
                  ((a12 * a31 - a11 * a32) / d)%R;
                  ((a11 * a22 - a12 * a21) / d)%R]]
  | _ => None
  end.

(** [np.dot] of a vector and a 3x3 matrix: the vector times the matrix, a
    vector of any other length than three is refused. *)
Definition np_dot (v : list R) (m : list (list R)) : result (list R) :=
  match v, m with
  | [p1; p2; p3], [[a11; a12; a13]; [a21; a22; a23]; [a31; a32; a33]] =>
      Ok [(p1 * a11 + p2 * a21 + p3 * a31)%R;
          (p1 * a12 + p2 * a22 + p3 * a32)%R;
          (p1 * a13 + p2 * a23 + p3 * a33)%R]
  | _, _ => Raise ValueError
  end.

Definition CartesianToFractionalCoordinates
    (singular : option (list (list R)))
    (positions : list (list R)) (latticeVectors : list (list R))
    : linalg_result (list (list R)) :=
  match np_shape2 latticeVectors with
  | Raise e => Finished (Raise e)
  | Ok (dim1, dim2) =>
      if negb (dim1 =? 3)%nat || negb (dim2 =? 3)%nat then
        Finished (Raise LatticeShape)
      else
        match np_linalg_inv singular latticeVectors with
        | None => LinAlgError
        | Some transformationMatrix =>
            Finished
              (mapM (fun position => np_dot position transformationMatrix)
                    positions)
        end
  end.

(** ** Vocabulary of the specification *)

(** The four recognised units and their keys. *)
Inductive Unit : Type := THz | InvCm | MeV | Um.

Definition unit_key (u : Unit) : string :=
  match u with
  | THz => "thz"
  | InvCm => "inv_cm"
  | MeV => "mev"
  | Um => "um"
  end.

#[export] Instance Unit_eq_dec : EqDecision Unit.
Proof. solve_decision. Defined.

Definition recognized (key : string) : Prop := exists u, key = unit_key u.

Section PipelineSpec.
Context {F : Type} `{Number F} (Constants : ConstantsModule F).

(** Stage one, "to pivot": divide by the unit's ratio to THz, except for the
    wavelength unit, which is the reciprocal of value times constant. *)
Definition to_pivot (u : Unit) (value : F) : F :=
  match u with
  | THz => value
  | InvCm => div value (THzToInvCm Constants)
  | MeV => div value (THzToMeV Constants)
  | Um => div one (mul value (THzToInvUm Constants))
  end.

(** Stage two, "from pivot": multiply by the unit's ratio to THz, except for
    the wavelength unit, where the same reciprocal formula is used. *)
Definition from_pivot (u : Unit) (value : F) : F :=
  match u with
  | THz => value
  | InvCm => mul value (THzToInvCm Constants)
  | MeV => mul value (THzToMeV Constants)
  | Um => div one (mul value (THzToInvUm Constants))
  end.

Definition pipeline (source target : Unit) (values : list F) : list F :=
  map (from_pivot target) (map (to_pivot source) values).

(** The divisor of the division a stage performs on a value; [None] where
    the stage does not divide. *)
Definition to_pivot_divisor (u : Unit) (value : F) : option F :=
  match u with
  | THz => None
  | InvCm => Some (THzToInvCm Constants)
  | MeV => Some (THzToMeV Constants)
  | Um => Some (mul value (THzToInvUm Constants))
  end.

Definition from_pivot_divisor (u : Unit) (value : F) : option F :=
  match u with
  | Um => Some (mul value (THzToInvUm Constants))
  | _ => None
  end.

Definition nonzero_divisor (divisor : option F) : bool :=
  match divisor with
  | Some d => negb (is_zero d)
  | None => true
  end.

(** No division of stage one, respectively of both stages, is by zero.
    Stage two works on the values stage one produced. *)
Definition to_pivot_defined (source : Unit) (values : list F) : bool :=
  forallb (fun value => nonzero_divisor (to_pivot_divisor source value)) values.

Definition pipeline_defined (source target : Unit) (values : list F) : bool :=
  to_pivot_defined source values
  && forallb (fun value => nonzero_divisor (from_pivot_divisor target value))
       (map (to_pivot source) values).

End PipelineSpec.

(** A string of ASCII characters: the strings on which [lower] is Python's
    [str.lower]. *)
Definition is_ascii (s : string) : Prop :=
  forallb (fun c => (nat_of_ascii c <? 128)%nat) (list_ascii_of_string s) = true.

Section PeakTableSpec.
Context {F : Type} `{Number F}.

(** The value of mode number [index]; modes are numbered from one. *)
Definition mode_value (values : list F) (index : Z) : F :=
  default zero (values !! Z.to_nat (index - 1)).

(** The reduction rules: a group of exactly one band passes the value of
    that band through; any other group is reduced to the arithmetic mean,
    respectively the sum, of the values of its members. *)
Definition group_mean (values : list F) (bandIndices : list Z) : F :=
  match bandIndices with
  | [band] => mode_value values band
  | _ => np_average (map (mode_value values) bandIndices)
  end.

Definition group_sum (values : list F) (bandIndices : list Z) : F :=
  match bandIndices with
  | [band] => mode_value values band
  | _ => np_sum (map (mode_value values) bandIndices)
  end.

(** The list the reduction loop leaves in [linewidthsNew]. *)
Definition reduced_linewidths (linewidths : option (list F))
    (irRepData : list IrRepGroup) (linewidthsNew : option (list F))
    : option (list F) :=
  match linewidths with
  | Some linewidths =>
      (fun new => new ++ map (fun group => group_mean linewidths group.2) irRepData)
        <$> linewidthsNew
  | None => linewidthsNew
  end.

End PeakTableSpec.

(** All band indices of [irRepData], group after group. *)
Definition band_indices (irRepData : list IrRepGroup) : list Z :=
  concat (irRepData.*2).

(** The groups partition the mode numbers [1..numModes]: no index occurs
    twice and the indices that occur are exactly those of the range. *)
Definition partitions (numModes : nat) (irRepData : list IrRepGroup) : Prop :=
  NoDup (band_indices irRepData)
  /\ forall index : Z,
       index ∈ band_indices irRepData <-> 1 <= index <= Z.of_nat numModes.

Definition in_range (numModes : nat) (index : Z) : Prop :=
  1 <= index <= Z.of_nat numModes.

Section EigendisplacementSpec.
Context {F : Type} `{Number F}.

(** One mode after scaling: the displacement of atom j, component by
    component, divided by the square root of the mass of atom j. *)
Definition scaled_mode (atomicMasses : list F) (mode : list (list F))
    : list (list F) :=
  zip_with (fun displacement mass => map (fun c => div c (sqrt mass)) displacement)
    mode atomicMasses.

(** The shape [numModes x numAtoms x 3]. *)
Definition has_shape (numModes numAtoms : nat) (a : list (list (list F))) : Prop :=
  length a = numModes
  /\ Forall (fun mode => length mode = numAtoms
                         /\ Forall (fun v => length v = 3%nat) mode) a.

End EigendisplacementSpec.

Section CoordinateSpec.
Context {F : Type} `{Number F}.

(** The vector [FractionalToCartesianCoordinates] returns for one position. *)
Definition cartesian_of (a11 a12 a13 a21 a22 a23 a31 a32 a33 : F)
    (position : list F) : list F :=
  match position with
  | [f1; f2; f3] =>
      [add (add (mul f1 a11) (mul f2 a21)) (mul f3 a31);
       add (add (mul f1 a12) (mul f2 a22)) (mul f3 a32);
       add (add (mul f1 a13) (mul f2 a23)) (mul f3 a33)]
  | _ => []
  end.

End CoordinateSpec.

(** The vector [CartesianToFractionalCoordinates] returns for one position
    when the determinant of the lattice is not zero: the position times the
    inverse matrix. *)
Definition fractional_of (a11 a12 a13 a21 a22 a23 a31 a32 a33 : R)
    (position : list R) : list R :=
  let d := det3 a11 a12 a13 a21 a22 a23 a31 a32 a33 in
  match position with
  | [p1; p2; p3] =>
      [(p1 * ((a22 * a33 - a23 * a32) / d) + p2 * ((a23 * a31 - a21 * a33) / d)
        + p3 * ((a21 * a32 - a22 * a31) / d))%R;
       (p1 * ((a13 * a32 - a12 * a33) / d) + p2 * ((a11 * a33 - a13 * a31) / d)
        + p3 * ((a12 * a31 - a11 * a32) / d))%R;
       (p1 * ((a12 * a23 - a13 * a22) / d) + p2 * ((a13 * a21 - a11 * a23) / d)
        + p3 * ((a11 * a22 - a12 * a21) / d))%R]
  | _ => []
  end.

Section StoredSlices.
Context {F : Type} `{Number F}.

(** What the array holds after [a[i, j, :] = v] for a [v] of three
    components or of one. *)
Definition stored_slice (v : list F) : list F :=
  match v with
  | [x] => [x; x; x]
  | _ => v
  end.

Definition stored_mode (atomicMasses : list F) (mode : list (list F))
    : list (list F) :=
  zip_with (fun displacement mass =>
              stored_slice (map (fun c => div c (sqrt mass)) displacement))
    mode atomicMasses.

(** A displacement the slice assignment accepts, and a mode whose first
    [numAtoms] displacements exist and are accepted. *)
Definition storable (v : list F) : Prop :=
  length v = 3%nat \/ length v = 1%nat.

Definition acceptable_mode (numAtoms : nat) (mode : list (list F)) : Prop :=
  (numAtoms <= length mode)%nat /\ Forall storable (take numAtoms mode).

End StoredSlices.

(** ** Sample data for the concrete instances *)

(** A constants table over the reals, for the concrete instances below. *)
Definition sample_constants : ConstantsModule R := {|
  THzToInvCm := 33.35641%R;
  THzToMeV := 4.13567%R;
  THzToInvUm := 0.00333564%R
|}.

(** The same constants as binary64 values (the nearest doubles). *)
Definition sample_constants_float : ConstantsModule float := {|
  THzToInvCm := 0x1.0ad9ed7c6fbd2p+5%float;
  THzToMeV := 0x1.08aed1394317bp+2%float;
  THzToInvUm := 0x1.b535816c2643ep-9%float
|}.

(** A table with a label for each of the four recognised keys. *)
Definition sample_labels : gmap string string :=
  {[ "thz" := "THz"; "inv_cm" := "cm^-1"; "mev" := "meV"; "um" := "um" ]}.

(** The grouping example of the specification: four modes in three groups. *)
Definition sample_groups : list IrRepGroup :=
  [("A", [1]); ("B", [2; 3]); ("C", [4])].

(** * Frequency unit conversion *)

Section UnitHandlingFacts.
Context {F : Type} `{Number F} (Constants : ConstantsModule F).

Lemma convert_same_key (frequencies : list F) (unitsFrom unitsTo : string) :
  lower unitsFrom = lower unitsTo ->
  ConvertFrequencyUnits Constants frequencies unitsFrom unitsTo = Ok Argument.
Proof.
  intros Hsame. unfold ConvertFrequencyUnits.
  rewrite Hsame, String.eqb_refl. reflexivity.
Qed.

(** A comprehension of divisions returns the list of quotients unless one
    of the divisors is zero. *)
Lemma mapM_truediv {A : Type} (num den : A -> F) (l : list A) :
  mapM (fun a => truediv (num a) (den a)) l
  = if forallb (fun a => negb (is_zero (den a))) l
    then Ok (map (fun a => div (num a) (den a)) l)
    else Raise ZeroDivisionError.
Proof.
  induction l as [| a l IH]; [reflexivity |].
  cbn [mapM forallb map]. rewrite IH. unfold truediv.
  destruct (is_zero (den a)); [reflexivity |].
  cbn. now destruct (forallb _ l).
Qed.

Lemma forallb_map {A B : Type} (f : A -> B) (p : B -> bool) (l : list A) :
  forallb p (map f l) = forallb (fun a => p (f a)) l.
Proof. induction l as [| a l IH]; [reflexivity |]. cbn. now rewrite IH. Qed.

Lemma forallb_true {A : Type} (l : list A) : forallb (fun _ => true) l = true.
Proof. induction l as [| a l IH]; [reflexivity | exact IH]. Qed.

(** Between two distinct recognised units the call is the two-stage
    pipeline where every division is defined, and ends in
    [ZeroDivisionError] where one is not. *)
Lemma convert_recognized (frequencies : list F) (a b : Unit)
    (unitsFrom unitsTo : string) :
  lower unitsFrom = unit_key a -> lower unitsTo = unit_key b -> a <> b ->
  ConvertFrequencyUnits Constants frequencies unitsFrom unitsTo
  = if pipeline_defined Constants a b frequencies
    then Ok (Built (pipeline Constants a b frequencies))
    else Raise ZeroDivisionError.
Proof.
  intros Hfrom Hto Hne.
  unfold ConvertFrequencyUnits, pipeline, pipeline_defined, to_pivot_defined.
  rewrite Hfrom, Hto, forallb_map.
  destruct a, b; try congruence;
    cbn [unit_key String.eqb Ascii.eqb Bool.eqb negb to_pivot from_pivot
         to_pivot_divisor from_pivot_divisor nonzero_divisor];
    rewrite ?forallb_true;
    repeat (cbn [mbind result_bind elements andb];
            rewrite ?mapM_truediv, ?forallb_map; cbn beta;
            try match goal with
                | |- context [forallb ?p ?l] => destruct (forallb p l)
                end);
    unfold to_pivot, from_pivot; rewrite ?map_id; reflexivity.
Qed.

Lemma unrecognized_eqb (key : string) (u : Unit) :
  ~ recognized key -> String.eqb key (unit_key u) = false.
Proof.
  intros Hnot. apply String.eqb_neq. intros ->. apply Hnot. now exists u.
Qed.

(** Rewrites the four key tests of a key known to be unrecognised. *)
Ltac rewrite_unrecognized Hnot :=
  let rewrite_one u :=
    let Heqb := fresh "Heqb" in
    pose proof (unrecognized_eqb _ u Hnot) as Heqb; simpl in Heqb;
    rewrite Heqb; clear Heqb in
  rewrite_one THz; rewrite_one InvCm; rewrite_one MeV; rewrite_one Um.

Lemma convert_unrecognized_source (frequencies : list F)
    (unitsFrom unitsTo : string) :
  lower unitsFrom <> lower unitsTo -> ~ recognized (lower unitsFrom) ->
  ConvertFrequencyUnits Constants frequencies unitsFrom unitsTo
  = Raise (UnsupportedUnits (lower unitsFrom)).
Proof.
  intros Hne Hnot. unfold ConvertFrequencyUnits.
  apply String.eqb_neq in Hne. rewrite Hne.
  rewrite_unrecognized Hnot.
  reflexivity.
Qed.

(** The target key is examined after stage one has run. *)
Lemma convert_unrecognized_target (frequencies : list F) (a : Unit)
    (unitsFrom unitsTo : string) :
  lower unitsFrom = unit_key a -> ~ recognized (lower unitsTo) ->
  ConvertFrequencyUnits Constants frequencies unitsFrom unitsTo
  = if to_pivot_defined Constants a frequencies
    then Raise (UnsupportedUnits (lower unitsTo))
    else Raise ZeroDivisionError.
Proof.
  intros Ha Hnot.
  assert (lower unitsFrom <> lower unitsTo) as Hne.
  { intros Hsame. apply Hnot. exists a. congruence. }
  unfold ConvertFrequencyUnits, to_pivot_defined.
  apply String.eqb_neq in Hne. rewrite Hne.
  rewrite_unrecognized Hnot.
  rewrite Ha.
  destruct a;
    cbn [unit_key String.eqb Ascii.eqb Bool.eqb negb to_pivot_divisor
         nonzero_divisor elements];
    rewrite ?forallb_true, ?mapM_truediv; cbn beta;
    try match goal with
        | |- context [forallb ?p ?l] => destruct (forallb p l)
        end; reflexivity.
Qed.

End UnitHandlingFacts.

Example convert_float_thz_inv_cm :
  ConvertFrequencyUnits sample_constants_float [1%float] "THz" "inv_cm"
  = Ok (Built [THzToInvCm sample_constants_float]).
Proof. vm_compute. reflexivity. Qed.

(** On Python floats a wavelength of zero cannot be converted: the product
    with the constant is zero and the division raises. *)
Example convert_float_um_thz :
  ConvertFrequencyUnits sample_constants_float [0%float] "um" "thz"
  = Raise ZeroDivisionError.
Proof. vm_compute. reflexivity. Qed.

(** Over the reals, with non-zero constants, every division the pipeline
    performs on non-zero values is defined. *)
Lemma is_zero_R (x : R) : is_zero x = false <-> x <> 0%R.
Proof.
  cbn. destruct (Req_dec_T x 0) as [Hzero | Hnonzero]; split;
    intros; congruence.
Qed.

Lemma to_pivot_R_nonzero (Constants : ConstantsModule R) (u : Unit) (value : R) :
  THzToInvCm Constants <> 0%R ->
  THzToMeV Constants <> 0%R ->
  THzToInvUm Constants <> 0%R ->
  value <> 0%R -> to_pivot Constants u value <> 0%R.
Proof.
  intros HInvCm HMeV HInvUm Hvalue. destruct u; cbn; [assumption | ..].
  - unfold Rdiv. apply Rmult_integral_contrapositive_currified;
      [assumption | now apply Rinv_neq_0_compat].
  - unfold Rdiv. apply Rmult_integral_contrapositive_currified;
      [assumption | now apply Rinv_neq_0_compat].
  - unfold Rdiv. rewrite Rmult_1_l. apply Rinv_neq_0_compat.
    now apply Rmult_integral_contrapositive_currified.
Qed.

Lemma pipeline_defined_R (Constants : ConstantsModule R) (a b : Unit)
    (values : list R) :
  THzToInvCm Constants <> 0%R ->
  THzToMeV Constants <> 0%R ->
  THzToInvUm Constants <> 0%R ->
  Forall (fun value => value <> 0%R) values ->
  pipeline_defined Constants a b values = true.
Proof.
  intros HInvCm HMeV HInvUm Hvalues.
  unfold pipeline_defined, to_pivot_defined. rewrite forallb_map.
  apply andb_true_intro. split; apply forallb_forall; intros value Hvalue;
    apply (proj1 (Forall_forall _ _)) with (x := value) in Hvalues;
    try (now apply list_elem_of_In).
  - destruct a; cbn [to_pivot_divisor nonzero_divisor]; [reflexivity | ..];
      apply negb_true_iff, is_zero_R; try assumption.
    now apply Rmult_integral_contrapositive_currified.
  - destruct b; cbn [from_pivot_divisor nonzero_divisor]; try reflexivity.
    apply negb_true_iff, is_zero_R.
    apply Rmult_integral_contrapositive_currified; [| assumption].
    now apply to_pivot_R_nonzero.
Qed.



(** C3 as stated fails: with equal (case-folded) keys the short-circuit
    returns before any key is examined, so an unrecognised key is accepted
    and the caller's list comes back. *)
Lemma ConvertFrequencyUnits_equal_unrecognized_keys :
  ~ recognized (lower "Furlongs")
  /\ ~ recognized (lower "furlongs")
  /\ ConvertFrequencyUnits sample_constants [1%R] "Furlongs" "furlongs"
     = Ok Argument.
Proof.
  assert (~ recognized "furlongs") as Hnot
    by (intros [u Hu]; destruct u; discriminate Hu).
  split; [exact Hnot |]. split; [exact Hnot |]. reflexivity.
Qed.

(** C3, amended.  For keys of ASCII characters whose case-folded forms
    differ: an unrecognised source key makes the call raise the
    unsupported-units exception naming it (case-folded), whatever the
    values.  With a recognised source key and an unrecognised target key
    stage one runs first: the call raises the unsupported-units exception
    naming the target key unless a division of stage one is by zero, in which
    case it raises [ZeroDivisionError]; from THz stage one never divides.  In
    no case is output produced.  When the case-folded keys are equal the
    input is returned without any key being checked. *)
Theorem ConvertFrequencyUnits_unsupported_units :
  forall (F : Type) (N : Number F) (Constants : ConstantsModule F)
         (values : list F) (unitsFrom unitsTo : string),
    (is_ascii unitsFrom -> is_ascii unitsTo ->
     lower unitsFrom <> lower unitsTo ->
     ~ recognized (lower unitsFrom) ->
     ConvertFrequencyUnits Constants values unitsFrom unitsTo
     = Raise (UnsupportedUnits (lower unitsFrom)))
    /\ (forall a : Unit,
          is_ascii unitsFrom -> is_ascii unitsTo ->
          lower unitsFrom = unit_key a -> ~ recognized (lower unitsTo) ->
          ConvertFrequencyUnits Constants values unitsFrom unitsTo
          = if to_pivot_defined Constants a values
            then Raise (UnsupportedUnits (lower unitsTo))
            else Raise ZeroDivisionError)
    /\ to_pivot_defined Constants THz values = true
    /\ (lower unitsFrom = lower unitsTo ->
        ConvertFrequencyUnits Constants values unitsFrom unitsTo = Ok Argument).
Proof.
  intros F N Constants values unitsFrom unitsTo.
  split; [| split; [| split]].
  - intros _ _. apply convert_unrecognized_source.
  - intros a _ _. apply convert_unrecognized_target.
  - apply forallb_true.
  - apply convert_same_key.
Qed.

Lemma not_recognized_furlongs : ~ recognized "furlongs".
Proof. intros [u Hu]. destruct u; discriminate Hu. Qed.

Lemma ConvertFrequencyUnits_unsupported_units_witness :
  ConvertFrequencyUnits sample_constants_float [1%float] "Furlongs" "THz"
  = Raise (UnsupportedUnits "furlongs")
  /\ ConvertFrequencyUnits sample_constants_float [1%float] "MeV" "Furlongs"
     = Raise (UnsupportedUnits "furlongs")
  /\ ConvertFrequencyUnits sample_constants_float [0%float] "um" "Furlongs"
     = Raise ZeroDivisionError
  /\ ConvertFrequencyUnits sample_constants_float [1%float] "Furlongs" "furlongs"
     = Ok Argument.
Proof.
  split; [| split; [| split]].
  - apply (proj1 (ConvertFrequencyUnits_unsupported_units float float_Number
             sample_constants_float [1%float] "Furlongs" "THz"));
      [reflexivity | reflexivity | discriminate | exact not_recognized_furlongs].
  - apply (proj1 (proj2 (ConvertFrequencyUnits_unsupported_units
             float float_Number sample_constants_float [1%float]
             "MeV" "Furlongs")) MeV);
      [reflexivity | reflexivity | reflexivity | exact not_recognized_furlongs].
  - apply (proj1 (proj2 (ConvertFrequencyUnits_unsupported_units
             float float_Number sample_constants_float [0%float]
             "um" "Furlongs")) Um);
      [reflexivity | reflexivity | reflexivity | exact not_recognized_furlongs].
  - apply (proj2 (proj2 (proj2 (ConvertFrequencyUnits_unsupported_units
             float float_Number sample_constants_float [1%float]
             "Furlongs" "furlongs")))).
    reflexivity.
Defined.

(** C7.  When the two unit strings agree after lower-casing, the call hands
    back the very list object it was passed: no copy is made, no arithmetic
    is performed and no key is checked, so the values the caller sees are
    exactly the input values. *)
Theorem ConvertFrequencyUnits_identity :
  forall (F : Type) (N : Number F) (Constants : ConstantsModule F)
         (values : list F) (unitsFrom unitsTo : string),
    lower unitsFrom = lower unitsTo ->
    ConvertFrequencyUnits Constants values unitsFrom unitsTo = Ok Argument
    /\ elements values Argument = values.
Proof.
  intros F N Constants values unitsFrom unitsTo Hsame.
  split; [now apply convert_same_key | reflexivity].
Qed.

Lemma ConvertFrequencyUnits_identity_witness :
  ConvertFrequencyUnits sample_constants_float [0x1.0ad9ed7c6fbd2p+5%float; nan]
    "Inv_Cm" "INV_cm"
  = Ok Argument.
Proof.
  apply (ConvertFrequencyUnits_identity float float_Number). reflexivity.
Defined.

(** ** Round trip over the reals *)

Section RoundTrip.
Variable Constants : ConstantsModule R.
Hypothesis InvCm_nonzero : THzToInvCm Constants <> 0%R.
Hypothesis MeV_nonzero : THzToMeV Constants <> 0%R.
Hypothesis InvUm_nonzero : THzToInvUm Constants <> 0%R.

(** Going to the pivot unit and back is the identity on a non-zero value. *)
Lemma from_pivot_to_pivot (u : Unit) (value : R) :
  value <> 0%R ->
  from_pivot Constants u (to_pivot Constants u value) = value.
Proof. intros Hvalue. destruct u; cbn; [reflexivity | now field ..]. Qed.

Lemma to_pivot_from_pivot (u : Unit) (value : R) :
  value <> 0%R ->
  to_pivot Constants u (from_pivot Constants u value) = value.
Proof. intros Hvalue. destruct u; cbn; [reflexivity | now field ..]. Qed.

Lemma to_pivot_nonzero (u : Unit) (value : R) :
  value <> 0%R -> to_pivot Constants u value <> 0%R.
Proof. now apply to_pivot_R_nonzero. Qed.

Lemma from_pivot_nonzero (u : Unit) (value : R) :
  value <> 0%R -> from_pivot Constants u value <> 0%R.
Proof.
  intros Hvalue. destruct u; cbn; [assumption | ..].
  - now apply Rmult_integral_contrapositive_currified.
  - now apply Rmult_integral_contrapositive_currified.
  - unfold Rdiv. rewrite Rmult_1_l. apply Rinv_neq_0_compat.
    now apply Rmult_integral_contrapositive_currified.
Qed.

Lemma pipeline_nonzero (a b : Unit) (values : list R) :
  Forall (fun value => value <> 0%R) values ->
  Forall (fun value => value <> 0%R) (pipeline Constants a b values).
Proof.
  intros Hvalues. unfold pipeline.
  induction Hvalues as [| value values Hvalue _ IH]; constructor; [| exact IH].
  now apply from_pivot_nonzero, to_pivot_nonzero.
Qed.

(** With non-zero constants a conversion of non-zero values between distinct
    recognised units returns. *)
Lemma convert_recognized_R (values : list R) (a b : Unit)
    (unitsFrom unitsTo : string) :
  lower unitsFrom = unit_key a -> lower unitsTo = unit_key b -> a <> b ->
  Forall (fun value => value <> 0%R) values ->
  ConvertFrequencyUnits Constants values unitsFrom unitsTo
  = Ok (Built (pipeline Constants a b values)).
Proof.
  intros Hfrom Hto Hne Hvalues.
  rewrite (convert_recognized Constants values a b) by assumption.
  now rewrite pipeline_defined_R.
Qed.

Lemma pipeline_round_trip (a b : Unit) (values : list R) :
  Forall (fun value => value <> 0%R) values ->
  pipeline Constants b a (pipeline Constants a b values) = values.
Proof.
  intros Hvalues. unfold pipeline.
  induction Hvalues as [| value values Hvalue _ IH]; [reflexivity |].
  cbn [map]. rewrite IH. f_equal.
  rewrite to_pivot_from_pivot by now apply to_pivot_nonzero.
  now apply from_pivot_to_pivot.
Qed.

End RoundTrip.



(** In binary64 the round trip is only approximate: 3 THz taken to
    micrometres and back comes out one unit in the last place below 3. *)
Example ConvertFrequencyUnits_float_round_trip_drift :
  match
    ConvertFrequencyUnits sample_constants_float [3%float] "thz" "um"
    ≫= fun converted =>
         ConvertFrequencyUnits sample_constants_float
           (elements [3%float] converted) "um" "thz"
  with
  | Ok (Built [back]) =>
      PrimFloat.ltb back 3 && PrimFloat.eqb (next_up back) 3 = true
  | _ => False
  end.
Proof. vm_compute. reflexivity. Qed.


(** * Peak-table grouping *)

Section PeakTableFacts.
Context {F : Type} `{Number F}.

Lemma py_index_in_range {A : Type} (l : list A) (i : Z) :
  0 <= i < Z.of_nat (length l) ->
  exists a, l !! Z.to_nat i = Some a /\ py_index l i = Ok a.
Proof.
  intros Hi. unfold py_index.
  destruct (Z.ltb_spec i 0) as [Hneg | _]; [lia |].
  destruct (Z.ltb_spec i 0) as [Hneg | _]; [lia |].
  destruct (Z.leb_spec (Z.of_nat (length l)) i) as [Hge | _]; [lia |].
  cbn. destruct (lookup_lt_is_Some_2 l (Z.to_nat i)) as [a Ha]; [lia |].
  exists a. now rewrite Ha.
Qed.

Lemma py_index_mode_value (values : list F) (index : Z) :
  in_range (length values) index ->
  py_index values (index - 1) = Ok (mode_value values index).
Proof.
  intros Hindex. unfold in_range in Hindex.
  destruct (py_index_in_range values (index - 1)) as (a & Ha & ->); [lia |].
  unfold mode_value. now rewrite Ha.
Qed.

Lemma select_in_range (values : list F) (bandIndices : list Z) :
  Forall (in_range (length values)) bandIndices ->
  select values bandIndices = Ok (map (mode_value values) bandIndices).
Proof.
  unfold select. induction 1 as [| index rest Hindex _ IH]; [reflexivity |].
  cbn. rewrite py_index_mode_value by assumption. cbn. now rewrite IH.
Qed.

(** *** The band-index check *)

Lemma check_band_indices_app (numModes : nat) (l1 l2 : list Z) (s : gset Z) :
  check_band_indices numModes (l1 ++ l2) s
  = check_band_indices numModes l1 s ≫= check_band_indices numModes l2.
Proof.
  revert s. induction l1 as [| index l1 IH]; intros s; [reflexivity |].
  cbn. repeat case_match; try reflexivity. apply IH.
Qed.

Lemma check_groups_flat (numModes : nat) (irRepData : list IrRepGroup)
    (s : gset Z) :
  check_groups numModes irRepData s
  = check_band_indices numModes (band_indices irRepData) s.
Proof.
  revert s. induction irRepData as [| [symbol bandIndices] rest IH]; intros s;
    [reflexivity |].
  unfold band_indices. cbn. rewrite check_band_indices_app.
  destruct (check_band_indices numModes bandIndices s); cbn; [apply IH | reflexivity].
Qed.

Lemma check_band_indices_accepts (numModes : nat) (l : list Z) (s : gset Z) :
  NoDup l -> Forall (in_range numModes) l -> (forall index, index ∈ l -> index ∉ s) ->
  check_band_indices numModes l s = Ok (s ∪ list_to_set l).
Proof.
  intros Hnodup. revert s.
  induction Hnodup as [| index l Hnotin _ IH]; intros s Hrange Hfresh.
  - cbn. f_equal. set_solver.
  - apply Forall_cons in Hrange as [Hindex Hrange]. unfold in_range in Hindex.
    cbn. rewrite bool_decide_eq_false_2 by set_solver.
    destruct (Z.ltb_spec index 1) as [Hlow | _]; [lia |].
    destruct (Z.gtb_spec index (Z.of_nat numModes)) as [Hhigh | _]; [lia |].
    cbn. rewrite IH; [f_equal; set_solver | assumption | set_solver].
Qed.

Lemma check_band_indices_duplicate (numModes : nat) (pre post : list Z)
    (index : Z) :
  NoDup pre -> Forall (in_range numModes) pre -> index ∈ pre ->
  check_band_indices numModes (pre ++ index :: post) ∅
  = Raise (DuplicateBandIndex index).
Proof.
  intros Hnodup Hrange Hin. rewrite check_band_indices_app.
  rewrite check_band_indices_accepts by (auto; set_solver).
  cbn. rewrite bool_decide_eq_true_2 by set_solver. reflexivity.
Qed.

Lemma partitions_length (numModes : nat) (irRepData : list IrRepGroup) :
  partitions numModes irRepData ->
  length (band_indices irRepData) = numModes.
Proof.
  intros [Hnodup Hrange].
  assert (band_indices irRepData ≡ₚ seqZ 1 (Z.of_nat numModes)) as Hperm.
  { apply NoDup_Permutation; [assumption | apply NoDup_seqZ |].
    intros index. rewrite Hrange, elem_of_seqZ. lia. }
  rewrite Hperm, length_seqZ. lia.
Qed.

Lemma partitions_in_range (numModes : nat) (irRepData : list IrRepGroup) :
  partitions numModes irRepData ->
  Forall (in_range numModes) (band_indices irRepData).
Proof. intros [_ Hrange]. apply Forall_forall. intros index. apply Hrange. Qed.

End PeakTableFacts.

Section PeakTableReduction.
Context {F : Type} `{Number F}.

Lemma reduce_groups_in_range (frequencies intensities : list F)
    (linewidths : option (list F)) (irRepData : list IrRepGroup)
    (frequenciesNew intensitiesNew : list F) (linewidthsNew : option (list F)) :
  length intensities = length frequencies ->
  (forall values, linewidths = Some values -> length values = length frequencies) ->
  Forall (in_range (length frequencies)) (band_indices irRepData) ->
  reduce_groups frequencies intensities linewidths irRepData
    frequenciesNew intensitiesNew linewidthsNew
  = Ok (frequenciesNew ++ map (fun group => group_mean frequencies group.2) irRepData,
        intensitiesNew ++ map (fun group => group_sum intensities group.2) irRepData,
        reduced_linewidths linewidths irRepData linewidthsNew).
Proof.
  intros Hintensities Hlinewidths.
  revert frequenciesNew intensitiesNew linewidthsNew.
  induction irRepData as [| [symbol bandIndices] rest IH];
    intros frequenciesNew intensitiesNew linewidthsNew Hrange.
  - cbn. rewrite !app_nil_r. f_equal. f_equal.
    unfold reduced_linewidths. destruct linewidths, linewidthsNew; cbn;
      now rewrite ?app_nil_r.
  - unfold band_indices in Hrange. cbn in Hrange.
    apply Forall_app in Hrange as [Hgroup Hrest].
    assert (Forall (in_range (length intensities)) bandIndices) as Hgroup_i
      by now rewrite Hintensities.
    assert (forall values, linewidths = Some values ->
              Forall (in_range (length values)) bandIndices) as Hgroup_l
      by (intros values Hvalues; now rewrite (Hlinewidths values Hvalues)).
    assert (reduce_groups frequencies intensities linewidths
              ((symbol, bandIndices) :: rest)
              frequenciesNew intensitiesNew linewidthsNew
            = reduce_groups frequencies intensities linewidths rest
                (frequenciesNew ++ [group_mean frequencies bandIndices])
                (intensitiesNew ++ [group_sum intensities bandIndices])
                (reduced_linewidths linewidths [(symbol, bandIndices)] linewidthsNew))
      as Hstep.
    { destruct bandIndices as [| band [| band' others]].
      - cbn. destruct linewidths as [values |]; reflexivity.
      - apply Forall_inv in Hgroup. apply Forall_inv in Hgroup_i.
        cbn [reduce_groups].
        rewrite !py_index_mode_value by assumption. cbn [mbind result_bind].
        destruct linewidths as [values |]; [| reflexivity].
        specialize (Hgroup_l values eq_refl). apply Forall_inv in Hgroup_l.
        rewrite py_index_mode_value by assumption. reflexivity.
      - cbn [reduce_groups].
        rewrite !select_in_range by assumption. cbn [mbind result_bind].
        destruct linewidths as [values |]; [| reflexivity].
        rewrite select_in_range by auto. reflexivity. }
    rewrite Hstep.
    rewrite IH by exact Hrest. cbn [map]. rewrite <- !app_assoc. cbn [app].
    f_equal. f_equal.
    unfold reduced_linewidths. destruct linewidths, linewidthsNew; cbn;
      [now rewrite <- app_assoc | reflexivity ..].
Qed.

(** The call on well-formed arguments: consistent lengths and groups that
    partition the mode numbers. *)
Lemma GroupForPeakTable_partition (frequencies intensities : list F)
    (irRepData : list IrRepGroup) (linewidths : option (list F)) :
  length intensities = length frequencies ->
  (forall values, linewidths = Some values -> length values = length frequencies) ->
  partitions (length frequencies) irRepData ->
  GroupForPeakTable frequencies intensities irRepData linewidths
  = Ok (map (fun group => group_mean frequencies group.2) irRepData,
        map (fun group => group_sum intensities group.2) irRepData,
        irRepData.*1,
        (fun values => map (fun group => group_mean values group.2) irRepData)
          <$> linewidths).
Proof.
  intros Hintensities Hlinewidths Hpartition.
  pose proof (partitions_length _ _ Hpartition) as Hlength.
  pose proof (partitions_in_range _ _ Hpartition) as Hrange.
  destruct Hpartition as [Hnodup _].
  unfold GroupForPeakTable.
  rewrite Hintensities, Nat.eqb_refl. cbn [negb].
  assert (match linewidths with
          | Some values => negb (length values =? length frequencies)%nat
          | None => false
          end = false) as ->.
  { destruct linewidths as [values |]; [| reflexivity].
    now rewrite (Hlinewidths values eq_refl), Nat.eqb_refl. }
  rewrite check_groups_flat.
  rewrite check_band_indices_accepts by (auto; set_solver).
  cbn [mbind result_bind].
  rewrite (left_id_L ∅ (∪)), size_list_to_set, Hlength, Nat.eqb_refl by assumption.
  cbn [negb].
  rewrite reduce_groups_in_range by assumption.
  cbn [mbind result_bind app]. do 2 f_equal.
  destruct linewidths; reflexivity.
Qed.

End PeakTableReduction.

Section PeakTableErrors.
Context {F : Type} `{Number F}.

Lemma check_band_indices_Ok (numModes : nat) (l : list Z) (s s' : gset Z) :
  check_band_indices numModes l s = Ok s' ->
  NoDup l /\ Forall (in_range numModes) l
  /\ (forall index, index ∈ l -> index ∉ s) /\ s' = s ∪ list_to_set l.
Proof.
  revert s. induction l as [| index l IH]; intros s Hcheck.
  - cbn in Hcheck. injection Hcheck as <-.
    repeat split; [constructor | constructor | set_solver | set_solver].
  - cbn in Hcheck. case_bool_decide as Hseen; [discriminate |].
    destruct (Z.ltb_spec index 1) as [Hlow | Hlow]; [discriminate |].
    destruct (Z.gtb_spec index (Z.of_nat numModes)) as [Hhigh | Hhigh];
      [discriminate |].
    cbn in Hcheck. apply IH in Hcheck as (Hnodup & Hrange & Hfresh & ->).
    repeat split.
    + constructor; [| assumption]. intros Hin. apply Hfresh in Hin. set_solver.
    + constructor; [unfold in_range; lia | assumption].
    + intros index' Hin. apply elem_of_cons in Hin as [-> | Hin];
        [assumption |]. apply Hfresh in Hin. set_solver.
    + set_solver.
Qed.

Lemma GroupForPeakTable_Ok (frequencies intensities : list F)
    (irRepData : list IrRepGroup) (linewidths : option (list F)) out :
  GroupForPeakTable frequencies intensities irRepData linewidths = Ok out ->
  length intensities = length frequencies
  /\ (forall values, linewidths = Some values -> length values = length frequencies)
  /\ partitions (length frequencies) irRepData.
Proof.
  unfold GroupForPeakTable. intros Hcall.
  destruct (Nat.eqb_spec (length intensities) (length frequencies))
    as [Hintensities | _]; [| discriminate].
  cbn [negb] in Hcall.
  assert (forall values, linewidths = Some values ->
            length values = length frequencies) as Hlinewidths.
  { intros values ->.
    destruct (Nat.eqb_spec (length values) (length frequencies));
      [assumption | discriminate]. }
  split; [assumption |]. split; [assumption |].
  destruct linewidths as [values |];
    [rewrite (Hlinewidths values eq_refl), Nat.eqb_refl in Hcall |];
    cbn [negb] in Hcall.
  all: rewrite check_groups_flat in Hcall.
  all: destruct (check_band_indices _ _ _) as [included |] eqn:Hcheck;
    [| discriminate].
  all: apply check_band_indices_Ok in Hcheck as (Hnodup & Hrange & _ & ->).
  all: cbn [mbind result_bind] in Hcall.
  all: rewrite (left_id_L ∅ (∪)), size_list_to_set in Hcall by assumption.
  all: destruct (Nat.eqb_spec (length (band_indices irRepData)) (length frequencies))
    as [Hlength | _]; [| discriminate].
  all: split; [assumption |].
  all: assert (band_indices irRepData ≡ₚ seqZ 1 (Z.of_nat (length frequencies)))
    as Hperm.
  1, 3: apply submseteq_length_Permutation; [| rewrite length_seqZ; lia].
  1, 2: apply NoDup_submseteq; [assumption |].
  1, 2: intros index Hindex; rewrite Forall_forall in Hrange;
    apply Hrange in Hindex; unfold in_range in Hindex; apply elem_of_seqZ; lia.
  all: intros index; rewrite Hperm, elem_of_seqZ; lia.
Qed.

Lemma GroupForPeakTable_duplicate (frequencies intensities : list F)
    (irRepData : list IrRepGroup) (linewidths : option (list F))
    (pre post : list Z) (index : Z) :
  length intensities = length frequencies ->
  (forall values, linewidths = Some values -> length values = length frequencies) ->
  band_indices irRepData = pre ++ index :: post ->
  NoDup pre -> Forall (in_range (length frequencies)) pre -> index ∈ pre ->
  GroupForPeakTable frequencies intensities irRepData linewidths
  = Raise (DuplicateBandIndex index).
Proof.
  intros Hintensities Hlinewidths Hsplit Hnodup Hrange Hin.
  unfold GroupForPeakTable.
  rewrite Hintensities, Nat.eqb_refl. cbn [negb].
  assert (match linewidths with
          | Some values => negb (length values =? length frequencies)%nat
          | None => false
          end = false) as ->.
  { destruct linewidths as [values |]; [| reflexivity].
    now rewrite (Hlinewidths values eq_refl), Nat.eqb_refl. }
  rewrite check_groups_flat, Hsplit.
  now rewrite check_band_indices_duplicate.
Qed.

Lemma GroupForPeakTable_under_coverage (frequencies intensities : list F)
    (irRepData : list IrRepGroup) (linewidths : option (list F)) :
  length intensities = length frequencies ->
  (forall values, linewidths = Some values -> length values = length frequencies) ->
  NoDup (band_indices irRepData) ->
  Forall (in_range (length frequencies)) (band_indices irRepData) ->
  (length (band_indices irRepData) < length frequencies)%nat ->
  GroupForPeakTable frequencies intensities irRepData linewidths
  = Raise (BandCountMismatch (length frequencies)).
Proof.
  intros Hintensities Hlinewidths Hnodup Hrange Hfewer.
  unfold GroupForPeakTable.
  rewrite Hintensities, Nat.eqb_refl. cbn [negb].
  assert (match linewidths with
          | Some values => negb (length values =? length frequencies)%nat
          | None => false
          end = false) as ->.
  { destruct linewidths as [values |]; [| reflexivity].
    now rewrite (Hlinewidths values eq_refl), Nat.eqb_refl. }
  rewrite check_groups_flat.
  rewrite check_band_indices_accepts by (auto; set_solver).
  cbn [mbind result_bind].
  rewrite (left_id_L ∅ (∪)), size_list_to_set by assumption.
  destruct (Nat.eqb_spec (length (band_indices irRepData)) (length frequencies));
    [lia | reflexivity].
Qed.

End PeakTableErrors.

Lemma elem_of_band_indices (irRepData : list IrRepGroup) (symbol : string)
    (bandIndices : list Z) (index : Z) :
  (symbol, bandIndices) ∈ irRepData -> index ∈ bandIndices ->
  index ∈ band_indices irRepData.
Proof.
  intros Hgroup Hindex. unfold band_indices.
  induction irRepData as [| group rest IH]; [now apply not_elem_of_nil in Hgroup |].
  cbn. apply elem_of_app.
  apply elem_of_cons in Hgroup as [<- | Hgroup]; [now left | right; auto].
Qed.

(** Over the reals the left-to-right sum is the arithmetic sum, and the
    average is that sum divided by the number of values. *)
Lemma fold_left_Rplus (values : list R) (start : R) :
  fold_left Rplus values start = (start + fold_right Rplus 0 values)%R.
Proof.
  revert start. induction values as [| value rest IH]; intros start; cbn.
  - lra.
  - rewrite IH. lra.
Qed.

Lemma np_sum_R (values : list R) : np_sum values = fold_right Rplus 0%R values.
Proof.
  destruct values as [| value rest]; [reflexivity |].
  cbn. apply fold_left_Rplus.
Qed.

Lemma np_average_R (values : list R) :
  np_average values = (fold_right Rplus 0 values / INR (length values))%R.
Proof. unfold np_average. now rewrite np_sum_R. Qed.

Lemma lookup_map {A B : Type} (f : A -> B) (l : list A) (k : nat) :
  map f l !! k = f <$> l !! k.
Proof. exact (list_lookup_fmap f l k). Qed.

(** C1.  For consistent lengths and groups that partition the mode numbers
    [1..N], the call succeeds; the symbols returned are those of [irRepData]
    in order; every output list has one entry per group, and the k-th
    entries are the reductions of the k-th group: a group of one band passes
    the frequency, intensity and (if supplied) linewidth of that band
    through unchanged, any other group gives the mean of its members'
    frequencies, the sum of its members' intensities and the mean of its
    members' linewidths.  Every member is read from the input at its band
    index minus one.  Over the reals [np_sum] is the arithmetic sum and
    [np_average] the arithmetic mean. *)
Theorem GroupForPeakTable_reduction :
  (forall (F : Type) (N : Number F) (frequencies intensities : list F)
          (irRepData : list IrRepGroup) (linewidths : option (list F)),
      length intensities = length frequencies ->
      (forall values, linewidths = Some values ->
         length values = length frequencies) ->
      partitions (length frequencies) irRepData ->
      exists (frequenciesNew intensitiesNew : list F)
             (linewidthsNew : option (list F)),
        GroupForPeakTable frequencies intensities irRepData linewidths
        = Ok (frequenciesNew, intensitiesNew, irRepData.*1, linewidthsNew)
        /\ length frequenciesNew = length irRepData
        /\ length intensitiesNew = length irRepData
        /\ (forall (k : nat) (symbol : string) (bandIndices : list Z),
              irRepData !! k = Some (symbol, bandIndices) ->
              frequenciesNew !! k
              = Some (match bandIndices with
                      | [band] => mode_value frequencies band
                      | _ => np_average (map (mode_value frequencies) bandIndices)
                      end)
              /\ intensitiesNew !! k
                 = Some (match bandIndices with
                         | [band] => mode_value intensities band
                         | _ => np_sum (map (mode_value intensities) bandIndices)
                         end)
              /\ (forall values, linewidths = Some values ->
                    exists new, linewidthsNew = Some new
                      /\ length new = length irRepData
                      /\ new !! k
                         = Some (match bandIndices with
                                 | [band] => mode_value values band
                                 | _ => np_average
                                          (map (mode_value values) bandIndices)
                                 end))
              /\ Forall (fun index =>
                           frequencies !! Z.to_nat (index - 1)
                           = Some (mode_value frequencies index)
                           /\ intensities !! Z.to_nat (index - 1)
                              = Some (mode_value intensities index)
                           /\ forall values, linewidths = Some values ->
                                values !! Z.to_nat (index - 1)
                                = Some (mode_value values index))
                   bandIndices))
  /\ (forall values : list R,
        np_sum values = fold_right Rplus 0%R values
        /\ np_average values
           = (fold_right Rplus 0 values / INR (length values))%R).
Proof.
  split; [| intros values; split; [apply np_sum_R | apply np_average_R]].
  intros F N frequencies intensities irRepData linewidths
    Hintensities Hlinewidths Hpartition.
  eexists _, _, _. split; [now apply GroupForPeakTable_partition |].
  rewrite !length_map. split; [reflexivity |]. split; [reflexivity |].
  intros k symbol bandIndices Hk.
  rewrite !lookup_map, Hk. cbn.
  split; [reflexivity |]. split; [reflexivity |]. split.
  - intros values ->. cbn. eexists. split; [reflexivity |].
    rewrite length_map, lookup_map, Hk. split; reflexivity.
  - pose proof (partitions_in_range _ _ Hpartition) as Hrange.
    rewrite Forall_forall in Hrange. apply Forall_forall. intros index Hindex.
    assert (in_range (length frequencies) index) as Hin.
    { apply Hrange. apply (elem_of_band_indices _ symbol bandIndices);
        [| assumption]. now apply list_elem_of_lookup_2 in Hk. }
    assert (forall values : list F, length values = length frequencies ->
              values !! Z.to_nat (index - 1) = Some (mode_value values index))
      as Hread.
    { intros values Hlength. unfold in_range in Hin.
      destruct (lookup_lt_is_Some_2 values (Z.to_nat (index - 1))) as [a Ha];
        [lia |].
      unfold mode_value. now rewrite Ha. }
    repeat split; auto.
Qed.

Lemma sample_groups_partition : partitions 4 sample_groups.
Proof.
  split.
  - apply (bool_decide_unpack _). vm_compute. exact I.
  - intros index. cbn. rewrite !elem_of_cons, elem_of_nil. lia.
Qed.

Example GroupForPeakTable_sample :
  GroupForPeakTable [10%float; 20%float; 30%float; 40%float]
    [1%float; 2%float; 3%float; 4%float] sample_groups
    (Some [2%float; 4%float; 8%float; 16%float])
  = Ok ([10%float; 25%float; 40%float], [1%float; 5%float; 4%float],
        ["A"; "B"; "C"], Some [2%float; 6%float; 16%float]).
Proof. vm_compute. reflexivity. Qed.

Lemma GroupForPeakTable_reduction_witness :
  exists (frequenciesNew intensitiesNew : list R) (linewidthsNew : option (list R)),
    GroupForPeakTable [10%R; 20%R; 30%R; 40%R] [1%R; 2%R; 3%R; 4%R] sample_groups
      (Some [2%R; 4%R; 8%R; 16%R])
    = Ok (frequenciesNew, intensitiesNew, ["A"; "B"; "C"], linewidthsNew)
    /\ intensitiesNew !! 1%nat = Some (np_sum [2%R; 3%R]).
Proof.
  destruct (proj1 GroupForPeakTable_reduction R R_Number
              [10%R; 20%R; 30%R; 40%R] [1%R; 2%R; 3%R; 4%R] sample_groups
              (Some [2%R; 4%R; 8%R; 16%R]))
    as (frequenciesNew & intensitiesNew & linewidthsNew & Hcall & _ & _ & Hgroups).
  - reflexivity.
  - intros values [= <-]. reflexivity.
  - exact sample_groups_partition.
  - exists frequenciesNew, intensitiesNew, linewidthsNew.
    split; [exact Hcall |].
    exact (proj1 (proj2 (Hgroups 1%nat "B" [2; 3] eq_refl))).
Defined.

(** C4 as stated fails: the indices are examined one at a time, each for
    repetition and then for range, so an out-of-range index that comes before
    the repeated occurrence is reported instead of the repetition. *)
Lemma GroupForPeakTable_out_of_range_before_duplicate :
  ~ NoDup (band_indices [("A", [5; 1; 1])])
  /\ GroupForPeakTable [1%R; 2%R; 3%R] [1%R; 2%R; 3%R] [("A", [5; 1; 1])] None
     = Raise (BandIndexOutOfBounds 5 3).
Proof.
  split.
  - intros Hnodup. apply NoDup_cons in Hnodup as [_ Hnodup].
    apply NoDup_cons in Hnodup as [Hfresh _]. apply Hfresh. left.
  - reflexivity.
Qed.

(** A list with a repetition has a first repeated occurrence: an element
    equal to an earlier one, the elements before it being pairwise distinct. *)
Lemma first_repeated_occurrence (l : list Z) :
  ~ NoDup l ->
  exists (pre post : list Z) (index : Z),
    l = pre ++ index :: post /\ NoDup pre /\ index ∈ pre.
Proof.
  induction l as [| last l IH] using rev_ind; intros Hrepeat.
  - destruct Hrepeat. constructor.
  - destruct (decide (NoDup l)) as [Hnodup | Hearlier].
    + exists l, [], last. split; [reflexivity |]. split; [assumption |].
      destruct (decide (last ∈ l)) as [Hin | Hnotin]; [assumption |].
      destruct Hrepeat. apply NoDup_app. split; [assumption |].
      split; [| apply NoDup_singleton].
      intros x Hx Hlast. apply list_elem_of_singleton in Hlast as ->. auto.
    + destruct (IH Hearlier) as (pre & post & index & -> & Hpre & Hin).
      exists pre, (post ++ [last]), index.
      split; [now rewrite <- app_assoc | now split].
Qed.

(** C4, amended.  With consistent lengths:
    - if some band index occurs more than once (within one group or across
      groups), take the first occurrence that repeats an earlier index; if the
      indices before it are all within [1, N], the call raises the
      duplicate-band-index exception naming that index.  This does not depend
      on how many indices are referenced: the coverage test comes later;
    - if no index is repeated, every index is within [1, N] and fewer than N
      indices are referenced, the call raises the coverage exception. *)
Theorem GroupForPeakTable_index_errors :
  forall (F : Type) (N : Number F) (frequencies intensities : list F)
         (irRepData : list IrRepGroup) (linewidths : option (list F)),
    length intensities = length frequencies ->
    (forall values, linewidths = Some values -> length values = length frequencies) ->
    (~ NoDup (band_indices irRepData) ->
     exists (pre post : list Z) (index : Z),
       band_indices irRepData = pre ++ index :: post
       /\ NoDup pre /\ index ∈ pre
       /\ (Forall (in_range (length frequencies)) pre ->
           GroupForPeakTable frequencies intensities irRepData linewidths
           = Raise (DuplicateBandIndex index)))
    /\ (NoDup (band_indices irRepData) ->
        Forall (in_range (length frequencies)) (band_indices irRepData) ->
        (length (band_indices irRepData) < length frequencies)%nat ->
        GroupForPeakTable frequencies intensities irRepData linewidths
        = Raise (BandCountMismatch (length frequencies))).
Proof.
  intros F N frequencies intensities irRepData linewidths Hintensities Hlinewidths.
  split.
  - intros Hrepeat.
    destruct (first_repeated_occurrence _ Hrepeat)
      as (pre & post & index & Hsplit & Hpre & Hin).
    exists pre, post, index. repeat split; try assumption.
    intros Hrange. now apply (GroupForPeakTable_duplicate _ _ _ _ pre post).
  - now apply GroupForPeakTable_under_coverage.
Qed.

Lemma GroupForPeakTable_index_errors_witness :
  (exists index,
      GroupForPeakTable [1%R; 2%R; 3%R] [1%R; 2%R; 3%R]
        [("A", [1]); ("B", [1; 2])] None
      = Raise (DuplicateBandIndex index))
  /\ GroupForPeakTable [1%R; 2%R; 3%R] [1%R; 2%R; 3%R] [("A", [1]); ("B", [2])] None
     = Raise (BandCountMismatch 3).
Proof.
  split.
  - destruct (proj1 (GroupForPeakTable_index_errors R R_Number
                [1%R; 2%R; 3%R] [1%R; 2%R; 3%R] [("A", [1]); ("B", [1; 2])] None
                eq_refl ltac:(discriminate)))
      as (pre & post & index & Hsplit & Hpre & Hin & Hraise).
    + intros Hnodup. apply NoDup_cons in Hnodup as [Hfresh _].
      apply Hfresh. left.
    + exists index. apply Hraise.
      assert (Forall (in_range 3) (pre ++ index :: post)) as Hrange.
      { rewrite <- Hsplit. repeat constructor; unfold in_range; cbn; lia. }
      now apply Forall_app in Hrange as [Hrange _].
  - apply (proj2 (GroupForPeakTable_index_errors R R_Number
             [1%R; 2%R; 3%R] [1%R; 2%R; 3%R] [("A", [1]); ("B", [2])] None
             eq_refl ltac:(discriminate))).
    + apply (bool_decide_unpack _). vm_compute. exact I.
    + repeat constructor; unfold in_range; cbn; lia.
    + cbn. lia.
Defined.

Example GroupForPeakTable_duplicate_before_coverage :
  GroupForPeakTable [1%R; 2%R; 3%R] [1%R; 2%R; 3%R] [("A", [1; 1; 2])] None
  = Raise (DuplicateBandIndex 1).
Proof. reflexivity. Qed.

Section PeakTableLinewidths.
Context {F : Type} `{Number F}.

Lemma check_band_indices_Raise (numModes : nat) (l : list Z) (s : gset Z)
    (e : Exception) :
  check_band_indices numModes l s = Raise e ->
  exists index, e = DuplicateBandIndex index
                \/ e = BandIndexOutOfBounds index numModes.
Proof.
  revert s. induction l as [| index l IH]; intros s Hcheck; [discriminate |].
  cbn in Hcheck. case_bool_decide.
  - injection Hcheck as <-. eauto.
  - destruct ((index <? 1) || (index >? Z.of_nat numModes)).
    + injection Hcheck as <-. eauto.
    + eauto.
Qed.

(** A call that does not return raises one of the module's own exceptions,
    the linewidth one only for a linewidth list of the wrong length. *)
Lemma GroupForPeakTable_Raise (frequencies intensities : list F)
    (irRepData : list IrRepGroup) (linewidths : option (list F))
    (e : Exception) :
  GroupForPeakTable frequencies intensities irRepData linewidths = Raise e ->
  e = InconsistentLengths
  \/ (e = InconsistentLinewidths
      /\ exists values, linewidths = Some values
                        /\ length values <> length frequencies)
  \/ (exists index, e = DuplicateBandIndex index
                    \/ e = BandIndexOutOfBounds index (length frequencies))
  \/ e = BandCountMismatch (length frequencies).
Proof.
  unfold GroupForPeakTable. intros Hcall.
  destruct (Nat.eqb_spec (length intensities) (length frequencies))
    as [Hintensities | _]; cbn [negb] in Hcall;
    [| injection Hcall as <-; now left].
  right.
  destruct (match linewidths with
            | Some values => negb (length values =? length frequencies)%nat
            | None => false
            end) eqn:Hlinewidths.
  { injection Hcall as <-. left. split; [reflexivity |].
    destruct linewidths as [values |]; [| discriminate]. exists values.
    split; [reflexivity |].
    destruct (Nat.eqb_spec (length values) (length frequencies));
      [discriminate | assumption]. }
  right. rewrite check_groups_flat in Hcall.
  destruct (check_band_indices _ _ _) as [included | e'] eqn:Hcheck;
    cbn [mbind result_bind] in Hcall.
  - apply check_band_indices_Ok in Hcheck as (Hnodup & Hrange & _ & ->).
    destruct (negb _); [injection Hcall as <-; now right |].
    rewrite reduce_groups_in_range in Hcall; [discriminate | assumption | | assumption].
    intros values ->.
    destruct (Nat.eqb_spec (length values) (length frequencies));
      [assumption | discriminate].
  - injection Hcall as <-. left. now apply check_band_indices_Raise in Hcheck.
Qed.

End PeakTableLinewidths.

(** C10.  Without linewidths the call never raises the linewidth-length
    exception, and whenever it returns the fourth component is [None]; on
    well-formed arguments it does return.  With a linewidth list of length N,
    whenever the call returns the fourth component is a list with one entry
    per group, the k-th being the k-th group reduced by the frequency rule
    (the band's own linewidth for a group of one band, the mean of the
    members' linewidths otherwise); on well-formed arguments it does
    return.  Over the reals the mean is spelled out: the k-th entry of a
    group of several bands is the sum of the linewidths of its bands, each
    read from the input at its band index minus one, divided by their
    number. *)
Theorem GroupForPeakTable_linewidths :
  (forall (F : Type) (N : Number F) (frequencies intensities : list F)
          (irRepData : list IrRepGroup),
      GroupForPeakTable frequencies intensities irRepData None
        <> Raise InconsistentLinewidths
      /\ (forall out,
            GroupForPeakTable frequencies intensities irRepData None = Ok out ->
            out.2 = None)
      /\ (length intensities = length frequencies ->
          partitions (length frequencies) irRepData ->
          exists frequenciesNew intensitiesNew,
            GroupForPeakTable frequencies intensities irRepData None
            = Ok (frequenciesNew, intensitiesNew, irRepData.*1, None))
      /\ (forall linewidths : list F,
            length linewidths = length frequencies ->
            let reduced :=
              map (fun group : IrRepGroup =>
                     match group.2 with
                     | [band] => mode_value linewidths band
                     | _ => np_average (map (mode_value linewidths) group.2)
                     end) irRepData in
            length reduced = length irRepData
            /\ (forall out,
                  GroupForPeakTable frequencies intensities irRepData
                    (Some linewidths) = Ok out ->
                  out.2 = Some reduced)
            /\ (length intensities = length frequencies ->
                partitions (length frequencies) irRepData ->
                exists frequenciesNew intensitiesNew,
                  GroupForPeakTable frequencies intensities irRepData
                    (Some linewidths)
                  = Ok (frequenciesNew, intensitiesNew, irRepData.*1,
                        Some reduced))))
  /\ (forall (frequencies intensities linewidths : list R)
             (irRepData : list IrRepGroup),
        length intensities = length frequencies ->
        length linewidths = length frequencies ->
        partitions (length frequencies) irRepData ->
        exists (frequenciesNew intensitiesNew linewidthsNew : list R),
          GroupForPeakTable frequencies intensities irRepData (Some linewidths)
          = Ok (frequenciesNew, intensitiesNew, irRepData.*1, Some linewidthsNew)
          /\ length linewidthsNew = length irRepData
          /\ forall (k : nat) (symbol : string) (bandIndices : list Z),
               irRepData !! k = Some (symbol, bandIndices) ->
               exists members : list R,
                 Forall2 (fun index member =>
                            linewidths !! Z.to_nat (index - 1) = Some member)
                   bandIndices members
                 /\ linewidthsNew !! k
                    = Some (match members with
                            | [member] => member
                            | _ => (fold_right Rplus 0 members
                                    / INR (length members))%R
                            end)).
Proof.
  split.
  - intros F N frequencies intensities irRepData. split; [| split; [| split]].
    + intros Hcall. apply GroupForPeakTable_Raise in Hcall
        as [Hcall | [(_ & values & Hvalues & _) | [[index [Hcall | Hcall]] | Hcall]]];
        discriminate.
    + intros out Hcall.
      pose proof (GroupForPeakTable_Ok _ _ _ _ _ Hcall) as (H1 & H2 & H3).
      rewrite GroupForPeakTable_partition in Hcall by assumption.
      injection Hcall as <-. reflexivity.
    + intros Hintensities Hpartition. eexists _, _.
      rewrite GroupForPeakTable_partition; [reflexivity | assumption | | assumption].
      discriminate.
    + intros linewidths Hlength reduced. split; [apply length_map |]. split.
      * intros out Hcall.
        pose proof (GroupForPeakTable_Ok _ _ _ _ _ Hcall) as (H1 & H2 & H3).
        rewrite GroupForPeakTable_partition in Hcall by assumption.
        injection Hcall as <-. reflexivity.
      * intros Hintensities Hpartition. eexists _, _.
        rewrite GroupForPeakTable_partition; [reflexivity | assumption | | assumption].
        intros values [= <-]. assumption.
  - intros frequencies intensities linewidths irRepData
      Hintensities Hlinewidths Hpartition.
    eexists _, _, _. split.
    { rewrite GroupForPeakTable_partition; [reflexivity | assumption | | assumption].
      intros values [= <-]. assumption. }
    split; [apply length_map |].
    intros k symbol bandIndices Hk.
    exists (map (mode_value linewidths) bandIndices). split.
    + apply Forall2_fmap_r, Forall_Forall2_diag.
      pose proof (partitions_in_range _ _ Hpartition) as Hrange.
      rewrite Forall_forall in Hrange. apply Forall_forall. intros index Hindex.
      assert (in_range (length frequencies) index) as Hin.
      { apply Hrange. apply (elem_of_band_indices _ symbol bandIndices);
          [| assumption]. now apply list_elem_of_lookup_2 in Hk. }
      unfold in_range in Hin.
      destruct (lookup_lt_is_Some_2 linewidths (Z.to_nat (index - 1)))
        as [a Ha]; [lia |].
      unfold compose, mode_value. now rewrite Ha.
    + rewrite lookup_map, Hk. cbn [fmap option_fmap option_map snd].
      f_equal. unfold group_mean.
      destruct bandIndices as [| band [| band' rest]]; [| reflexivity |];
        rewrite np_average_R; reflexivity.
Qed.

Lemma GroupForPeakTable_linewidths_witness :
  (exists frequenciesNew intensitiesNew,
      GroupForPeakTable [10%R; 20%R; 30%R; 40%R] [1%R; 2%R; 3%R; 4%R]
        sample_groups None
      = Ok (frequenciesNew, intensitiesNew, ["A"; "B"; "C"], None))
  /\ (exists frequenciesNew intensitiesNew,
        GroupForPeakTable [10%R; 20%R; 30%R; 40%R] [1%R; 2%R; 3%R; 4%R]
          sample_groups (Some [2%R; 4%R; 8%R; 16%R])
        = Ok (frequenciesNew, intensitiesNew, ["A"; "B"; "C"],
              Some [2%R; np_average [4%R; 8%R]; 16%R]))
  /\ (exists frequenciesNew intensitiesNew linewidthsNew members,
        GroupForPeakTable [10%R; 20%R; 30%R; 40%R] [1%R; 2%R; 3%R; 4%R]
          sample_groups (Some [2%R; 4%R; 8%R; 16%R])
        = Ok (frequenciesNew, intensitiesNew, ["A"; "B"; "C"],
              Some linewidthsNew)
        /\ Forall2 (fun index member =>
                      [2%R; 4%R; 8%R; 16%R] !! Z.to_nat (index - 1)
                      = Some member) [2; 3] members
        /\ linewidthsNew !! 1%nat
           = Some (match members with
                   | [member] => member
                   | _ => (fold_right Rplus 0 members / INR (length members))%R
                   end)).
Proof.
  pose proof (proj1 GroupForPeakTable_linewidths R R_Number
                [10%R; 20%R; 30%R; 40%R] [1%R; 2%R; 3%R; 4%R] sample_groups)
    as (_ & _ & Homitted & Hsupplied).
  split; [| split].
  - exact (Homitted eq_refl sample_groups_partition).
  - exact (proj2 (proj2 (Hsupplied [2%R; 4%R; 8%R; 16%R] eq_refl))
             eq_refl sample_groups_partition).
  - destruct (proj2 GroupForPeakTable_linewidths
                [10%R; 20%R; 30%R; 40%R] [1%R; 2%R; 3%R; 4%R]
                [2%R; 4%R; 8%R; 16%R] sample_groups
                eq_refl eq_refl sample_groups_partition)
      as (frequenciesNew & intensitiesNew & linewidthsNew & Hcall & _ & Hgroups).
    destruct (Hgroups 1%nat "B" [2; 3] eq_refl) as (members & Hmembers & Hmean).
    exists frequenciesNew, intensitiesNew, linewidthsNew, members.
    split; [exact Hcall |]. split; [exact Hmembers | exact Hmean].
Defined.

(** * Coordinate transforms and eigendisplacements *)

Lemma mapM_Ok_map {A B : Type} (f : A -> result B) (g : A -> B) (l : list A) :
  Forall (fun a => f a = Ok (g a)) l -> mapM f l = Ok (map g l).
Proof.
  induction 1 as [| a l Ha _ IH]; [reflexivity |].
  cbn. rewrite Ha. cbn. now rewrite IH.
Qed.

Lemma py_index_lookup {A : Type} (l : list A) (i : nat) (a : A) :
  l !! i = Some a -> py_index l (Z.of_nat i) = Ok a.
Proof.
  intros Ha. pose proof (lookup_lt_Some _ _ _ Ha) as Hi.
  destruct (py_index_in_range l (Z.of_nat i)) as (a' & Ha' & ->); [lia |].
  rewrite Nat2Z.id in Ha'. congruence.
Qed.

(** C9.  For every 3x3 lattice matrix, whatever its nine entries (singular
    matrices included), and every sequence of three-component fractional
    positions, the call succeeds and returns one vector per position, in
    order: for the position (f1, f2, f3) the vector f1 v1 + f2 v2 + f3 v3,
    where v1, v2, v3 are the rows of the matrix.  Nothing is inverted and no
    exception is possible. *)
Theorem FractionalToCartesianCoordinates_linear_combination :
  forall (F : Type) (N : Number F)
         (a11 a12 a13 a21 a22 a23 a31 a32 a33 : F) (positions : list (list F)),
    Forall (fun position => length position = 3%nat) positions ->
    exists cartesian : list (list F),
      FractionalToCartesianCoordinates positions
        [[a11; a12; a13]; [a21; a22; a23]; [a31; a32; a33]]
      = Ok cartesian
      /\ length cartesian = length positions
      /\ forall (k : nat) (f1 f2 f3 : F),
           positions !! k = Some [f1; f2; f3] ->
           cartesian !! k
           = Some [add (add (mul f1 a11) (mul f2 a21)) (mul f3 a31);
                   add (add (mul f1 a12) (mul f2 a22)) (mul f3 a32);
                   add (add (mul f1 a13) (mul f2 a23)) (mul f3 a33)].
Proof.
  intros F N a11 a12 a13 a21 a22 a23 a31 a32 a33 positions Hshape.
  set (combine := fun position : list F =>
         match position with
         | [f1; f2; f3] =>
             [add (add (mul f1 a11) (mul f2 a21)) (mul f3 a31);
              add (add (mul f1 a12) (mul f2 a22)) (mul f3 a32);
              add (add (mul f1 a13) (mul f2 a23)) (mul f3 a33)]
         | _ => []
         end).
  exists (map combine positions). split; [| split].
  - unfold FractionalToCartesianCoordinates. cbn.
    apply mapM_Ok_map. eapply Forall_impl; [exact Hshape |].
    intros [| f1 [| f2 [| f3 [| f4 rest]]]] Hlength; try discriminate Hlength.
    reflexivity.
  - apply length_map.
  - intros k f1 f2 f3 Hk. now rewrite lookup_map, Hk.
Qed.

Lemma FractionalToCartesianCoordinates_linear_combination_witness :
  exists cartesian : list (list R),
    FractionalToCartesianCoordinates [[1%R; 2%R; 3%R]]
      [[1%R; 2%R; 3%R]; [2%R; 4%R; 6%R]; [0%R; 0%R; 0%R]]
    = Ok cartesian
    /\ cartesian !! 0%nat
       = Some [(1 * 1 + 2 * 2 + 3 * 0)%R; (1 * 2 + 2 * 4 + 3 * 0)%R;
               (1 * 3 + 2 * 6 + 3 * 0)%R].
Proof.
  destruct (FractionalToCartesianCoordinates_linear_combination R R_Number
              1%R 2%R 3%R 2%R 4%R 6%R 0%R 0%R 0%R [[1%R; 2%R; 3%R]])
    as (cartesian & Hcall & _ & Hrows).
  - repeat constructor.
  - exists cartesian. split; [exact Hcall |].
    exact (Hrows 0%nat 1%R 2%R 3%R eq_refl).
Defined.

Example FractionalToCartesianCoordinates_singular_float :
  FractionalToCartesianCoordinates [[1%float; 2%float; 3%float]]
    [[1%float; 2%float; 3%float]; [2%float; 4%float; 6%float];
     [0%float; 0%float; 0%float]]
  = Ok [[5%float; 10%float; 15%float]].
Proof. vm_compute. reflexivity. Qed.

Lemma for_each_seq_invariant {S : Type} (Inv : nat -> S -> Prop)
    (body : nat -> S -> result S) (count start : nat) (s : S) :
  Inv start s ->
  (forall k s, (start <= k < start + count)%nat -> Inv k s ->
     exists s', body k s = Ok s' /\ Inv (Datatypes.S k) s') ->
  exists s', for_each (seq start count) body s = Ok s'
             /\ Inv (start + count)%nat s'.
Proof.
  revert start s. induction count as [| count IH]; intros start s Hstart Hstep.
  - exists s. rewrite Nat.add_0_r. now split.
  - destruct (Hstep start s) as (s1 & Hbody & Hs1); [lia | assumption |].
    destruct (IH (Datatypes.S start) s1) as (s' & Hrest & Hs'); [assumption | |].
    + intros k s2 Hk. apply Hstep. lia.
    + exists s'. cbn. rewrite Hbody. cbn. split; [exact Hrest |].
      now replace (start + Datatypes.S count)%nat
        with (Datatypes.S start + count)%nat by lia.
Qed.

Lemma for_range_invariant {S : Type} (Inv : nat -> S -> Prop)
    (body : nat -> S -> result S) (n : nat) (s : S) :
  Inv 0%nat s ->
  (forall k s, (k < n)%nat -> Inv k s ->
     exists s', body k s = Ok s' /\ Inv (Datatypes.S k) s') ->
  exists s', for_range n body s = Ok s' /\ Inv n s'.
Proof.
  intros Hstart Hstep. unfold for_range.
  apply (for_each_seq_invariant Inv body n 0 s Hstart).
  intros k s0 Hk. apply Hstep. lia.
Qed.

Section EigendisplacementLoops.
Context {F : Type} `{Number F}.

Lemma alter_insert_same {A : Type} (f : A -> A) (l : list A) (i : nat) (x : A) :
  alter f i (<[i := x]> l) = <[i := f x]> l.
Proof.
  apply list_eq. intros k. destruct (decide (i = k)) as [<- | Hne].
  - rewrite list_lookup_alter_eq.
    destruct (decide (i < length l)%nat) as [Hlt | Hge].
    + now rewrite !list_lookup_insert_eq.
    + rewrite !list_insert_ge by lia. now rewrite (lookup_ge_None_2 l i) by lia.
  - rewrite list_lookup_alter_ne, !list_lookup_insert_ne by assumption.
    reflexivity.
Qed.

Lemma broadcast3_three (v : list F) :
  length v = 3%nat -> broadcast3 v = Ok v.
Proof.
  destruct v as [| x [| y [| z [| w rest]]]]; intros Hlength;
    try discriminate Hlength. reflexivity.
Qed.

Lemma scaled_mode_lookup (atomicMasses : list F) (mode : list (list F))
    (j : nat) (displacement : list F) (mass : F) :
  mode !! j = Some displacement -> atomicMasses !! j = Some mass ->
  scaled_mode atomicMasses mode !! j
  = Some (np_divide displacement (sqrt mass)).
Proof.
  intros Hdisplacement Hmass. unfold scaled_mode.
  rewrite lookup_zip_with, Hdisplacement. cbn. now rewrite Hmass.
Qed.

(** The inner loop over the atoms of mode [i] replaces plane [i] of the
    array by the scaled mode. *)
Lemma inner_loop (atomicMasses : list F) (mode : list (list F)) (i : nat)
    (a : list (list (list F))) (plane : list (list F)) :
  length mode = length atomicMasses ->
  Forall (fun v => length v = 3%nat) mode ->
  a !! i = Some plane -> length plane = length atomicMasses ->
  for_range (length atomicMasses)
    (fun j eigendisplacements =>
       displacement ← py_index mode (Z.of_nat j);
       sqrtMass ← py_index (map sqrt atomicMasses) (Z.of_nat j);
       slice ← broadcast3 (np_divide displacement sqrtMass);
       Ok (set_slice i j slice eigendisplacements)) a
  = Ok (<[i := scaled_mode atomicMasses mode]> a).
Proof.
  intros Hmode Hthree Hplane Hplane_length.
  set (target := scaled_mode atomicMasses mode).
  assert (length target = length atomicMasses) as Htarget_length.
  { unfold target, scaled_mode. rewrite length_zip_with. lia. }
  match goal with |- for_range ?n ?body ?s = _ =>
    destruct (for_range_invariant
      (fun j s => exists p, s = <[i := p]> a /\ length p = length atomicMasses
                            /\ forall j', (j' < j)%nat -> p !! j' = target !! j')
      body n s) as (a' & -> & p & -> & Hp_length & Hp)
  end.
  - exists plane. split; [now rewrite list_insert_id |]. split; [assumption |].
    intros j' Hj'. lia.
  - intros j s Hj (p & -> & Hp_length & Hp).
    destruct (lookup_lt_is_Some_2 mode j) as [displacement Hdisplacement]; [lia |].
    destruct (lookup_lt_is_Some_2 atomicMasses j) as [mass Hmass]; [lia |].
    rewrite (py_index_lookup _ _ _ Hdisplacement). cbn [mbind result_bind].
    rewrite (py_index_lookup _ j (sqrt mass)) by now rewrite lookup_map, Hmass.
    cbn [mbind result_bind].
    rewrite broadcast3_three.
    2:{ unfold np_divide. rewrite length_map.
        rewrite Forall_forall in Hthree. apply Hthree.
        now apply list_elem_of_lookup_2 in Hdisplacement. }
    cbn [mbind result_bind]. eexists. split; [reflexivity |].
    exists (<[j := np_divide displacement (sqrt mass)]> p).
    split; [unfold set_slice; apply alter_insert_same |].
    split; [now rewrite length_insert |].
    intros j' Hj'. destruct (decide (j = j')) as [<- | Hne].
    + rewrite list_lookup_insert_eq by lia.
      unfold target. now rewrite (scaled_mode_lookup _ _ _ _ _ Hdisplacement Hmass).
    + rewrite list_lookup_insert_ne by assumption. apply Hp. lia.
  - f_equal. f_equal. apply list_eq. intros j.
    destruct (decide (j < length atomicMasses)%nat) as [Hlt | Hge]; [now apply Hp |].
    now rewrite !lookup_ge_None_2 by lia.
Qed.

End EigendisplacementLoops.

Section EigendisplacementFacts.
Context {F : Type} `{Number F}.

(** The call on an eigenvector set of the documented shape, the number of
    atoms being read off the first mode as the code does. *)
Lemma EigenvectorsToEigendisplacements_scaled
    (eigenvectors : list (list (list F))) (atomicMasses : list F)
    (first : list (list F)) :
  eigenvectors !! 0%nat = Some first ->
  has_shape (3 * length first) (length first) eigenvectors ->
  length atomicMasses = length first ->
  EigenvectorsToEigendisplacements eigenvectors atomicMasses
  = Ok (map (scaled_mode atomicMasses) eigenvectors).
Proof.
  intros Hfirst [Hmodes Hshape] Hmasses.
  pose proof (lookup_lt_Some _ _ _ Hfirst) as Hnonempty.
  destruct (lookup_lt_is_Some_2 first 0) as [v0 Hv0]; [lia |].
  assert (length v0 = 3%nat) as Hv0_length.
  { rewrite Forall_forall in Hshape.
    destruct (Hshape first) as [_ Hthree];
      [now apply list_elem_of_lookup_2 in Hfirst |].
    rewrite Forall_forall in Hthree. apply Hthree.
    now apply list_elem_of_lookup_2 in Hv0. }
  unfold EigenvectorsToEigendisplacements.
  rewrite (py_index_lookup eigenvectors 0 first Hfirst
           : py_index eigenvectors 0 = Ok first).
  cbn [mbind result_bind].
  rewrite (py_index_lookup first 0 v0 Hv0 : py_index first 0 = Ok v0).
  cbn [mbind result_bind].
  rewrite Hmodes, Hv0_length, Hmasses, !Nat.eqb_refl. cbn [negb orb].
  rewrite <- Hmasses.
  set (target := map (scaled_mode atomicMasses) eigenvectors).
  set (zeros := replicate (length atomicMasses) (replicate 3 (zero : F))).
  match goal with |- for_range ?n ?body ?s = _ =>
    destruct (for_range_invariant
      (fun i a => length a = n
                  /\ (forall i', (i' < i)%nat -> a !! i' = target !! i')
                  /\ (forall i', (i <= i' < n)%nat -> a !! i' = Some zeros))
      body n s) as (a & -> & Ha_length & Ha & _)
  end.
  - unfold np_zeros3. rewrite length_replicate. split; [reflexivity |].
    split; [intros i' Hi'; lia |].
    intros i' Hi'. apply lookup_replicate_2. lia.
  - intros i a Hi (Ha_length & Hdone & Htodo).
    destruct (lookup_lt_is_Some_2 eigenvectors i) as [mode Hmode]; [lia |].
    rewrite (py_index_lookup _ _ _ Hmode). cbn [mbind result_bind].
    rewrite Forall_forall in Hshape.
    destruct (Hshape mode) as [Hmode_length Hthree];
      [now apply list_elem_of_lookup_2 in Hmode |].
    rewrite (inner_loop atomicMasses mode i a zeros);
      [| lia | assumption | apply Htodo; lia
       | unfold zeros; now rewrite length_replicate].
    eexists. split; [reflexivity |].
    split; [now rewrite length_insert |]. split.
    + intros i' Hi'. destruct (decide (i = i')) as [<- | Hne].
      * rewrite list_lookup_insert_eq by lia.
        unfold target. now rewrite lookup_map, Hmode.
      * rewrite list_lookup_insert_ne by assumption. apply Hdone. lia.
    + intros i' Hi'. rewrite list_lookup_insert_ne by lia. apply Htodo. lia.
  - f_equal. apply list_eq. intros i.
    destruct (decide (i < 3 * length atomicMasses)%nat) as [Hlt | Hge];
      [now apply Ha |].
    rewrite !lookup_ge_None_2; [reflexivity | | lia].
    unfold target. rewrite length_map. lia.
Qed.

Lemma scaled_mode_shape (atomicMasses : list F) (mode : list (list F)) :
  length mode = length atomicMasses ->
  Forall (fun v => length v = 3%nat) mode ->
  length (scaled_mode atomicMasses mode) = length atomicMasses
  /\ Forall (fun v => length v = 3%nat) (scaled_mode atomicMasses mode).
Proof.
  intros Hlength Hthree. unfold scaled_mode. split.
  - rewrite length_zip_with. lia.
  - apply Forall_forall. intros v Hv.
    apply list_elem_of_lookup in Hv as [j Hj].
    apply lookup_zip_with_Some in Hj as (displacement & mass & -> & Hd & _).
    rewrite length_map. rewrite Forall_forall in Hthree. apply Hthree.
    now apply list_elem_of_lookup_2 in Hd.
Qed.

End EigendisplacementFacts.

Lemma sqrt_4 : R_sqrt.sqrt 4 = 2%R.
Proof. replace 4%R with (2 * 2)%R by lra. apply sqrt_square. lra. Qed.

Example EigenvectorsToEigendisplacements_float :
  EigenvectorsToEigendisplacements
    [[[2%float; 0%float; 0%float]]; [[0%float; 2%float; 0%float]];
     [[0%float; 0%float; 2%float]]] [4%float]
  = Ok [[[1%float; 0%float; 0%float]]; [[0%float; 1%float; 0%float]];
        [[0%float; 0%float; 1%float]]].
Proof. vm_compute. reflexivity. Qed.

Example EigenvectorsToEigendisplacements_float_single_mode :
  EigenvectorsToEigendisplacements [[[2%float; 0%float; 0%float]]] [4%float]
  = Raise EigenvectorShape.
Proof. vm_compute. reflexivity. Qed.

(** C5 as stated fails: for one atom the call expects three modes, and the
    single mode [[2,0,0]] on its own is refused by the shape check. *)
Lemma EigenvectorsToEigendisplacements_single_mode_refused :
  EigenvectorsToEigendisplacements [[[2%R; 0%R; 0%R]]] [4%R]
  = Raise EigenvectorShape.
Proof. reflexivity. Qed.

(** C5, amended.  For one atom of mass 4: the call on the single mode
    [[2,0,0]] raises the shape exception; on a full set of three modes
    (shape 3 x 1 x 3) it returns, and wherever the mode [[2,0,0]] stands in
    the input, [[1,0,0]] stands in the output. *)
Theorem EigenvectorsToEigendisplacements_mass_four :
  EigenvectorsToEigendisplacements [[[2%R; 0%R; 0%R]]] [4%R]
  = Raise EigenvectorShape
  /\ forall (eigenvectors : list (list (list R))) (i : nat),
       has_shape 3 1 eigenvectors ->
       eigenvectors !! i = Some [[2%R; 0%R; 0%R]] ->
       exists out,
         EigenvectorsToEigendisplacements eigenvectors [4%R] = Ok out
         /\ out !! i = Some [[1%R; 0%R; 0%R]].
Proof.
  split; [reflexivity |].
  intros eigenvectors i Hshape Hi.
  destruct eigenvectors as [| first rest];
    [now rewrite lookup_nil in Hi |].
  assert (length first = 1%nat) as Hfirst.
  { destruct Hshape as [_ Hmodes]. now apply Forall_inv in Hmodes as [-> _]. }
  exists (map (scaled_mode [4%R]) (first :: rest)). split.
  - apply (EigenvectorsToEigendisplacements_scaled _ _ first);
      [reflexivity | now rewrite Hfirst | now rewrite Hfirst].
  - rewrite lookup_map, Hi. cbn. rewrite sqrt_4.
    do 3 f_equal; [lra |]. f_equal; [lra |]. f_equal. lra.
Qed.

Lemma EigenvectorsToEigendisplacements_mass_four_witness :
  exists out,
    EigenvectorsToEigendisplacements
      [[[0%R; 2%R; 0%R]]; [[2%R; 0%R; 0%R]]; [[0%R; 0%R; 2%R]]] [4%R] = Ok out
    /\ out !! 1%nat = Some [[1%R; 0%R; 0%R]].
Proof.
  apply (proj2 EigenvectorsToEigendisplacements_mass_four
           [[[0%R; 2%R; 0%R]]; [[2%R; 0%R; 0%R]]; [[0%R; 0%R; 2%R]]] 1%nat).
  - split; [reflexivity |]. repeat constructor.
  - reflexivity.
Defined.

(** C6 as stated fails for the empty eigenvector set: it meets the shape
    preconditions with an atom count of zero, but the number of atoms is read
    off the first mode, which does not exist. *)
Lemma EigenvectorsToEigendisplacements_empty_set :
  has_shape (3 * 0) 0 ([] : list (list (list R)))
  /\ length ([] : list R) = 0%nat
  /\ EigenvectorsToEigendisplacements ([] : list (list (list R))) []
     = Raise IndexError.
Proof. split; [split; [reflexivity | constructor] | split; reflexivity]. Qed.

(** C6, amended.  For every atom count N of at least one, every eigenvector
    set of shape 3N x N x 3 and every list of N masses, the call returns an
    array of the same shape 3N x N x 3 in which, for every mode i and atom j,
    entry [i][j] is the displacement [i][j] of the input with each component
    divided by the square root of mass j. *)
Theorem EigenvectorsToEigendisplacements_scaling :
  forall (F : Type) (N : Number F) (numAtoms : nat)
         (eigenvectors : list (list (list F))) (atomicMasses : list F),
    (0 < numAtoms)%nat ->
    has_shape (3 * numAtoms) numAtoms eigenvectors ->
    length atomicMasses = numAtoms ->
    exists out,
      EigenvectorsToEigendisplacements eigenvectors atomicMasses = Ok out
      /\ has_shape (3 * numAtoms) numAtoms out
      /\ forall (i j : nat) (mode : list (list F)) (displacement : list F)
                (mass : F),
           eigenvectors !! i = Some mode ->
           mode !! j = Some displacement ->
           atomicMasses !! j = Some mass ->
           exists plane,
             out !! i = Some plane
             /\ plane !! j = Some (map (fun c => div c (sqrt mass)) displacement).
Proof.
  intros F N numAtoms eigenvectors atomicMasses Hatoms Hshape Hmasses.
  pose proof Hshape as [Hmodes Hplanes].
  destruct eigenvectors as [| first rest]; [cbn in Hmodes; lia |].
  assert (length first = numAtoms) as Hfirst
    by (pose proof (Forall_inv Hplanes) as [Hlength _]; exact Hlength).
  exists (map (scaled_mode atomicMasses) (first :: rest)). split; [| split].
  - apply (EigenvectorsToEigendisplacements_scaled _ _ first);
      [reflexivity | now rewrite Hfirst | congruence].
  - split; [now rewrite length_map |].
    apply Forall_forall. intros plane Hplane.
    change (plane ∈ scaled_mode atomicMasses <$> first :: rest) in Hplane.
    apply list_elem_of_fmap in Hplane as (mode & -> & Hmode).
    rewrite Forall_forall in Hplanes. destruct (Hplanes mode Hmode) as [Hl Ht].
    rewrite <- Hmasses. apply scaled_mode_shape; [lia | assumption].
  - intros i j mode displacement mass Hi Hj Hmass.
    exists (scaled_mode atomicMasses mode). split.
    + now rewrite lookup_map, Hi.
    + apply (scaled_mode_lookup _ _ _ _ _ Hj Hmass).
Qed.

Lemma EigenvectorsToEigendisplacements_scaling_witness :
  exists out,
    EigenvectorsToEigendisplacements
      [[[3%R; 6%R; 9%R]]; [[1%R; 0%R; 0%R]]; [[0%R; 1%R; 0%R]]] [9%R] = Ok out
    /\ has_shape 3 1 out.
Proof.
  destruct (EigenvectorsToEigendisplacements_scaling R R_Number 1
              [[[3%R; 6%R; 9%R]]; [[1%R; 0%R; 0%R]]; [[0%R; 1%R; 0%R]]] [9%R])
    as (out & Hcall & Hshape & _).
  - lia.
  - split; [reflexivity |]. repeat constructor.
  - reflexivity.
  - exists out. split; assumption.
Defined.

(** * Further properties of the unit conversion *)

Lemma recognized_dec (key : string) : {recognized key} + {~ recognized key}.
Proof.
  destruct (decide (key = "thz")) as [-> | H1]; [left; now exists THz |].
  destruct (decide (key = "inv_cm")) as [-> | H2]; [left; now exists InvCm |].
  destruct (decide (key = "mev")) as [-> | H3]; [left; now exists MeV |].
  destruct (decide (key = "um")) as [-> | H4]; [left; now exists Um |].
  right. intros [u ->]. destruct u; cbn in *; congruence.
Qed.

(** X1.  When a conversion returns.  For keys of ASCII characters the call
    returns exactly when the lower-cased keys are equal, or both are among
    the four recognised ones and no division of the two-stage pipeline is by
    zero.  The values matter through the divisors only: between THz, inverse
    centimetres and meV a zero divisor can only be a zero constant. *)
Theorem ConvertFrequencyUnits_returns_iff :
  forall (F : Type) (N : Number F) (Constants : ConstantsModule F)
         (values : list F) (unitsFrom unitsTo : string),
    is_ascii unitsFrom -> is_ascii unitsTo ->
    ((exists out,
         ConvertFrequencyUnits Constants values unitsFrom unitsTo = Ok out)
     <-> (lower unitsFrom = lower unitsTo
          \/ exists a b, lower unitsFrom = unit_key a
                         /\ lower unitsTo = unit_key b
                         /\ pipeline_defined Constants a b values = true))
    /\ (forall a b, a <> Um -> b <> Um ->
          is_zero (THzToInvCm Constants) = false ->
          is_zero (THzToMeV Constants) = false ->
          pipeline_defined Constants a b values = true).
Proof.
  intros F N Constants values unitsFrom unitsTo _ _. split; [split |].
  - intros [out Hcall].
    destruct (decide (lower unitsFrom = lower unitsTo)) as [Hsame | Hne];
      [now left | right].
    destruct (recognized_dec (lower unitsFrom)) as [[a Ha] | Hfrom].
    + destruct (recognized_dec (lower unitsTo)) as [[b Hb] | Hto].
      * exists a, b. split; [assumption |]. split; [assumption |].
        rewrite (convert_recognized Constants values a b) in Hcall
          by (try assumption; congruence).
        now destruct (pipeline_defined Constants a b values).
      * rewrite (convert_unrecognized_target Constants values a) in Hcall
          by assumption.
        now destruct (to_pivot_defined Constants a values).
    + rewrite convert_unrecognized_source in Hcall by assumption. discriminate.
  - intros [Hsame | (a & b & Ha & Hb & Hdefined)].
    + exists Argument. now apply convert_same_key.
    + destruct (decide (a = b)) as [-> | Hne].
      * exists Argument. apply convert_same_key. congruence.
      * eexists. rewrite (convert_recognized Constants values a b) by assumption.
        now rewrite Hdefined.
  - intros a b Ha Hb HInvCm HMeV.
    unfold pipeline_defined, to_pivot_defined. rewrite forallb_map.
    apply andb_true_intro. split; apply forallb_forall; intros value _.
    + destruct a; cbn [to_pivot_divisor nonzero_divisor];
        [reflexivity | now rewrite HInvCm | now rewrite HMeV | congruence].
    + destruct b; cbn [from_pivot_divisor nonzero_divisor]; congruence.
Qed.

Lemma ConvertFrequencyUnits_returns_iff_witness :
  (exists out, ConvertFrequencyUnits sample_constants_float
                 [2%float; 0%float] "MeV" "um" = Ok out)
  <-> (lower "MeV" = lower "um"
       \/ exists a b, lower "MeV" = unit_key a /\ lower "um" = unit_key b
                      /\ pipeline_defined sample_constants_float a b
                           [2%float; 0%float] = true).
Proof.
  apply (proj1 (ConvertFrequencyUnits_returns_iff float float_Number
                  sample_constants_float [2%float; 0%float] "MeV" "um"
                  eq_refl eq_refl)).
Defined.

(** The values of the witness do not get through: zero meV is zero THz, and
    the reciprocal of zero raises. *)
Example ConvertFrequencyUnits_returns_iff_float :
  ConvertFrequencyUnits sample_constants_float [2%float; 0%float] "MeV" "um"
  = Raise ZeroDivisionError
  /\ pipeline_defined sample_constants_float MeV Um [2%float; 0%float] = false
  /\ pipeline_defined sample_constants_float MeV Um [2%float; 5%float] = true.
Proof. vm_compute. repeat split. Qed.

(** X2.  A conversion acts value by value: for given keys there is one
    function of a single value such that every call that returns yields the
    input list mapped through it, so the result has the length and order of
    the input and its k-th value depends on the k-th input value alone. *)
Theorem ConvertFrequencyUnits_pointwise :
  forall (F : Type) (N : Number F) (Constants : ConstantsModule F)
         (unitsFrom unitsTo : string),
    exists g : F -> F,
      forall (values : list F) (out : ListObject F),
        ConvertFrequencyUnits Constants values unitsFrom unitsTo = Ok out ->
        elements values out = map g values
        /\ length (elements values out) = length values.
Proof.
  intros F N Constants unitsFrom unitsTo.
  destruct (decide (lower unitsFrom = lower unitsTo)) as [Hsame | Hne].
  { exists (fun value => value). intros values out Hcall.
    rewrite convert_same_key in Hcall by assumption. injection Hcall as <-.
    cbn. now rewrite map_id. }
  destruct (recognized_dec (lower unitsFrom)) as [[a Ha] | Hfrom].
  - destruct (recognized_dec (lower unitsTo)) as [[b Hb] | Hto].
    + exists (fun value => from_pivot Constants b (to_pivot Constants a value)).
      intros values out Hcall.
      rewrite (convert_recognized Constants values a b) in Hcall
        by (auto; congruence).
      destruct (pipeline_defined Constants a b values); [| discriminate].
      injection Hcall as <-. unfold pipeline. cbn.
      rewrite map_map. split; [reflexivity | now rewrite length_map].
    + exists (fun value => value). intros values out Hcall.
      rewrite (convert_unrecognized_target Constants values a) in Hcall
        by assumption.
      now destruct (to_pivot_defined Constants a values).
  - exists (fun value => value). intros values out Hcall.
    rewrite convert_unrecognized_source in Hcall by assumption. discriminate.
Qed.

Section ThroughThz.
Context {F : Type} `{Number F} (Constants : ConstantsModule F).

Lemma pipeline_to_thz (a : Unit) (values : list F) :
  pipeline Constants a THz values = map (to_pivot Constants a) values.
Proof. unfold pipeline. cbn [from_pivot]. apply map_id. Qed.

Lemma pipeline_from_thz (b : Unit) (values : list F) :
  pipeline Constants THz b values = map (from_pivot Constants b) values.
Proof. unfold pipeline. cbn [to_pivot]. now rewrite map_id. Qed.

Lemma pipeline_defined_to_thz (a : Unit) (values : list F) :
  pipeline_defined Constants a THz values = to_pivot_defined Constants a values.
Proof.
  unfold pipeline_defined. cbn [from_pivot_divisor nonzero_divisor].
  now rewrite forallb_true, andb_true_r.
Qed.

Lemma pipeline_defined_from_thz (b : Unit) (values : list F) :
  pipeline_defined Constants THz b values
  = forallb (fun value => nonzero_divisor (from_pivot_divisor Constants b value))
      values.
Proof.
  unfold pipeline_defined, to_pivot_defined.
  cbn [to_pivot_divisor nonzero_divisor to_pivot].
  now rewrite forallb_true, map_id.
Qed.

End ThroughThz.

(** X3.  A conversion between two distinct units is, in any arithmetic, the
    conversion to THz followed by the conversion from THz, outcome for
    outcome: if the first of the two calls raises, the direct call raises the
    same exception; if the first returns and the second raises, the direct
    call raises that exception; and if both return, the direct call returns a
    new list of the same values. *)
Theorem ConvertFrequencyUnits_through_thz :
  forall (F : Type) (N : Number F) (Constants : ConstantsModule F)
         (values : list F) (a b : Unit),
    a <> b ->
    let direct :=
      ConvertFrequencyUnits Constants values (unit_key a) (unit_key b) in
    match ConvertFrequencyUnits Constants values (unit_key a) "thz" with
    | Raise e => direct = Raise e
    | Ok toThz =>
        match ConvertFrequencyUnits Constants (elements values toThz)
                "thz" (unit_key b) with
        | Raise e => direct = Raise e
        | Ok fromThz =>
            direct = Ok (Built (elements (elements values toThz) fromThz))
        end
    end.
Proof.
  intros F N Constants values a b Hne direct. unfold direct.
  assert (forall u, lower (unit_key u) = unit_key u) as Hlower
    by (intros u; now destruct u).
  rewrite (convert_recognized Constants values a b (unit_key a) (unit_key b))
    by auto.
  destruct (decide (a = THz)) as [-> | Ha].
  - rewrite (convert_same_key Constants values "thz" "thz") by reflexivity.
    cbn [elements].
    rewrite (convert_recognized Constants values THz b "thz" (unit_key b))
      by auto.
    destruct (pipeline_defined Constants THz b values); reflexivity.
  - rewrite (convert_recognized Constants values a THz (unit_key a) "thz")
      by auto.
    rewrite pipeline_defined_to_thz, pipeline_to_thz.
    unfold pipeline_defined.
    destruct (to_pivot_defined Constants a values); cbn [andb];
      [| reflexivity].
    cbn [elements]. unfold pipeline.
    destruct (decide (b = THz)) as [-> | Hb].
    + rewrite (convert_same_key Constants _ "thz" (unit_key THz))
        by reflexivity.
      cbn [from_pivot_divisor nonzero_divisor]. rewrite forallb_true.
      cbn [elements from_pivot]. now rewrite map_id.
    + rewrite (convert_recognized Constants _ THz b "thz" (unit_key b)) by auto.
      rewrite pipeline_defined_from_thz, pipeline_from_thz.
      destruct (forallb _ _); reflexivity.
Qed.

Lemma ConvertFrequencyUnits_through_thz_witness :
  ConvertFrequencyUnits sample_constants_float [2%float; 5%float] "mev" "um"
  = Ok (Built (elements
                 (elements [2%float; 5%float]
                    (Built (map (to_pivot sample_constants_float MeV)
                                [2%float; 5%float])))
                 (Built (map (from_pivot sample_constants_float Um)
                             (map (to_pivot sample_constants_float MeV)
                                  [2%float; 5%float])))))
  /\ ConvertFrequencyUnits sample_constants_float [2%float; 0%float] "mev" "um"
     = Raise ZeroDivisionError.
Proof.
  split.
  - apply (ConvertFrequencyUnits_through_thz float float_Number
             sample_constants_float [2%float; 5%float] MeV Um).
    discriminate.
  - apply (ConvertFrequencyUnits_through_thz float float_Number
             sample_constants_float [2%float; 0%float] MeV Um).
    discriminate.
Defined.

(** X4.  Wavelength and frequency are converted by one and the same map:
    in any arithmetic THz to micrometres and micrometres to THz give the
    same values; over the reals, with a non-zero constant, applying that
    conversion twice to non-zero values returns them. *)
Theorem ConvertFrequencyUnits_um_self_inverse :
  (forall (F : Type) (N : Number F) (Constants : ConstantsModule F)
          (values : list F),
      ConvertFrequencyUnits Constants values "thz" "um"
      = ConvertFrequencyUnits Constants values "um" "thz")
  /\ (forall (Constants : ConstantsModule R) (values : list R),
        THzToInvUm Constants <> 0%R ->
        Forall (fun value => value <> 0%R) values ->
        exists once twice,
          ConvertFrequencyUnits Constants values "thz" "um" = Ok once
          /\ ConvertFrequencyUnits Constants (elements values once) "thz" "um"
             = Ok twice
          /\ elements (elements values once) twice = values).
Proof.
  split.
  - intros F N Constants values.
    rewrite (convert_recognized Constants values THz Um "thz" "um") by easy.
    rewrite (convert_recognized Constants values Um THz "um" "thz") by easy.
    rewrite pipeline_defined_from_thz, pipeline_from_thz.
    rewrite pipeline_defined_to_thz, pipeline_to_thz.
    reflexivity.
  - intros Constants values Hconstant Hvalues.
    assert (forall l : list R,
              Forall (fun value => value <> 0%R) l ->
              ConvertFrequencyUnits Constants l "thz" "um"
              = Ok (Built (map (from_pivot Constants Um) l))) as Hcall.
    { intros l Hl.
      rewrite (convert_recognized Constants l THz Um "thz" "um") by easy.
      rewrite pipeline_defined_from_thz, pipeline_from_thz.
      replace (forallb _ l) with true; [reflexivity |].
      symmetry. apply forallb_forall. intros value Hvalue.
      cbn [from_pivot_divisor nonzero_divisor].
      apply negb_true_iff, is_zero_R.
      apply Rmult_integral_contrapositive_currified; [| assumption].
      rewrite Forall_forall in Hl. apply Hl. now apply list_elem_of_In. }
    exists (Built (map (from_pivot Constants Um) values)),
           (Built (map (from_pivot Constants Um)
                       (map (from_pivot Constants Um) values))).
    split; [now apply Hcall |].
    split.
    { apply Hcall. cbn [elements].
      induction Hvalues as [| value rest Hvalue _ IH]; constructor; [| exact IH].
      cbn. unfold Rdiv. rewrite Rmult_1_l. apply Rinv_neq_0_compat.
      now apply Rmult_integral_contrapositive_currified. }
    cbn [elements]. rewrite map_map.
    induction Hvalues as [| value rest Hvalue _ IH]; [reflexivity |].
    cbn [map]. rewrite IH. f_equal. cbn. now field.
Qed.

Lemma ConvertFrequencyUnits_um_self_inverse_witness :
  exists once twice,
    ConvertFrequencyUnits sample_constants [3%R; 10%R] "thz" "um" = Ok once
    /\ ConvertFrequencyUnits sample_constants (elements [3%R; 10%R] once)
         "thz" "um" = Ok twice
    /\ elements (elements [3%R; 10%R] once) twice = [3%R; 10%R].
Proof.
  apply (proj2 ConvertFrequencyUnits_um_self_inverse sample_constants).
  - cbn. lra.
  - repeat constructor; lra.
Defined.

Section Monotonicity.
Variable Constants : ConstantsModule R.
Hypothesis InvCm_positive : (0 < THzToInvCm Constants)%R.
Hypothesis MeV_positive : (0 < THzToMeV Constants)%R.
Hypothesis InvUm_positive : (0 < THzToInvUm Constants)%R.

Lemma reciprocal_positive (x c : R) :
  (0 < x)%R -> (0 < c)%R -> (0 < 1 / (x * c))%R.
Proof.
  intros Hx Hc. unfold Rdiv. rewrite Rmult_1_l.
  apply Rinv_0_lt_compat. now apply Rmult_lt_0_compat.
Qed.

Lemma reciprocal_decreasing (x y c : R) :
  (0 < x)%R -> (x < y)%R -> (0 < c)%R -> (1 / (y * c) < 1 / (x * c))%R.
Proof.
  intros Hx Hxy Hc. unfold Rdiv. rewrite !Rmult_1_l.
  apply Rinv_lt_contravar.
  - apply Rmult_lt_0_compat; apply Rmult_lt_0_compat; lra.
  - now apply Rmult_lt_compat_r.
Qed.

Lemma quotient_positive (x c : R) : (0 < x)%R -> (0 < c)%R -> (0 < x / c)%R.
Proof. intros Hx Hc. now apply Rdiv_lt_0_compat. Qed.

Lemma quotient_increasing (x y c : R) :
  (x < y)%R -> (0 < c)%R -> (x / c < y / c)%R.
Proof.
  intros Hxy Hc. unfold Rdiv. apply Rmult_lt_compat_r; [| assumption].
  now apply Rinv_0_lt_compat.
Qed.

Lemma to_pivot_positive (u : Unit) (x : R) :
  (0 < x)%R -> (0 < to_pivot Constants u x)%R.
Proof.
  intros Hx. destruct u; cbn;
    auto using quotient_positive, reciprocal_positive.
Qed.

Lemma from_pivot_positive (u : Unit) (x : R) :
  (0 < x)%R -> (0 < from_pivot Constants u x)%R.
Proof.
  intros Hx. destruct u; cbn;
    auto using Rmult_lt_0_compat, reciprocal_positive.
Qed.

Lemma to_pivot_order (u : Unit) (x y : R) :
  (0 < x)%R -> (x < y)%R ->
  if decide (u = Um)
  then (to_pivot Constants u y < to_pivot Constants u x)%R
  else (to_pivot Constants u x < to_pivot Constants u y)%R.
Proof.
  intros Hx Hxy. destruct u; cbn; case_decide; try congruence;
    auto using quotient_increasing, reciprocal_decreasing.
Qed.

Lemma from_pivot_order (u : Unit) (x y : R) :
  (0 < x)%R -> (x < y)%R ->
  if decide (u = Um)
  then (from_pivot Constants u y < from_pivot Constants u x)%R
  else (from_pivot Constants u x < from_pivot Constants u y)%R.
Proof.
  intros Hx Hxy. destruct u; cbn; case_decide; try congruence;
    auto using Rmult_lt_compat_r, reciprocal_decreasing.
Qed.

(** The value-by-value map between two distinct units keeps the order of
    positive values when neither unit is the wavelength, and reverses it when
    one of them is. *)
Lemma conversion_order (a b : Unit) (x y : R) :
  a <> b -> (0 < x)%R -> (x < y)%R ->
  let g := fun value => from_pivot Constants b (to_pivot Constants a value) in
  if bool_decide (a = Um \/ b = Um) then (g y < g x)%R else (g x < g y)%R.
Proof.
  intros Hne Hx Hxy g. unfold g.
  pose proof (to_pivot_positive a x Hx) as Hpx.
  pose proof (to_pivot_order a x y Hx Hxy) as Hto.
  destruct (decide (a = Um)) as [-> | Ha].
  - rewrite bool_decide_eq_true_2 by now left.
    pose proof (to_pivot_positive Um y ltac:(lra)) as Hpy.
    pose proof (from_pivot_order b _ _ Hpy Hto) as Hfrom.
    destruct (decide (b = Um)) as [-> | Hb]; [congruence | exact Hfrom].
  - pose proof (from_pivot_order b _ _ Hpx Hto) as Hfrom.
    destruct (decide (b = Um)) as [-> | Hb].
    + rewrite bool_decide_eq_true_2 by now right. exact Hfrom.
    + rewrite bool_decide_eq_false_2 by tauto. exact Hfrom.
Qed.

End Monotonicity.

Lemma convert_Ok_cases {F : Type} `{Number F} (Constants : ConstantsModule F)
    (values : list F) (unitsFrom unitsTo : string) (out : ListObject F) :
  ConvertFrequencyUnits Constants values unitsFrom unitsTo = Ok out ->
  (lower unitsFrom = lower unitsTo /\ out = Argument)
  \/ (exists a b, lower unitsFrom = unit_key a /\ lower unitsTo = unit_key b
                  /\ a <> b /\ out = Built (pipeline Constants a b values)).
Proof.
  intros Hcall.
  destruct (decide (lower unitsFrom = lower unitsTo)) as [Hsame | Hne].
  { left. rewrite convert_same_key in Hcall by assumption.
    injection Hcall as <-. now split. }
  right.
  destruct (recognized_dec (lower unitsFrom)) as [[a Ha] | Hfrom].
  - destruct (recognized_dec (lower unitsTo)) as [[b Hb] | Hto].
    + assert (a <> b) as Hab by congruence.
      rewrite (convert_recognized Constants values a b) in Hcall by assumption.
      destruct (pipeline_defined Constants a b values); [| discriminate].
      injection Hcall as <-. now exists a, b.
    + rewrite (convert_unrecognized_target Constants values a) in Hcall
        by assumption.
      now destruct (to_pivot_defined Constants a values).
  - rewrite convert_unrecognized_source in Hcall by assumption. discriminate.
Qed.

(** The sample constants are positive, so conversions of positive values
    between distinct recognised units return. *)
Lemma sample_conversion_returns (values : list R) (a b : Unit)
    (unitsFrom unitsTo : string) :
  lower unitsFrom = unit_key a -> lower unitsTo = unit_key b -> a <> b ->
  Forall (fun value => (0 < value)%R) values ->
  ConvertFrequencyUnits sample_constants values unitsFrom unitsTo
  = Ok (Built (pipeline sample_constants a b values)).
Proof.
  intros Hfrom Hto Hne Hpositive.
  apply convert_recognized_R; try assumption; try (cbn; lra).
  eapply Forall_impl; [exact Hpositive |]. cbn. intros value Hvalue. lra.
Qed.

Lemma map_sorted_positive (g : R -> R) (related : R -> R -> Prop)
    (values : list R) :
  (forall x y, (0 < x)%R -> (x < y)%R -> related (g x) (g y)) ->
  Forall (fun value => (0 < value)%R) values ->
  StronglySorted Rlt values ->
  StronglySorted related (map g values).
Proof.
  intros Hg Hpositive Hsorted.
  induction Hsorted as [| value rest _ IH Hrest]; [constructor |].
  apply Forall_cons in Hpositive as [Hvalue Hpositive].
  cbn. constructor; [now apply IH |].
  apply Forall_forall. intros image Himage.
  change (image ∈ g <$> rest) in Himage.
  apply list_elem_of_fmap in Himage as (later & -> & Hlater).
  rewrite Forall_forall in Hrest. apply Hg; [assumption |]. now apply Hrest.
Qed.

(** X5.  Over the reals with positive constants, a conversion that returns
    maps positive values to positive values: no unit pair produces a zero or
    negative frequency from a positive one. *)
Theorem ConvertFrequencyUnits_positive :
  forall (Constants : ConstantsModule R) (values : list R)
         (unitsFrom unitsTo : string) (out : ListObject R),
    (0 < THzToInvCm Constants)%R ->
    (0 < THzToMeV Constants)%R ->
    (0 < THzToInvUm Constants)%R ->
    Forall (fun value => (0 < value)%R) values ->
    ConvertFrequencyUnits Constants values unitsFrom unitsTo = Ok out ->
    Forall (fun value => (0 < value)%R) (elements values out).
Proof.
  intros Constants values unitsFrom unitsTo out HInvCm HMeV HInvUm Hpositive Hcall.
  apply convert_Ok_cases in Hcall as [[_ ->] | (a & b & _ & _ & _ & ->)];
    [exact Hpositive |].
  cbn. unfold pipeline. rewrite map_map.
  apply Forall_forall. intros image Himage.
  change (image ∈ (fun value => from_pivot Constants b (to_pivot Constants a value))
                  <$> values) in Himage.
  apply list_elem_of_fmap in Himage as (value & -> & Hvalue).
  rewrite Forall_forall in Hpositive.
  apply from_pivot_positive; try assumption.
  apply to_pivot_positive; try assumption. now apply Hpositive.
Qed.

Lemma ConvertFrequencyUnits_positive_witness :
  Forall (fun value => (0 < value)%R)
    (elements [3%R; 10%R]
       (Built (pipeline sample_constants MeV Um [3%R; 10%R]))).
Proof.
  apply (ConvertFrequencyUnits_positive sample_constants [3%R; 10%R] "mev" "um").
  - cbn. lra.
  - cbn. lra.
  - cbn. lra.
  - repeat constructor; lra.
  - apply sample_conversion_returns;
      [reflexivity | reflexivity | discriminate | repeat constructor; lra].
Defined.

(** X6.  Over the reals with positive constants, on positive values in
    strictly increasing order: a conversion between two distinct units one
    of which is the wavelength returns them in strictly decreasing order
    (longer wavelength, lower frequency); every other conversion that
    returns keeps them strictly increasing. *)
Theorem ConvertFrequencyUnits_order :
  forall (Constants : ConstantsModule R) (values : list R) (a b : Unit)
         (unitsFrom unitsTo : string) (out : ListObject R),
    (0 < THzToInvCm Constants)%R ->
    (0 < THzToMeV Constants)%R ->
    (0 < THzToInvUm Constants)%R ->
    lower unitsFrom = unit_key a -> lower unitsTo = unit_key b ->
    Forall (fun value => (0 < value)%R) values ->
    StronglySorted Rlt values ->
    ConvertFrequencyUnits Constants values unitsFrom unitsTo = Ok out ->
    if bool_decide (a <> b /\ (a = Um \/ b = Um))
    then StronglySorted (fun x y => (y < x)%R) (elements values out)
    else StronglySorted Rlt (elements values out).
Proof.
  intros Constants values a b unitsFrom unitsTo out HInvCm HMeV HInvUm
    Ha Hb Hpositive Hsorted Hcall.
  destruct (decide (a = b)) as [-> | Hne].
  - rewrite convert_same_key in Hcall by congruence. injection Hcall as <-.
    rewrite bool_decide_eq_false_2 by tauto. exact Hsorted.
  - rewrite (convert_recognized Constants values a b) in Hcall by assumption.
    destruct (pipeline_defined Constants a b values); [| discriminate].
    injection Hcall as <-. cbn [elements]. unfold pipeline. rewrite map_map.
    pose proof (fun x y => conversion_order Constants HInvCm HMeV HInvUm a b x y Hne)
      as Horder. cbn zeta in Horder.
    destruct (decide (a = Um \/ b = Um)) as [Hum | Hnone].
    + rewrite bool_decide_eq_true_2 by tauto.
      apply map_sorted_positive; try assumption.
      intros x y Hx Hxy. specialize (Horder x y Hx Hxy).
      now rewrite bool_decide_eq_true_2 in Horder by assumption.
    + rewrite bool_decide_eq_false_2 by tauto.
      apply map_sorted_positive; try assumption.
      intros x y Hx Hxy. specialize (Horder x y Hx Hxy).
      now rewrite bool_decide_eq_false_2 in Horder by assumption.
Qed.

Lemma ConvertFrequencyUnits_order_witness :
  StronglySorted (fun x y => (y < x)%R)
    (elements [3%R; 10%R]
       (Built (pipeline sample_constants MeV Um [3%R; 10%R]))).
Proof.
  apply (ConvertFrequencyUnits_order sample_constants [3%R; 10%R] MeV Um
           "mev" "um").
  - cbn. lra.
  - cbn. lra.
  - cbn. lra.
  - reflexivity.
  - reflexivity.
  - repeat constructor; lra.
  - repeat constructor; lra.
  - apply sample_conversion_returns;
      [reflexivity | reflexivity | discriminate | repeat constructor; lra].
Defined.

(** * Unit labels *)

Example GetFrequencyUnitLabel_sample :
  GetFrequencyUnitLabel sample_labels "Inv_CM" = "cm^-1"
  /\ GetFrequencyUnitLabel sample_labels "GHz" = "GHz".
Proof. split; reflexivity. Qed.

(** X7.  The label is looked up under the lower-cased name, but the fallback
    is the name as the caller wrote it: two spellings of one name get the
    same label when the table knows the name, and each gets its own spelling
    back, letter case intact, when it does not. *)
Theorem GetFrequencyUnitLabel_spellings :
  forall (FrequencyUnitLabels : gmap string string) (units1 units2 : string),
    lower units1 = lower units2 ->
    (forall label, FrequencyUnitLabels !! lower units1 = Some label ->
       GetFrequencyUnitLabel FrequencyUnitLabels units1 = label
       /\ GetFrequencyUnitLabel FrequencyUnitLabels units2 = label)
    /\ (FrequencyUnitLabels !! lower units1 = None ->
        GetFrequencyUnitLabel FrequencyUnitLabels units1 = units1
        /\ GetFrequencyUnitLabel FrequencyUnitLabels units2 = units2).
Proof.
  intros FrequencyUnitLabels units1 units2 Hsame.
  unfold GetFrequencyUnitLabel. rewrite <- Hsame.
  split; [intros label Hlabel | intros Hlabel]; now rewrite Hlabel.
Qed.

Lemma GetFrequencyUnitLabel_spellings_witness :
  GetFrequencyUnitLabel sample_labels "ghz" = "ghz"
  /\ GetFrequencyUnitLabel sample_labels "GHz" = "GHz".
Proof.
  apply (proj2 (GetFrequencyUnitLabel_spellings sample_labels "ghz" "GHz"
                  eq_refl)).
  reflexivity.
Defined.

(** X8.  If the table has a label for each of the four recognised keys, then
    every unit name under which [ConvertFrequencyUnits] carries out a
    conversion between two different keys gets its label from the table,
    however it is capitalised; the fallback is never used for it. *)
Theorem GetFrequencyUnitLabel_of_converted_units :
  forall (F : Type) (N : Number F) (Constants : ConstantsModule F)
         (FrequencyUnitLabels : gmap string string)
         (values : list F) (unitsFrom unitsTo : string) (out : ListObject F),
    (forall u, is_Some (FrequencyUnitLabels !! unit_key u)) ->
    lower unitsFrom <> lower unitsTo ->
    ConvertFrequencyUnits Constants values unitsFrom unitsTo = Ok out ->
    FrequencyUnitLabels !! lower unitsFrom
    = Some (GetFrequencyUnitLabel FrequencyUnitLabels unitsFrom)
    /\ FrequencyUnitLabels !! lower unitsTo
       = Some (GetFrequencyUnitLabel FrequencyUnitLabels unitsTo).
Proof.
  intros F N Constants FrequencyUnitLabels values unitsFrom unitsTo out
    Hlabels Hne Hcall.
  apply convert_Ok_cases in Hcall as [[Hsame _] | (a & b & Ha & Hb & _ & _)];
    [contradiction |].
  unfold GetFrequencyUnitLabel. rewrite Ha, Hb.
  destruct (Hlabels a) as [la Hla]. destruct (Hlabels b) as [lb Hlb].
  now rewrite Hla, Hlb.
Qed.

Lemma GetFrequencyUnitLabel_of_converted_units_witness :
  sample_labels !! lower "MeV" = Some (GetFrequencyUnitLabel sample_labels "MeV")
  /\ sample_labels !! lower "UM" = Some (GetFrequencyUnitLabel sample_labels "UM").
Proof.
  apply (GetFrequencyUnitLabel_of_converted_units R R_Number sample_constants
           sample_labels [1%R] "MeV" "UM"
           (Built (pipeline sample_constants MeV Um [1%R]))).
  - intros u. destruct u; eexists; reflexivity.
  - discriminate.
  - apply sample_conversion_returns;
      [reflexivity | reflexivity | discriminate | repeat constructor; lra].
Defined.

(** * Further properties of the peak-table grouping *)

(** X9.  The call returns exactly on consistent lengths and groups that
    partition the mode numbers [1..N]: no other input gets a table, and every
    such input does. *)
Theorem GroupForPeakTable_returns_iff :
  forall (F : Type) (N : Number F) (frequencies intensities : list F)
         (irRepData : list IrRepGroup) (linewidths : option (list F)),
    (exists out,
        GroupForPeakTable frequencies intensities irRepData linewidths = Ok out)
    <-> (length intensities = length frequencies
         /\ (forall values, linewidths = Some values ->
               length values = length frequencies)
         /\ partitions (length frequencies) irRepData).
Proof.
  intros F N frequencies intensities irRepData linewidths. split.
  - intros [out Hcall]. exact (GroupForPeakTable_Ok _ _ _ _ _ Hcall).
  - intros (Hintensities & Hlinewidths & Hpartition).
    eexists. now apply GroupForPeakTable_partition.
Qed.

Section PeakTableOrderOfChecks.
Context {F : Type} `{Number F}.

Lemma check_band_indices_out_of_bounds (numModes : nat) (pre post : list Z)
    (index : Z) :
  NoDup pre -> Forall (in_range numModes) pre -> index ∉ pre ->
  ~ in_range numModes index ->
  check_band_indices numModes (pre ++ index :: post) ∅
  = Raise (BandIndexOutOfBounds index numModes).
Proof.
  intros Hnodup Hrange Hfresh Hout. rewrite check_band_indices_app.
  rewrite check_band_indices_accepts by (auto; set_solver).
  cbn. rewrite bool_decide_eq_false_2 by set_solver.
  unfold in_range in Hout.
  destruct (Z.ltb_spec index 1) as [Hlow | Hlow]; [reflexivity |].
  destruct (Z.gtb_spec index (Z.of_nat numModes)) as [Hhigh | Hhigh];
    [reflexivity | lia].
Qed.

Lemma lengths_accepted (frequencies intensities : list F)
    (linewidths : option (list F)) :
  length intensities = length frequencies ->
  (forall values, linewidths = Some values -> length values = length frequencies) ->
  negb (length intensities =? length frequencies)%nat = false
  /\ match linewidths with
     | Some values => negb (length values =? length frequencies)%nat
     | None => false
     end = false.
Proof.
  intros Hintensities Hlinewidths. rewrite Hintensities, Nat.eqb_refl.
  split; [reflexivity |].
  destruct linewidths as [values |]; [| reflexivity].
  now rewrite (Hlinewidths values eq_refl), Nat.eqb_refl.
Qed.

End PeakTableOrderOfChecks.

(** X10.  With consistent lengths, the first band index (in the order of
    [irRepData]) that is outside [1, N], all indices before it being distinct
    and within [1, N], makes the call raise the out-of-bounds exception
    naming that index and N; this includes the index 0 of a zero-based
    numbering and negative indices, which are never read as Python indices
    from the end. *)
Theorem GroupForPeakTable_out_of_bounds :
  forall (F : Type) (N : Number F) (frequencies intensities : list F)
         (irRepData : list IrRepGroup) (linewidths : option (list F))
         (pre post : list Z) (index : Z),
    length intensities = length frequencies ->
    (forall values, linewidths = Some values -> length values = length frequencies) ->
    band_indices irRepData = pre ++ index :: post ->
    NoDup pre -> Forall (in_range (length frequencies)) pre ->
    (index < 1 \/ Z.of_nat (length frequencies) < index) ->
    GroupForPeakTable frequencies intensities irRepData linewidths
    = Raise (BandIndexOutOfBounds index (length frequencies)).
Proof.
  intros F N frequencies intensities irRepData linewidths pre post index
    Hintensities Hlinewidths Hsplit Hnodup Hrange Hout.
  destruct (lengths_accepted _ _ _ Hintensities Hlinewidths) as [Hi Hl].
  unfold GroupForPeakTable. rewrite Hi, Hl, check_groups_flat, Hsplit.
  rewrite check_band_indices_out_of_bounds; try assumption; [reflexivity | |].
  - intros Hin. rewrite Forall_forall in Hrange. apply Hrange in Hin.
    unfold in_range in Hin. lia.
  - unfold in_range. lia.
Qed.

Lemma GroupForPeakTable_out_of_bounds_witness :
  GroupForPeakTable [1%R; 2%R; 3%R] [1%R; 2%R; 3%R]
    [("A", [1; 2]); ("B", [0])] None
  = Raise (BandIndexOutOfBounds 0 3).
Proof.
  apply (GroupForPeakTable_out_of_bounds R R_Number [1%R; 2%R; 3%R]
           [1%R; 2%R; 3%R] [("A", [1; 2]); ("B", [0])] None [1; 2] [] 0).
  - reflexivity.
  - discriminate.
  - reflexivity.
  - apply (bool_decide_unpack _). vm_compute. exact I.
  - repeat constructor; unfold in_range; cbn; lia.
  - left. lia.
Defined.

(** X11.  The last check, whose message speaks of more bands than modes,
    fires only when there are fewer: if the call raises that exception, the
    band indices are pairwise distinct, all within [1, N], and fewer than N
    of them are listed. *)
Theorem GroupForPeakTable_count_mismatch_means_fewer :
  forall (F : Type) (N : Number F) (frequencies intensities : list F)
         (irRepData : list IrRepGroup) (linewidths : option (list F))
         (numModes : nat),
    GroupForPeakTable frequencies intensities irRepData linewidths
    = Raise (BandCountMismatch numModes) ->
    numModes = length frequencies
    /\ NoDup (band_indices irRepData)
    /\ Forall (in_range (length frequencies)) (band_indices irRepData)
    /\ (length (band_indices irRepData) < length frequencies)%nat.
Proof.
  intros F N frequencies intensities irRepData linewidths numModes Hcall.
  unfold GroupForPeakTable in Hcall.
  destruct (Nat.eqb_spec (length intensities) (length frequencies))
    as [Hintensities | _]; cbn [negb] in Hcall; [| discriminate].
  destruct (match linewidths with
            | Some values => negb (length values =? length frequencies)%nat
            | None => false
            end) eqn:Hlinewidths; [discriminate |].
  rewrite check_groups_flat in Hcall.
  destruct (check_band_indices _ _ _) as [included | e] eqn:Hcheck;
    cbn [mbind result_bind] in Hcall.
  - apply check_band_indices_Ok in Hcheck as (Hnodup & Hrange & _ & ->).
    rewrite (left_id_L ∅ (∪)), size_list_to_set in Hcall by assumption.
    destruct (Nat.eqb_spec (length (band_indices irRepData)) (length frequencies))
      as [Hsame | Hdiffer]; cbn [negb] in Hcall.
    + rewrite reduce_groups_in_range in Hcall;
        [discriminate | assumption | | assumption].
      intros values ->.
      destruct (Nat.eqb_spec (length values) (length frequencies));
        [assumption | discriminate].
    + injection Hcall as <-. repeat split; try assumption.
      assert (band_indices irRepData ⊆+ seqZ 1 (Z.of_nat (length frequencies)))
        as Hsub.
      { apply NoDup_submseteq; [assumption |]. intros index Hindex.
        rewrite Forall_forall in Hrange. apply Hrange in Hindex.
        unfold in_range in Hindex. apply elem_of_seqZ. lia. }
      apply submseteq_length in Hsub. rewrite length_seqZ in Hsub. lia.
  - apply check_band_indices_Raise in Hcheck as [index [-> | ->]];
      discriminate Hcall.
Qed.

Lemma GroupForPeakTable_count_mismatch_means_fewer_witness :
  (length (band_indices [("A", [1%Z]); ("B", [2%Z])])
   < length [1%R; 2%R; 3%R])%nat.
Proof.
  apply (GroupForPeakTable_count_mismatch_means_fewer R R_Number
           [1%R; 2%R; 3%R] [1%R; 2%R; 3%R] [("A", [1]); ("B", [2])] None 3).
  reflexivity.
Defined.

(** X12.  The length checks come before any look at the groups: unequal
    numbers of frequencies and intensities raise the first length exception
    whatever the groups and linewidths are, and with equal numbers a
    linewidth list of another length (the empty list included) raises the
    second, whatever the groups are. *)
Theorem GroupForPeakTable_length_checks_first :
  forall (F : Type) (N : Number F) (frequencies intensities : list F)
         (irRepData : list IrRepGroup),
    (length intensities <> length frequencies ->
     forall linewidths,
       GroupForPeakTable frequencies intensities irRepData linewidths
       = Raise InconsistentLengths)
    /\ (length intensities = length frequencies ->
        forall linewidths : list F,
          length linewidths <> length frequencies ->
          GroupForPeakTable frequencies intensities irRepData (Some linewidths)
          = Raise InconsistentLinewidths).
Proof.
  intros F N frequencies intensities irRepData. split.
  - intros Hdiffer linewidths. unfold GroupForPeakTable.
    now destruct (Nat.eqb_spec (length intensities) (length frequencies)).
  - intros Hsame linewidths Hdiffer. unfold GroupForPeakTable.
    rewrite Hsame, Nat.eqb_refl. cbn [negb].
    now destruct (Nat.eqb_spec (length linewidths) (length frequencies)).
Qed.

Lemma GroupForPeakTable_length_checks_first_witness :
  GroupForPeakTable [1%R; 2%R] [1%R] [("A", [7; 7])] (Some [])
  = Raise InconsistentLengths
  /\ GroupForPeakTable [1%R; 2%R] [1%R; 2%R] [("A", [7; 7])] (Some [])
     = Raise InconsistentLinewidths.
Proof.
  split.
  - apply (proj1 (GroupForPeakTable_length_checks_first R R_Number
             [1%R; 2%R] [1%R] [("A", [7; 7])])).
    cbn. lia.
  - apply (proj2 (GroupForPeakTable_length_checks_first R R_Number
             [1%R; 2%R] [1%R; 2%R] [("A", [7; 7])]) eq_refl).
    cbn. lia.
Defined.

Section PeakTableRearrangements.
Context {F : Type} `{Number F}.

(** Reading the values of the modes [1..N] in order gives the list back. *)
Lemma map_mode_value_seqZ (values : list F) :
  map (mode_value values) (seqZ 1 (Z.of_nat (length values))) = values.
Proof.
  apply list_eq. intros k. rewrite lookup_map.
  destruct (decide (k < length values)%nat) as [Hlt | Hge].
  - rewrite lookup_seqZ_lt by lia. cbn. unfold mode_value.
    replace (Z.to_nat (1 + Z.of_nat k - 1)) with k by lia.
    destruct (lookup_lt_is_Some_2 values k Hlt) as [a Ha]. now rewrite Ha.
  - rewrite lookup_seqZ_ge by lia. cbn. now rewrite lookup_ge_None_2 by lia.
Qed.

Lemma partitions_Permutation (numModes : nat) (irRepData : list IrRepGroup) :
  partitions numModes irRepData ->
  band_indices irRepData ≡ₚ seqZ 1 (Z.of_nat numModes).
Proof.
  intros [Hnodup Hrange].
  apply NoDup_Permutation; [assumption | apply NoDup_seqZ |].
  intros index. rewrite Hrange, elem_of_seqZ. lia.
Qed.

(** The values of all listed modes, group after group, are a rearrangement
    of the input. *)
Lemma mode_values_Permutation (values : list F) (irRepData : list IrRepGroup) :
  partitions (length values) irRepData ->
  map (mode_value values) (band_indices irRepData) ≡ₚ values.
Proof.
  intros Hpartition.
  change (mode_value values <$> band_indices irRepData ≡ₚ values).
  rewrite (partitions_Permutation _ _ Hpartition).
  change (map (mode_value values) (seqZ 1 (Z.of_nat (length values))) ≡ₚ values).
  now rewrite map_mode_value_seqZ.
Qed.

Lemma singleton_groups_mean (values : list F) (irRepData : list IrRepGroup) :
  Forall (fun group : IrRepGroup => length group.2 = 1%nat) irRepData ->
  map (fun group : IrRepGroup => group_mean values group.2) irRepData
  = map (mode_value values) (band_indices irRepData)
  /\ map (fun group : IrRepGroup => group_sum values group.2) irRepData
     = map (mode_value values) (band_indices irRepData).
Proof.
  induction 1 as [| [symbol bandIndices] rest Hone _ [IHmean IHsum]];
    [now split |].
  destruct bandIndices as [| band [| band' others]]; try discriminate Hone.
  unfold band_indices in *. cbn. now rewrite IHmean, IHsum.
Qed.

End PeakTableRearrangements.

(** X13.  When every group names exactly one band, grouping only
    rearranges: on valid input the returned frequencies, intensities and
    linewidths are permutations of the input lists (no value is changed,
    lost or repeated), and if the bands are listed as 1, 2, ..., N the input
    lists come back as they are. *)
Theorem GroupForPeakTable_singletons :
  forall (F : Type) (N : Number F) (frequencies intensities : list F)
         (irRepData : list IrRepGroup) (linewidths : option (list F)),
    length intensities = length frequencies ->
    (forall values, linewidths = Some values -> length values = length frequencies) ->
    partitions (length frequencies) irRepData ->
    Forall (fun group : IrRepGroup => length group.2 = 1%nat) irRepData ->
    exists frequenciesNew intensitiesNew linewidthsNew,
      GroupForPeakTable frequencies intensities irRepData linewidths
      = Ok (frequenciesNew, intensitiesNew, irRepData.*1, linewidthsNew)
      /\ frequenciesNew ≡ₚ frequencies
      /\ intensitiesNew ≡ₚ intensities
      /\ (forall values, linewidths = Some values ->
            exists new, linewidthsNew = Some new /\ new ≡ₚ values)
      /\ (band_indices irRepData = seqZ 1 (Z.of_nat (length frequencies)) ->
          frequenciesNew = frequencies /\ intensitiesNew = intensities
          /\ linewidthsNew = linewidths).
Proof.
  intros F N frequencies intensities irRepData linewidths
    Hintensities Hlinewidths Hpartition Hsingle.
  eexists _, _, _. split; [now apply GroupForPeakTable_partition |].
  rewrite (proj1 (singleton_groups_mean frequencies irRepData Hsingle)).
  rewrite (proj2 (singleton_groups_mean intensities irRepData Hsingle)).
  split; [now apply mode_values_Permutation |].
  split; [apply mode_values_Permutation; now rewrite Hintensities |].
  split.
  - intros values ->. cbn. eexists. split; [reflexivity |].
    rewrite (proj1 (singleton_groups_mean values irRepData Hsingle)).
    apply mode_values_Permutation. now rewrite (Hlinewidths values eq_refl).
  - intros Hordered. rewrite Hordered.
    split; [apply map_mode_value_seqZ |]. split.
    + rewrite <- Hintensities. apply map_mode_value_seqZ.
    + destruct linewidths as [values |]; [| reflexivity]. cbn. f_equal.
      rewrite (proj1 (singleton_groups_mean values irRepData Hsingle)), Hordered.
      rewrite <- (Hlinewidths values eq_refl). apply map_mode_value_seqZ.
Qed.

Lemma GroupForPeakTable_singletons_witness :
  exists frequenciesNew intensitiesNew linewidthsNew,
    GroupForPeakTable [10%R; 20%R; 30%R] [1%R; 2%R; 3%R]
      [("A", [3]); ("B", [1]); ("C", [2])] None
    = Ok (frequenciesNew, intensitiesNew, ["A"; "B"; "C"], linewidthsNew)
    /\ frequenciesNew ≡ₚ [10%R; 20%R; 30%R].
Proof.
  destruct (GroupForPeakTable_singletons R R_Number [10%R; 20%R; 30%R]
              [1%R; 2%R; 3%R] [("A", [3]); ("B", [1]); ("C", [2])] None)
    as (frequenciesNew & intensitiesNew & linewidthsNew & Hcall & Hperm & _).
  - reflexivity.
  - discriminate.
  - split.
    + apply (bool_decide_unpack _). vm_compute. exact I.
    + intros index. cbn. rewrite !elem_of_cons, elem_of_nil. lia.
  - repeat constructor.
  - exists frequenciesNew, intensitiesNew, linewidthsNew. now split.
Defined.

(** ** Totals and means over the reals *)

Lemma total_app (l1 l2 : list R) :
  fold_right Rplus 0%R (l1 ++ l2)
  = (fold_right Rplus 0 l1 + fold_right Rplus 0 l2)%R.
Proof. induction l1 as [| x l1 IH]; cbn; [lra | rewrite IH; lra]. Qed.

Lemma total_Permutation (l1 l2 : list R) :
  l1 ≡ₚ l2 -> fold_right Rplus 0%R l1 = fold_right Rplus 0%R l2.
Proof.
  induction 1 as [| x l1 l2 _ IH | x y l | l1 l2 l3 _ IH1 _ IH2]; cbn.
  - reflexivity.
  - now rewrite IH.
  - lra.
  - now rewrite IH1.
Qed.

Lemma np_sum_Permutation (l1 l2 : list R) : l1 ≡ₚ l2 -> np_sum l1 = np_sum l2.
Proof. intros Hperm. rewrite !np_sum_R. now apply total_Permutation. Qed.

Lemma np_average_Permutation (l1 l2 : list R) :
  l1 ≡ₚ l2 -> np_average l1 = np_average l2.
Proof.
  intros Hperm. unfold np_average.
  now rewrite (np_sum_Permutation _ _ Hperm), (Permutation_length Hperm).
Qed.

Lemma group_sum_total (values : list R) (bandIndices : list Z) :
  group_sum values bandIndices
  = fold_right Rplus 0%R (map (mode_value values) bandIndices).
Proof.
  destruct bandIndices as [| band [| band' others]].
  - reflexivity.
  - cbn. lra.
  - unfold group_sum. apply np_sum_R.
Qed.

Lemma group_sums_total (values : list R) (irRepData : list IrRepGroup) :
  fold_right Rplus 0%R
    (map (fun group : IrRepGroup => group_sum values group.2) irRepData)
  = fold_right Rplus 0%R (map (mode_value values) (band_indices irRepData)).
Proof.
  induction irRepData as [| [symbol bandIndices] rest IH]; [reflexivity |].
  unfold band_indices in *. cbn [map fmap list_fmap concat fold_right snd].
  change (concat (bandIndices :: rest.*2)) with (bandIndices ++ concat rest.*2).
  rewrite map_app, total_app, IH, group_sum_total. reflexivity.
Qed.

(** X14.  Grouping conserves the total intensity: over the reals, on valid
    input, the returned intensities add up to the same total as the input
    intensities, however the modes are distributed over the groups. *)
Theorem GroupForPeakTable_total_intensity :
  forall (frequencies intensities : list R) (irRepData : list IrRepGroup)
         (linewidths : option (list R)),
    length intensities = length frequencies ->
    (forall values, linewidths = Some values -> length values = length frequencies) ->
    partitions (length frequencies) irRepData ->
    exists frequenciesNew intensitiesNew linewidthsNew,
      GroupForPeakTable frequencies intensities irRepData linewidths
      = Ok (frequenciesNew, intensitiesNew, irRepData.*1, linewidthsNew)
      /\ fold_right Rplus 0%R intensitiesNew = fold_right Rplus 0%R intensities.
Proof.
  intros frequencies intensities irRepData linewidths
    Hintensities Hlinewidths Hpartition.
  eexists _, _, _. split; [now apply GroupForPeakTable_partition |].
  rewrite group_sums_total. apply total_Permutation.
  apply mode_values_Permutation. now rewrite Hintensities.
Qed.

Lemma GroupForPeakTable_total_intensity_witness :
  exists frequenciesNew intensitiesNew linewidthsNew,
    GroupForPeakTable [10%R; 20%R; 30%R; 40%R] [1%R; 2%R; 3%R; 4%R]
      sample_groups None
    = Ok (frequenciesNew, intensitiesNew, ["A"; "B"; "C"], linewidthsNew)
    /\ fold_right Rplus 0%R intensitiesNew
       = fold_right Rplus 0%R [1%R; 2%R; 3%R; 4%R].
Proof.
  apply (GroupForPeakTable_total_intensity [10%R; 20%R; 30%R; 40%R]
           [1%R; 2%R; 3%R; 4%R] sample_groups None).
  - reflexivity.
  - discriminate.
  - exact sample_groups_partition.
Defined.

Lemma total_bounds (lo hi : R) (values : list R) :
  Forall (fun value => (lo <= value <= hi)%R) values ->
  (INR (length values) * lo <= fold_right Rplus 0 values
   <= INR (length values) * hi)%R.
Proof.
  induction 1 as [| value rest Hvalue _ IH].
  - cbn. lra.
  - cbn [length fold_right]. rewrite S_INR. lra.
Qed.

Lemma np_average_bounds (lo hi : R) (values : list R) :
  values <> [] ->
  Forall (fun value => (lo <= value <= hi)%R) values ->
  (lo <= np_average values <= hi)%R.
Proof.
  intros Hnonempty Hvalues. rewrite np_average_R.
  pose proof (total_bounds lo hi values Hvalues) as [Hlow Hhigh].
  assert (0 < INR (length values))%R as Hcount.
  { apply lt_0_INR. destruct values; [congruence | cbn; lia]. }
  split.
  - apply (Rmult_le_reg_r (INR (length values))); [assumption |].
    replace (fold_right Rplus 0 values / INR (length values)
             * INR (length values))%R
      with (fold_right Rplus 0%R values) by (field; lra).
    lra.
  - apply (Rmult_le_reg_r (INR (length values))); [assumption |].
    replace (fold_right Rplus 0 values / INR (length values)
             * INR (length values))%R
      with (fold_right Rplus 0%R values) by (field; lra).
    lra.
Qed.

Lemma mode_value_bounds (lo hi : R) (values : list R) (index : Z) :
  Forall (fun value => (lo <= value <= hi)%R) values ->
  in_range (length values) index ->
  (lo <= mode_value values index <= hi)%R.
Proof.
  intros Hvalues Hindex. unfold in_range in Hindex. unfold mode_value.
  destruct (lookup_lt_is_Some_2 values (Z.to_nat (index - 1))) as [a Ha];
    [lia |].
  rewrite Ha. cbn. rewrite Forall_forall in Hvalues. apply Hvalues.
  now apply list_elem_of_lookup_2 in Ha.
Qed.

Lemma group_means_bounds (lo hi : R) (values : list R)
    (irRepData : list IrRepGroup) :
  Forall (fun value => (lo <= value <= hi)%R) values ->
  Forall (in_range (length values)) (band_indices irRepData) ->
  Forall (fun group : IrRepGroup => group.2 <> []) irRepData ->
  Forall (fun value => (lo <= value <= hi)%R)
    (map (fun group : IrRepGroup => group_mean values group.2) irRepData).
Proof.
  intros Hvalues Hrange Hnonempty.
  induction Hnonempty as [| [symbol bandIndices] rest Hgroup _ IH];
    [constructor |].
  unfold band_indices in Hrange. cbn in Hrange.
  apply Forall_app in Hrange as [Hhere Hrest].
  cbn [map]. constructor; [| now apply IH].
  cbn [snd] in *.
  destruct bandIndices as [| band [| band' others]]; [congruence | |].
  - apply Forall_inv in Hhere. now apply mode_value_bounds.
  - unfold group_mean. apply np_average_bounds; [discriminate |].
    apply Forall_forall. intros image Himage.
    change (image ∈ mode_value values <$> band :: band' :: others) in Himage.
    apply list_elem_of_fmap in Himage as (index & -> & Hindex).
    rewrite Forall_forall in Hhere. apply mode_value_bounds; auto.
Qed.

(** X15.  Averaging never leaves the range of the data: over the reals, on
    valid input whose groups are all non-empty, if every input frequency
    lies between two bounds then so does every returned frequency, and
    likewise for the linewidths. *)
Theorem GroupForPeakTable_means_within_bounds :
  forall (frequencies intensities : list R) (irRepData : list IrRepGroup)
         (linewidths : option (list R)) (lo hi : R),
    length intensities = length frequencies ->
    (forall values, linewidths = Some values -> length values = length frequencies) ->
    partitions (length frequencies) irRepData ->
    Forall (fun group : IrRepGroup => group.2 <> []) irRepData ->
    exists frequenciesNew intensitiesNew linewidthsNew,
      GroupForPeakTable frequencies intensities irRepData linewidths
      = Ok (frequenciesNew, intensitiesNew, irRepData.*1, linewidthsNew)
      /\ (Forall (fun value => (lo <= value <= hi)%R) frequencies ->
          Forall (fun value => (lo <= value <= hi)%R) frequenciesNew)
      /\ (forall values, linewidths = Some values ->
            Forall (fun value => (lo <= value <= hi)%R) values ->
            exists new, linewidthsNew = Some new
                        /\ Forall (fun value => (lo <= value <= hi)%R) new).
Proof.
  intros frequencies intensities irRepData linewidths lo hi
    Hintensities Hlinewidths Hpartition Hnonempty.
  pose proof (partitions_in_range _ _ Hpartition) as Hrange.
  eexists _, _, _. split; [now apply GroupForPeakTable_partition |]. split.
  - intros Hbounds. now apply group_means_bounds.
  - intros values -> Hbounds. cbn. eexists. split; [reflexivity |].
    apply group_means_bounds; try assumption.
    now rewrite (Hlinewidths values eq_refl).
Qed.

Lemma GroupForPeakTable_means_within_bounds_witness :
  exists frequenciesNew intensitiesNew linewidthsNew,
    GroupForPeakTable [10%R; 20%R; 30%R; 40%R] [1%R; 2%R; 3%R; 4%R]
      sample_groups None
    = Ok (frequenciesNew, intensitiesNew, ["A"; "B"; "C"], linewidthsNew)
    /\ Forall (fun value => (10 <= value <= 40)%R) frequenciesNew.
Proof.
  destruct (GroupForPeakTable_means_within_bounds [10%R; 20%R; 30%R; 40%R]
              [1%R; 2%R; 3%R; 4%R] sample_groups None 10%R 40%R)
    as (frequenciesNew & intensitiesNew & linewidthsNew & Hcall & Hbounds & _).
  - reflexivity.
  - discriminate.
  - exact sample_groups_partition.
  - repeat constructor; discriminate.
  - exists frequenciesNew, intensitiesNew, linewidthsNew.
    split; [exact Hcall |]. apply Hbounds. repeat constructor; lra.
Defined.

Lemma group_mean_Permutation (values : list R) (g g' : list Z) :
  g ≡ₚ g' ->
  group_mean values g = group_mean values g'
  /\ group_sum values g = group_sum values g'.
Proof.
  intros Hperm. pose proof (Permutation_length Hperm) as Hlength.
  destruct g as [| band [| band' others]].
  - apply Permutation_nil_l in Hperm as ->. now split.
  - apply Permutation_singleton_l in Hperm as <-. now split.
  - destruct g' as [| c [| c' others']]; try discriminate Hlength.
    unfold group_mean, group_sum. split.
    + apply np_average_Permutation.
      change (mode_value values <$> band :: band' :: others
              ≡ₚ mode_value values <$> c :: c' :: others').
      now rewrite Hperm.
    + apply np_sum_Permutation.
      change (mode_value values <$> band :: band' :: others
              ≡ₚ mode_value values <$> c :: c' :: others').
      now rewrite Hperm.
Qed.

Lemma regrouped_same (values : list R) (irRepData irRepData' : list IrRepGroup) :
  Forall2 (fun group group' : IrRepGroup =>
             group.1 = group'.1 /\ group.2 ≡ₚ group'.2) irRepData irRepData' ->
  irRepData.*1 = irRepData'.*1
  /\ band_indices irRepData ≡ₚ band_indices irRepData'
  /\ map (fun group : IrRepGroup => group_mean values group.2) irRepData
     = map (fun group : IrRepGroup => group_mean values group.2) irRepData'
  /\ map (fun group : IrRepGroup => group_sum values group.2) irRepData
     = map (fun group : IrRepGroup => group_sum values group.2) irRepData'.
Proof.
  induction 1 as [| [s g] [s' g'] rest rest' [Hs Hg] _ (IH1 & IH2 & IH3 & IH4)];
    [now repeat split |].
  cbn in Hs, Hg. subst s'.
  destruct (group_mean_Permutation values g g' Hg) as [Hmean Hsum].
  unfold band_indices in *. cbn.
  rewrite IH1, IH3, IH4, Hmean, Hsum. repeat split; try reflexivity.
  now rewrite Hg, IH2.
Qed.

(** X16.  In exact arithmetic the order in which a group lists its bands
    does not matter: over the reals, on valid input, rearranging the band
    indices inside the groups gives the same table. *)
Theorem GroupForPeakTable_order_within_groups :
  forall (frequencies intensities : list R)
         (irRepData irRepData' : list IrRepGroup) (linewidths : option (list R)),
    length intensities = length frequencies ->
    (forall values, linewidths = Some values -> length values = length frequencies) ->
    partitions (length frequencies) irRepData ->
    Forall2 (fun group group' : IrRepGroup =>
               group.1 = group'.1 /\ group.2 ≡ₚ group'.2) irRepData irRepData' ->
    exists out,
      GroupForPeakTable frequencies intensities irRepData linewidths = Ok out
      /\ GroupForPeakTable frequencies intensities irRepData' linewidths = Ok out.
Proof.
  intros frequencies intensities irRepData irRepData' linewidths
    Hintensities Hlinewidths Hpartition Hsame.
  assert (partitions (length frequencies) irRepData') as Hpartition'.
  { destruct Hpartition as [Hnodup Hrange].
    destruct (regrouped_same frequencies _ _ Hsame) as (_ & Hperm & _).
    split; [now rewrite <- Hperm |].
    intros index. now rewrite <- Hperm. }
  eexists. split; [now apply GroupForPeakTable_partition |].
  rewrite GroupForPeakTable_partition by assumption.
  destruct (regrouped_same frequencies _ _ Hsame) as (-> & _ & -> & _).
  destruct (regrouped_same intensities _ _ Hsame) as (_ & _ & _ & ->).
  do 2 f_equal. destruct linewidths as [values |]; [| reflexivity]. cbn.
  destruct (regrouped_same values _ _ Hsame) as (_ & _ & -> & _). reflexivity.
Qed.

Lemma GroupForPeakTable_order_within_groups_witness :
  exists out,
    GroupForPeakTable [10%R; 20%R; 30%R; 40%R] [1%R; 2%R; 3%R; 4%R]
      sample_groups None = Ok out
    /\ GroupForPeakTable [10%R; 20%R; 30%R; 40%R] [1%R; 2%R; 3%R; 4%R]
         [("A", [1]); ("B", [3; 2]); ("C", [4])] None = Ok out.
Proof.
  apply (GroupForPeakTable_order_within_groups [10%R; 20%R; 30%R; 40%R]
           [1%R; 2%R; 3%R; 4%R] sample_groups).
  - reflexivity.
  - discriminate.
  - exact sample_groups_partition.
  - repeat constructor.
Defined.

(** * Further properties of the coordinate transforms *)

Section CoordinateFacts.
Context {F : Type} `{Number F}.

Lemma FractionalToCartesianCoordinates_map
    (a11 a12 a13 a21 a22 a23 a31 a32 a33 : F) (positions : list (list F)) :
  Forall (fun position => length position = 3%nat) positions ->
  FractionalToCartesianCoordinates positions
    [[a11; a12; a13]; [a21; a22; a23]; [a31; a32; a33]]
  = Ok (map (cartesian_of a11 a12 a13 a21 a22 a23 a31 a32 a33) positions).
Proof.
  intros Hshape. unfold FractionalToCartesianCoordinates. cbn.
  apply mapM_Ok_map. eapply Forall_impl; [exact Hshape |].
  intros [| f1 [| f2 [| f3 [| f4 rest]]]] Hlength; try discriminate Hlength.
  reflexivity.
Qed.

Lemma mapM_Raise {A B : Type} (f : A -> result B) (pre post : list A) (bad : A)
    (e : Exception) :
  Forall (fun a => exists b, f a = Ok b) pre -> f bad = Raise e ->
  mapM f (pre ++ bad :: post) = Raise e.
Proof.
  intros Hpre Hbad. induction Hpre as [| a pre [b Hb] _ IH].
  - cbn. now rewrite Hbad.
  - cbn. rewrite Hb. cbn.
    now rewrite IH.
Qed.

Lemma np_shape2_rectangular (row : list F) (rest : list (list F)) :
  Forall (fun r => length r = length row) rest ->
  np_shape2 (row :: rest) = Ok (S (length rest), length row).
Proof.
  intros Hrows. unfold np_shape2.
  assert (forallb (fun r => (length r =? length row)%nat) rest = true) as ->;
    [| reflexivity].
  apply forallb_forall. intros r Hr. apply Nat.eqb_eq.
  rewrite Forall_forall in Hrows. apply Hrows. now apply list_elem_of_In.
Qed.

End CoordinateFacts.

(** X17.  The lattice is checked before any position is looked at: a
    rectangular matrix that is not 3x3 raises the lattice exception whatever
    the positions are, malformed ones included.  With a 3x3 lattice, the
    first position that does not have exactly three components makes the
    call raise [ValueError]; no partial result is returned. *)
Theorem FractionalToCartesianCoordinates_malformed_input :
  forall (F : Type) (N : Number F),
    (forall (positions : list (list F)) (row : list F) (rest : list (list F)),
        Forall (fun r => length r = length row) rest ->
        (S (length rest) <> 3%nat \/ length row <> 3%nat) ->
        FractionalToCartesianCoordinates positions (row :: rest)
        = Raise LatticeShape)
    /\ (forall (a11 a12 a13 a21 a22 a23 a31 a32 a33 : F)
               (pre post : list (list F)) (bad : list F),
          Forall (fun position => length position = 3%nat) pre ->
          length bad <> 3%nat ->
          FractionalToCartesianCoordinates (pre ++ bad :: post)
            [[a11; a12; a13]; [a21; a22; a23]; [a31; a32; a33]]
          = Raise ValueError).
Proof.
  intros F N. split.
  - intros positions row rest Hrows Hshape.
    unfold FractionalToCartesianCoordinates.
    rewrite np_shape2_rectangular by assumption. cbn [mbind result_bind].
    destruct (Nat.eqb_spec (S (length rest)) 3) as [Hn | Hn];
      destruct (Nat.eqb_spec (length row) 3) as [Hm | Hm];
      try reflexivity. lia.
  - intros a11 a12 a13 a21 a22 a23 a31 a32 a33 pre post bad Hpre Hbad.
    unfold FractionalToCartesianCoordinates. cbn.
    apply mapM_Raise.
    + eapply Forall_impl; [exact Hpre |].
      intros [| f1 [| f2 [| f3 [| f4 rest]]]] Hlength;
        try discriminate Hlength.
      eexists. reflexivity.
    + destruct bad as [| f1 [| f2 [| f3 [| f4 rest]]]]; try reflexivity.
      cbn in Hbad. lia.
Qed.

Lemma FractionalToCartesianCoordinates_malformed_input_witness :
  FractionalToCartesianCoordinates [[1%R]] [[1%R; 0%R; 0%R]; [0%R; 1%R; 0%R]]
  = Raise LatticeShape
  /\ FractionalToCartesianCoordinates [[1%R; 2%R; 3%R]; [1%R; 2%R]]
       [[1%R; 0%R; 0%R]; [0%R; 1%R; 0%R]; [0%R; 0%R; 1%R]]
     = Raise ValueError.
Proof.
  split.
  - apply (proj1 (FractionalToCartesianCoordinates_malformed_input R R_Number)).
    + repeat constructor.
    + left. cbn. lia.
  - apply (proj2 (FractionalToCartesianCoordinates_malformed_input R R_Number)
             1%R 0%R 0%R 0%R 1%R 0%R 0%R 0%R 1%R [[1%R; 2%R; 3%R]] []
             [1%R; 2%R]).
    + repeat constructor.
    + cbn. lia.
Defined.

(** X18.  Over the reals the transform is the linear map that sends the
    three unit fractional positions to the three lattice vectors: the unit
    positions come back as the rows of the lattice, the sum of two positions
    goes to the sum of their images and a multiple of a position to the same
    multiple of its image. *)
Theorem FractionalToCartesianCoordinates_linear :
  forall (a11 a12 a13 a21 a22 a23 a31 a32 a33 : R),
    let lattice := [[a11; a12; a13]; [a21; a22; a23]; [a31; a32; a33]] in
    FractionalToCartesianCoordinates
      [[1%R; 0%R; 0%R]; [0%R; 1%R; 0%R]; [0%R; 0%R; 1%R]] lattice
    = Ok lattice
    /\ forall (f1 f2 f3 g1 g2 g3 s : R),
         exists x1 x2 x3 y1 y2 y3,
           FractionalToCartesianCoordinates [[f1; f2; f3]; [g1; g2; g3]] lattice
           = Ok [[x1; x2; x3]; [y1; y2; y3]]
           /\ FractionalToCartesianCoordinates
                [[(f1 + g1)%R; (f2 + g2)%R; (f3 + g3)%R];
                 [(s * f1)%R; (s * f2)%R; (s * f3)%R]] lattice
              = Ok [[(x1 + y1)%R; (x2 + y2)%R; (x3 + y3)%R];
                    [(s * x1)%R; (s * x2)%R; (s * x3)%R]].
Proof.
  intros a11 a12 a13 a21 a22 a23 a31 a32 a33 lattice. unfold lattice. split.
  - rewrite FractionalToCartesianCoordinates_map by (repeat constructor).
    cbn. repeat (f_equal; try lra).
  - intros f1 f2 f3 g1 g2 g3 s.
    rewrite !FractionalToCartesianCoordinates_map by (repeat constructor).
    cbn. do 6 eexists. split; [reflexivity |].
    repeat (f_equal; try lra).
Qed.

Section InverseFacts.
Variables a11 a12 a13 a21 a22 a23 a31 a32 a33 : R.
Variable singular : option (list (list R)).

Let lattice : list (list R) :=
  [[a11; a12; a13]; [a21; a22; a23]; [a31; a32; a33]].
Let d : R := det3 a11 a12 a13 a21 a22 a23 a31 a32 a33.
Let fractional_of : list R -> list R :=
  fractional_of a11 a12 a13 a21 a22 a23 a31 a32 a33.

Lemma CartesianToFractionalCoordinates_map (positions : list (list R)) :
  d <> 0%R ->
  Forall (fun position => length position = 3%nat) positions ->
  CartesianToFractionalCoordinates singular positions lattice
  = Finished (Ok (map fractional_of positions)).
Proof.
  intros Hd Hshape. unfold CartesianToFractionalCoordinates, lattice.
  cbn [np_shape2 forallb length Nat.eqb negb orb andb].
  unfold np_linalg_inv. fold d.
  destruct (Req_dec_T d 0) as [Hzero | _]; [contradiction |].
  f_equal. apply mapM_Ok_map. eapply Forall_impl; [exact Hshape |].
  intros [| p1 [| p2 [| p3 [| p4 rest]]]] Hlength; try discriminate Hlength.
  reflexivity.
Qed.

Lemma cartesian_of_fractional_of (position : list R) :
  d <> 0%R -> length position = 3%nat ->
  cartesian_of a11 a12 a13 a21 a22 a23 a31 a32 a33 (fractional_of position)
  = position.
Proof.
  intros Hd Hlength.
  destruct position as [| p1 [| p2 [| p3 [| p4 rest]]]];
    try discriminate Hlength.
  cbn. unfold d, det3 in *.
  f_equal; [field; exact Hd | f_equal; [field; exact Hd | f_equal; field; exact Hd]].
Qed.

Lemma fractional_of_cartesian_of (position : list R) :
  d <> 0%R -> length position = 3%nat ->
  fractional_of (cartesian_of a11 a12 a13 a21 a22 a23 a31 a32 a33 position)
  = position.
Proof.
  intros Hd Hlength.
  destruct position as [| f1 [| f2 [| f3 [| f4 rest]]]];
    try discriminate Hlength.
  cbn. unfold d, det3 in *.
  f_equal; [field; exact Hd | f_equal; [field; exact Hd | f_equal; field; exact Hd]].
Qed.

Lemma fractional_of_length (position : list R) :
  length position = 3%nat -> length (fractional_of position) = 3%nat.
Proof.
  intros Hlength.
  destruct position as [| p1 [| p2 [| p3 [| p4 rest]]]];
    try discriminate Hlength. reflexivity.
Qed.

End InverseFacts.





(** * Further properties of the eigendisplacements *)

(** X22.  The two tests of the call and their order.  The shape is read off
    the first mode and its first displacement only; if the number of modes
    is not three times the length of the first mode, or that displacement
    does not have three components, the call raises the shape exception
    whatever the masses are.  Only when the shape test passes is the number
    of masses compared with the length of the first mode, raising the mass
    exception when they differ.  Without a first mode, or with an empty
    first mode, Python's [IndexError] comes first. *)
Theorem EigenvectorsToEigendisplacements_tests :
  forall (F : Type) (N : Number F) (eigenvectors : list (list (list F)))
         (atomicMasses : list F),
    (eigenvectors = [] \/ eigenvectors !! 0%nat = Some [] ->
     EigenvectorsToEigendisplacements eigenvectors atomicMasses
     = Raise IndexError)
    /\ (forall (first : list (list F)) (displacement : list F),
          eigenvectors !! 0%nat = Some first ->
          first !! 0%nat = Some displacement ->
          (length eigenvectors <> (3 * length first)%nat
           \/ length displacement <> 3%nat ->
           EigenvectorsToEigendisplacements eigenvectors atomicMasses
           = Raise EigenvectorShape)
          /\ (length eigenvectors = (3 * length first)%nat ->
              length displacement = 3%nat ->
              length atomicMasses <> length first ->
              EigenvectorsToEigendisplacements eigenvectors atomicMasses
              = Raise MassCount)).
Proof.
  intros F N eigenvectors atomicMasses. split.
  - intros [-> | Hfirst]; [reflexivity |].
    unfold EigenvectorsToEigendisplacements.
    rewrite (py_index_lookup eigenvectors 0 [] Hfirst
             : py_index eigenvectors 0 = Ok []).
    reflexivity.
  - intros first displacement Hfirst Hdisplacement.
    unfold EigenvectorsToEigendisplacements.
    rewrite (py_index_lookup eigenvectors 0 first Hfirst
             : py_index eigenvectors 0 = Ok first).
    cbn [mbind result_bind].
    rewrite (py_index_lookup first 0 displacement Hdisplacement
             : py_index first 0 = Ok displacement).
    cbn [mbind result_bind]. split.
    + intros Hshape.
      destruct (Nat.eqb_spec (length eigenvectors) (3 * length first));
        destruct (Nat.eqb_spec (length displacement) 3);
        try reflexivity. lia.
    + intros Hmodes Hthree Hmasses.
      rewrite Hmodes, Hthree, !Nat.eqb_refl. cbn [negb orb].
      now destruct (Nat.eqb_spec (length atomicMasses) (length first)).
Qed.

Lemma EigenvectorsToEigendisplacements_tests_witness :
  EigenvectorsToEigendisplacements [[[1%R; 0%R]]; [[0%R; 1%R]]] [1%R; 1%R]
  = Raise EigenvectorShape
  /\ EigenvectorsToEigendisplacements
       [[[1%R; 0%R; 0%R]]; [[0%R; 1%R; 0%R]]; [[0%R; 0%R; 1%R]]] [1%R; 1%R]
     = Raise MassCount.
Proof.
  split.
  - apply (proj1 (proj2 (EigenvectorsToEigendisplacements_tests R R_Number
             [[[1%R; 0%R]]; [[0%R; 1%R]]] [1%R; 1%R])
             [[1%R; 0%R]] [1%R; 0%R] eq_refl eq_refl)).
    left. cbn. lia.
  - apply (proj2 (proj2 (EigenvectorsToEigendisplacements_tests R R_Number
             [[[1%R; 0%R; 0%R]]; [[0%R; 1%R; 0%R]]; [[0%R; 0%R; 1%R]]]
             [1%R; 1%R])
             [[1%R; 0%R; 0%R]] [1%R; 0%R; 0%R] eq_refl eq_refl)).
    + reflexivity.
    + reflexivity.
    + cbn. lia.
Defined.

Lemma scaled_mode_undone (atomicMasses : list R) (mode : list (list R)) :
  Forall (fun mass => (0 < mass)%R) atomicMasses ->
  length mode = length atomicMasses ->
  zip_with (fun displacement mass =>
              map (fun c => (c * R_sqrt.sqrt mass)%R) displacement)
    (scaled_mode atomicMasses mode) atomicMasses
  = mode.
Proof.
  intros Hpositive. revert mode.
  induction Hpositive as [| mass rest Hmass _ IH]; intros mode Hlength.
  - destruct mode; [reflexivity | discriminate].
  - destruct mode as [| displacement mode]; [discriminate |].
    cbn in Hlength. injection Hlength as Hlength.
    unfold scaled_mode in *. cbn [zip_with]. rewrite IH by assumption.
    f_equal. rewrite map_map. rewrite <- (map_id displacement) at 2.
    apply map_ext. intros c. cbn.
    pose proof (sqrt_lt_R0 mass Hmass). field. lra.
Qed.

(** X23.  Mass weighting loses nothing: over the reals, for N >= 1 atoms of
    positive mass and an eigenvector set of shape 3N x N x 3, multiplying
    every returned displacement of atom j by the square root of mass j
    gives the input back. *)
Theorem EigenvectorsToEigendisplacements_undone :
  forall (numAtoms : nat) (eigenvectors : list (list (list R)))
         (atomicMasses : list R),
    (0 < numAtoms)%nat ->
    has_shape (3 * numAtoms) numAtoms eigenvectors ->
    length atomicMasses = numAtoms ->
    Forall (fun mass => (0 < mass)%R) atomicMasses ->
    exists out,
      EigenvectorsToEigendisplacements eigenvectors atomicMasses = Ok out
      /\ map (fun mode =>
                zip_with (fun displacement mass =>
                            map (fun c => (c * R_sqrt.sqrt mass)%R) displacement)
                  mode atomicMasses) out
         = eigenvectors.
Proof.
  intros numAtoms eigenvectors atomicMasses Hatoms Hshape Hmasses Hpositive.
  pose proof Hshape as [Hmodes Hplanes].
  destruct eigenvectors as [| first rest]; [cbn in Hmodes; lia |].
  assert (length first = numAtoms) as Hfirst
    by (pose proof (Forall_inv Hplanes) as [Hlength _]; exact Hlength).
  exists (map (scaled_mode atomicMasses) (first :: rest)). split.
  - apply (EigenvectorsToEigendisplacements_scaled _ _ first);
      [reflexivity | now rewrite Hfirst | congruence].
  - rewrite map_map. rewrite <- (map_id (first :: rest)) at 2.
    apply map_ext_Forall. eapply Forall_impl; [exact Hplanes |].
    intros mode [Hlength _]. apply scaled_mode_undone; [assumption | congruence].
Qed.

Lemma EigenvectorsToEigendisplacements_undone_witness :
  exists out,
    EigenvectorsToEigendisplacements
      [[[3%R; 6%R; 9%R]]; [[1%R; 0%R; 0%R]]; [[0%R; 1%R; 0%R]]] [9%R] = Ok out
    /\ map (fun mode =>
              zip_with (fun displacement mass =>
                          map (fun c => (c * R_sqrt.sqrt mass)%R) displacement)
                mode [9%R]) out
       = [[[3%R; 6%R; 9%R]]; [[1%R; 0%R; 0%R]]; [[0%R; 1%R; 0%R]]].
Proof.
  apply (EigenvectorsToEigendisplacements_undone 1).
  - lia.
  - split; [reflexivity |]. repeat constructor.
  - reflexivity.
  - repeat constructor. lra.
Defined.

Lemma scaled_mode_unit (numAtoms : nat) (mode : list (list R)) :
  length mode = numAtoms -> scaled_mode (replicate numAtoms 1%R) mode = mode.
Proof.
  revert mode. induction numAtoms as [| numAtoms IH]; intros mode Hlength.
  - destruct mode; [reflexivity | discriminate].
  - destruct mode as [| displacement mode]; [discriminate |].
    cbn in Hlength. injection Hlength as Hlength.
    unfold scaled_mode in *. cbn [replicate zip_with]. rewrite IH by assumption.
    f_equal. rewrite <- (map_id displacement) at 2.
    apply map_ext. intros c. cbn. rewrite sqrt_1. field.
Qed.

(** X24.  With every mass equal to one the eigendisplacements are the
    eigenvectors: over the reals, for an eigenvector set of shape
    3N x N x 3 with N >= 1, the call returns its input. *)
Theorem EigenvectorsToEigendisplacements_unit_masses :
  forall (numAtoms : nat) (eigenvectors : list (list (list R))),
    (0 < numAtoms)%nat ->
    has_shape (3 * numAtoms) numAtoms eigenvectors ->
    EigenvectorsToEigendisplacements eigenvectors (replicate numAtoms 1%R)
    = Ok eigenvectors.
Proof.
  intros numAtoms eigenvectors Hatoms Hshape.
  pose proof Hshape as [Hmodes Hplanes].
  destruct eigenvectors as [| first rest]; [cbn in Hmodes; lia |].
  assert (length first = numAtoms) as Hfirst
    by (pose proof (Forall_inv Hplanes) as [Hlength _]; exact Hlength).
  rewrite (EigenvectorsToEigendisplacements_scaled _ _ first);
    [| reflexivity | now rewrite Hfirst | now rewrite length_replicate].
  f_equal. rewrite <- (map_id (first :: rest)) at 2.
  apply map_ext_Forall. eapply Forall_impl; [exact Hplanes |].
  intros mode [Hlength _]. now apply scaled_mode_unit.
Qed.

Lemma EigenvectorsToEigendisplacements_unit_masses_witness :
  EigenvectorsToEigendisplacements
    [[[3%R; 6%R; 9%R]]; [[1%R; 0%R; 0%R]]; [[0%R; 1%R; 0%R]]] [1%R]
  = Ok [[[3%R; 6%R; 9%R]]; [[1%R; 0%R; 0%R]]; [[0%R; 1%R; 0%R]]].
Proof.
  apply (EigenvectorsToEigendisplacements_unit_masses 1).
  - lia.
  - split; [reflexivity |]. repeat constructor.
Defined.

Section EigendisplacementRaggedInput.
Context {F : Type} `{Number F}.

Lemma broadcast3_storable (v : list F) :
  storable v -> broadcast3 v = Ok (stored_slice v).
Proof.
  intros [Hthree | Hone];
    destruct v as [| x [| y [| z [| w rest]]]]; try discriminate; reflexivity.
Qed.

Lemma broadcast3_refused (v : list F) :
  ~ storable v -> broadcast3 v = Raise ValueError.
Proof.
  intros Hrefused.
  destruct v as [| x [| y [| z [| w rest]]]]; try reflexivity;
    destruct Hrefused; unfold storable; cbn; auto.
Qed.

Lemma acceptable_mode_lookup (numAtoms : nat) (mode : list (list F)) (j : nat) :
  acceptable_mode numAtoms mode -> (j < numAtoms)%nat ->
  exists displacement, mode !! j = Some displacement /\ storable displacement.
Proof.
  intros [Hlength Hstorable] Hj.
  destruct (lookup_lt_is_Some_2 mode j) as [displacement Hdisplacement]; [lia |].
  exists displacement. split; [assumption |].
  rewrite Forall_forall in Hstorable. apply Hstorable.
  apply list_elem_of_lookup. exists j. now rewrite lookup_take_lt.
Qed.

Lemma stored_mode_lookup (atomicMasses : list F) (mode : list (list F))
    (j : nat) (displacement : list F) (mass : F) :
  mode !! j = Some displacement -> atomicMasses !! j = Some mass ->
  stored_mode atomicMasses mode !! j
  = Some (stored_slice (np_divide displacement (sqrt mass))).
Proof.
  intros Hdisplacement Hmass. unfold stored_mode.
  rewrite lookup_zip_with, Hdisplacement. cbn. now rewrite Hmass.
Qed.

(** The inner loop on a mode whose first [numAtoms] displacements are
    accepted: plane [i] becomes the stored mode, whatever follows those
    displacements in the mode. *)
Lemma inner_loop_acceptable (atomicMasses : list F) (mode : list (list F))
    (i : nat) (a : list (list (list F))) (plane : list (list F)) :
  acceptable_mode (length atomicMasses) mode ->
  a !! i = Some plane -> length plane = length atomicMasses ->
  for_range (length atomicMasses)
    (fun j eigendisplacements =>
       displacement ← py_index mode (Z.of_nat j);
       sqrtMass ← py_index (map sqrt atomicMasses) (Z.of_nat j);
       slice ← broadcast3 (np_divide displacement sqrtMass);
       Ok (set_slice i j slice eigendisplacements)) a
  = Ok (<[i := stored_mode atomicMasses mode]> a).
Proof.
  intros Hmode Hplane Hplane_length.
  set (target := stored_mode atomicMasses mode).
  assert (length target = length atomicMasses) as Htarget_length.
  { unfold target, stored_mode. rewrite length_zip_with.
    destruct Hmode as [Hlength _]. lia. }
  match goal with |- for_range ?n ?body ?s = _ =>
    destruct (for_range_invariant
      (fun j s => exists p, s = <[i := p]> a /\ length p = length atomicMasses
                            /\ forall j', (j' < j)%nat -> p !! j' = target !! j')
      body n s) as (a' & -> & p & -> & Hp_length & Hp)
  end.
  - exists plane. split; [now rewrite list_insert_id |]. split; [assumption |].
    intros j' Hj'. lia.
  - intros j s Hj (p & -> & Hp_length & Hp).
    destruct (acceptable_mode_lookup _ _ j Hmode Hj)
      as (displacement & Hdisplacement & Hstorable).
    destruct (lookup_lt_is_Some_2 atomicMasses j) as [mass Hmass]; [lia |].
    rewrite (py_index_lookup _ _ _ Hdisplacement). cbn [mbind result_bind].
    rewrite (py_index_lookup _ j (sqrt mass)) by now rewrite lookup_map, Hmass.
    cbn [mbind result_bind].
    rewrite broadcast3_storable
      by (unfold storable, np_divide in *; now rewrite length_map).
    cbn [mbind result_bind]. eexists. split; [reflexivity |].
    exists (<[j := stored_slice (np_divide displacement (sqrt mass))]> p).
    split; [unfold set_slice; apply alter_insert_same |].
    split; [now rewrite length_insert |].
    intros j' Hj'. destruct (decide (j = j')) as [<- | Hne].
    + rewrite list_lookup_insert_eq by lia.
      unfold target. now rewrite (stored_mode_lookup _ _ _ _ _ Hdisplacement Hmass).
    + rewrite list_lookup_insert_ne by assumption. apply Hp. lia.
  - f_equal. f_equal. apply list_eq. intros j.
    destruct (decide (j < length atomicMasses)%nat) as [Hlt | Hge]; [now apply Hp |].
    now rewrite !lookup_ge_None_2 by lia.
Qed.

Lemma EigenvectorsToEigendisplacements_stored
    (eigenvectors : list (list (list F))) (atomicMasses : list F)
    (first : list (list F)) (displacement : list F) :
  eigenvectors !! 0%nat = Some first ->
  first !! 0%nat = Some displacement ->
  length eigenvectors = (3 * length first)%nat ->
  length displacement = 3%nat ->
  length atomicMasses = length first ->
  Forall (acceptable_mode (length first)) eigenvectors ->
  EigenvectorsToEigendisplacements eigenvectors atomicMasses
  = Ok (map (stored_mode atomicMasses) eigenvectors).
Proof.
  intros Hfirst Hdisplacement Hmodes Hthree Hmasses Hacceptable.
  unfold EigenvectorsToEigendisplacements.
  rewrite (py_index_lookup eigenvectors 0 first Hfirst
           : py_index eigenvectors 0 = Ok first).
  cbn [mbind result_bind].
  rewrite (py_index_lookup first 0 displacement Hdisplacement
           : py_index first 0 = Ok displacement).
  cbn [mbind result_bind].
  rewrite Hmodes, Hthree, Hmasses, !Nat.eqb_refl. cbn [negb orb].
  rewrite <- Hmasses in *.
  set (target := map (stored_mode atomicMasses) eigenvectors).
  set (zeros := replicate (length atomicMasses) (replicate 3 (zero : F))).
  match goal with |- for_range ?n ?body ?s = _ =>
    destruct (for_range_invariant
      (fun i a => length a = n
                  /\ (forall i', (i' < i)%nat -> a !! i' = target !! i')
                  /\ (forall i', (i <= i' < n)%nat -> a !! i' = Some zeros))
      body n s) as (a & -> & Ha_length & Ha & _)
  end.
  - unfold np_zeros3. rewrite length_replicate. split; [reflexivity |].
    split; [intros i' Hi'; lia |].
    intros i' Hi'. apply lookup_replicate_2. lia.
  - intros i a Hi (Ha_length & Hdone & Htodo).
    destruct (lookup_lt_is_Some_2 eigenvectors i) as [mode Hmode]; [lia |].
    rewrite (py_index_lookup _ _ _ Hmode). cbn [mbind result_bind].
    rewrite Forall_forall in Hacceptable.
    rewrite (inner_loop_acceptable atomicMasses mode i a zeros);
      [| apply Hacceptable; now apply list_elem_of_lookup_2 in Hmode
       | apply Htodo; lia
       | unfold zeros; now rewrite length_replicate].
    eexists. split; [reflexivity |].
    split; [now rewrite length_insert |]. split.
    + intros i' Hi'. destruct (decide (i = i')) as [<- | Hne].
      * rewrite list_lookup_insert_eq by lia.
        unfold target. now rewrite lookup_map, Hmode.
      * rewrite list_lookup_insert_ne by assumption. apply Hdone. lia.
    + intros i' Hi'. rewrite list_lookup_insert_ne by lia. apply Htodo. lia.
  - f_equal. apply list_eq. intros i.
    destruct (decide (i < 3 * length atomicMasses)%nat) as [Hlt | Hge];
      [now apply Ha |].
    rewrite !lookup_ge_None_2; [reflexivity | | lia].
    unfold target. rewrite length_map. lia.
Qed.

End EigendisplacementRaggedInput.

(** X25.  Only the first mode and its first displacement are measured, so an
    irregular set can pass: if the tests pass and every mode has at least N
    displacements of which the first N have three components or one, the
    call returns.  Each returned mode has exactly N displacements, those
    beyond the N-th being dropped without notice, and a displacement of one
    component is stored as three equal components. *)
Theorem EigenvectorsToEigendisplacements_irregular_input :
  forall (F : Type) (N : Number F) (eigenvectors : list (list (list F)))
         (atomicMasses : list F) (first : list (list F)) (displacement : list F),
    eigenvectors !! 0%nat = Some first ->
    first !! 0%nat = Some displacement ->
    length eigenvectors = (3 * length first)%nat ->
    length displacement = 3%nat ->
    length atomicMasses = length first ->
    Forall (acceptable_mode (length first)) eigenvectors ->
    exists out,
      EigenvectorsToEigendisplacements eigenvectors atomicMasses = Ok out
      /\ length out = length eigenvectors
      /\ forall (i : nat) (mode : list (list F)),
           eigenvectors !! i = Some mode ->
           exists plane,
             out !! i = Some plane
             /\ length plane = length atomicMasses
             /\ forall (j : nat) (v : list F) (mass : F),
                  mode !! j = Some v -> atomicMasses !! j = Some mass ->
                  plane !! j
                  = Some (stored_slice (map (fun c => div c (sqrt mass)) v)).
Proof.
  intros F N eigenvectors atomicMasses first displacement
    Hfirst Hdisplacement Hmodes Hthree Hmasses Hacceptable.
  exists (map (stored_mode atomicMasses) eigenvectors). split; [| split].
  - now apply (EigenvectorsToEigendisplacements_stored _ _ first displacement).
  - apply length_map.
  - intros i mode Hmode. exists (stored_mode atomicMasses mode).
    split; [now rewrite lookup_map, Hmode |]. split.
    + unfold stored_mode. rewrite length_zip_with.
      rewrite Forall_forall in Hacceptable.
      destruct (Hacceptable mode) as [Hlength _];
        [now apply list_elem_of_lookup_2 in Hmode | lia].
    + intros j v mass Hv Hmass. now apply stored_mode_lookup.
Qed.

Lemma EigenvectorsToEigendisplacements_irregular_input_witness :
  exists out,
    EigenvectorsToEigendisplacements
      [[[2%R; 0%R; 0%R]]; [[4%R]; [7%R; 7%R; 7%R]]; [[0%R; 0%R; 2%R]]] [4%R]
    = Ok out
    /\ length out = 3%nat.
Proof.
  destruct (EigenvectorsToEigendisplacements_irregular_input R R_Number
              [[[2%R; 0%R; 0%R]]; [[4%R]; [7%R; 7%R; 7%R]]; [[0%R; 0%R; 2%R]]]
              [4%R] [[2%R; 0%R; 0%R]] [2%R; 0%R; 0%R])
    as (out & Hcall & Hlength & _).
  - reflexivity.
  - reflexivity.
  - reflexivity.
  - reflexivity.
  - reflexivity.
  - assert (forall v : list R, storable v ->
              forall rest, acceptable_mode 1 (v :: rest)) as Hmode.
    { intros v Hv rest. split; [cbn; lia |]. cbn.
      constructor; [assumption | rewrite take_0; constructor]. }
    repeat constructor; apply Hmode; unfold storable; cbn; auto.
  - exists out. now split.
Defined.

Example EigenvectorsToEigendisplacements_irregular_float :
  EigenvectorsToEigendisplacements
    [[[2%float; 0%float; 0%float]]; [[4%float]; [7%float; 7%float; 7%float]];
     [[0%float; 0%float; 2%float]]] [4%float]
  = Ok [[[1%float; 0%float; 0%float]]; [[2%float; 2%float; 2%float]];
        [[0%float; 0%float; 1%float]]].
Proof. vm_compute. reflexivity. Qed.

Section EigendisplacementLoopFailures.
Context {F : Type} `{Number F}.

Lemma for_each_app {S : Type} (l1 l2 : list nat) (body : nat -> S -> result S)
    (s : S) :
  for_each (l1 ++ l2) body s = for_each l1 body s ≫= for_each l2 body.
Proof.
  revert s. induction l1 as [| i l1 IH]; intros s; [reflexivity |].
  cbn. destruct (body i s) as [s' | e]; cbn; [apply IH | reflexivity].
Qed.

(** A loop whose first [k] iterations return and whose next one raises,
    whatever the state, raises that exception. *)
Lemma for_range_fails {S : Type} (n k : nat) (body : nat -> S -> result S)
    (s : S) (e : Exception) :
  (k < n)%nat ->
  (forall k' s', (k' < k)%nat -> exists s'', body k' s' = Ok s'') ->
  (forall s', body k s' = Raise e) ->
  for_range n body s = Raise e.
Proof.
  intros Hk Hbefore Hfails. unfold for_range.
  replace n with (k + Datatypes.S (n - Datatypes.S k))%nat by lia.
  rewrite seq_app, for_each_app.
  destruct (for_each_seq_invariant (fun _ _ => True) body k 0 s I)
    as (s' & -> & _).
  - intros k' s' Hk' _. destruct (Hbefore k' s') as [s'' Hs'']; [lia |].
    exists s''. now split.
  - cbn. now rewrite Hfails.
Qed.

Lemma for_range_returns {S : Type} (n : nat) (body : nat -> S -> result S)
    (s : S) :
  (forall k s', (k < n)%nat -> exists s'', body k s' = Ok s'') ->
  exists s', for_range n body s = Ok s'.
Proof.
  intros Hbody.
  destruct (for_range_invariant (fun _ _ => True) body n s I) as (s' & Hs' & _).
  - intros k s' Hk _. destruct (Hbody k s' Hk) as [s'' Hs'']. now exists s''.
  - now exists s'.
Qed.

Lemma inner_body_returns (atomicMasses : list F) (mode : list (list F))
    (i j : nat) (a : list (list (list F))) (v : list F) :
  (j < length atomicMasses)%nat -> mode !! j = Some v -> storable v ->
  exists a',
    (displacement ← py_index mode (Z.of_nat j);
     sqrtMass ← py_index (map sqrt atomicMasses) (Z.of_nat j);
     slice ← broadcast3 (np_divide displacement sqrtMass);
     Ok (set_slice i j slice a)) = Ok a'.
Proof.
  intros Hj Hv Hstorable.
  destruct (lookup_lt_is_Some_2 atomicMasses j Hj) as [mass Hmass].
  rewrite (py_index_lookup _ _ _ Hv). cbn [mbind result_bind].
  rewrite (py_index_lookup _ j (sqrt mass)) by now rewrite lookup_map, Hmass.
  cbn [mbind result_bind].
  rewrite broadcast3_storable
    by (unfold storable, np_divide in *; now rewrite length_map).
  cbn [mbind result_bind]. eexists. reflexivity.
Qed.

Lemma py_index_missing {A : Type} (l : list A) (j : nat) :
  l !! j = None -> py_index l (Z.of_nat j) = Raise IndexError.
Proof.
  intros Hmissing. apply lookup_ge_None_1 in Hmissing. unfold py_index.
  destruct (Z.ltb_spec (Z.of_nat j) 0) as [Hneg | _]; [lia |].
  destruct (Z.ltb_spec (Z.of_nat j) 0) as [Hneg | _]; [lia |].
  destruct (Z.leb_spec (Z.of_nat (length l)) (Z.of_nat j)) as [_ | Hlt];
    [reflexivity | lia].
Qed.

End EigendisplacementLoopFailures.

Section EigendisplacementLoopFailureCases.
Context {F : Type} `{Number F}.

Lemma inner_loop_fails (atomicMasses : list F) (mode : list (list F))
    (i j : nat) (a : list (list (list F))) (e : Exception) :
  (j < length atomicMasses)%nat ->
  (forall j', (j' < j)%nat -> exists v, mode !! j' = Some v /\ storable v) ->
  (mode !! j = None /\ e = IndexError
   \/ exists v, mode !! j = Some v /\ ~ storable v /\ e = ValueError) ->
  for_range (length atomicMasses)
    (fun j eigendisplacements =>
       displacement ← py_index mode (Z.of_nat j);
       sqrtMass ← py_index (map sqrt atomicMasses) (Z.of_nat j);
       slice ← broadcast3 (np_divide displacement sqrtMass);
       Ok (set_slice i j slice eigendisplacements)) a
  = Raise e.
Proof.
  intros Hj Hbefore Hat. apply (for_range_fails _ j); [assumption | |].
  - intros j' a' Hj'. destruct (Hbefore j' Hj') as (v & Hv & Hstorable).
    apply (inner_body_returns atomicMasses mode i j' a' v); [lia | assumption ..].
  - intros a'. destruct Hat as [[Hmissing ->] | (v & Hv & Hrefused & ->)].
    + rewrite (py_index_missing mode j Hmissing). reflexivity.
    + destruct (lookup_lt_is_Some_2 atomicMasses j Hj) as [mass Hmass].
      rewrite (py_index_lookup _ _ _ Hv). cbn [mbind result_bind].
      rewrite (py_index_lookup _ j (sqrt mass)) by now rewrite lookup_map, Hmass.
      cbn [mbind result_bind].
      rewrite broadcast3_refused; [reflexivity |].
      unfold storable, np_divide in *. now rewrite length_map.
Qed.

Lemma EigenvectorsToEigendisplacements_fails
    (eigenvectors : list (list (list F))) (atomicMasses : list F)
    (first : list (list F)) (displacement : list F)
    (i j : nat) (mode : list (list F)) (e : Exception) :
  eigenvectors !! 0%nat = Some first ->
  first !! 0%nat = Some displacement ->
  length eigenvectors = (3 * length first)%nat ->
  length displacement = 3%nat ->
  length atomicMasses = length first ->
  eigenvectors !! i = Some mode ->
  Forall (acceptable_mode (length first)) (take i eigenvectors) ->
  (j < length first)%nat ->
  (forall j', (j' < j)%nat -> exists v, mode !! j' = Some v /\ storable v) ->
  (mode !! j = None /\ e = IndexError
   \/ exists v, mode !! j = Some v /\ ~ storable v /\ e = ValueError) ->
  EigenvectorsToEigendisplacements eigenvectors atomicMasses = Raise e.
Proof.
  intros Hfirst Hdisplacement Hmodes Hthree Hmasses Hmode Hearlier Hj
    Hbefore Hat.
  unfold EigenvectorsToEigendisplacements.
  rewrite (py_index_lookup eigenvectors 0 first Hfirst
           : py_index eigenvectors 0 = Ok first).
  cbn [mbind result_bind].
  rewrite (py_index_lookup first 0 displacement Hdisplacement
           : py_index first 0 = Ok displacement).
  cbn [mbind result_bind].
  rewrite Hmodes, Hthree, Hmasses, !Nat.eqb_refl. cbn [negb orb].
  rewrite <- Hmasses in *. rewrite <- Hmodes.
  pose proof (lookup_lt_Some _ _ _ Hmode) as Hi.
  apply (for_range_fails _ i); [assumption | |].
  - intros i' a' Hi'.
    destruct (lookup_lt_is_Some_2 eigenvectors i') as [mode' Hmode']; [lia |].
    rewrite (py_index_lookup _ _ _ Hmode'). cbn [mbind result_bind].
    apply for_range_returns. intros j' a'' Hj'.
    assert (acceptable_mode (length atomicMasses) mode') as Hacceptable.
    { rewrite Forall_forall in Hearlier. apply Hearlier.
      apply list_elem_of_lookup. exists i'. now rewrite lookup_take_lt. }
    destruct (acceptable_mode_lookup _ _ j' Hacceptable Hj')
      as (v & Hv & Hstorable).
    now apply (inner_body_returns atomicMasses mode' i' j' a'' v).
  - intros a'. rewrite (py_index_lookup _ _ _ Hmode). cbn [mbind result_bind].
    now apply (inner_loop_fails atomicMasses mode i j).
Qed.

End EigendisplacementLoopFailureCases.

(** X26.  What the tests do not see surfaces inside the loops.  Suppose the
    tests pass, the modes before mode i are acceptable (at least N
    displacements, the first N of three components or one) and so are the
    displacements before number j < N of mode i.  If mode i has no
    displacement number j, the call raises [IndexError]; if that
    displacement has neither three components nor one, it raises
    [ValueError].  In both cases nothing is returned. *)
Theorem EigenvectorsToEigendisplacements_loop_failures :
  forall (F : Type) (N : Number F) (eigenvectors : list (list (list F)))
         (atomicMasses : list F) (first : list (list F)) (displacement : list F)
         (i j : nat) (mode : list (list F)),
    eigenvectors !! 0%nat = Some first ->
    first !! 0%nat = Some displacement ->
    length eigenvectors = (3 * length first)%nat ->
    length displacement = 3%nat ->
    length atomicMasses = length first ->
    eigenvectors !! i = Some mode ->
    Forall (acceptable_mode (length first)) (take i eigenvectors) ->
    (j < length first)%nat ->
    (forall j', (j' < j)%nat -> exists v, mode !! j' = Some v /\ storable v) ->
    (mode !! j = None ->
     EigenvectorsToEigendisplacements eigenvectors atomicMasses
     = Raise IndexError)
    /\ (forall v, mode !! j = Some v -> ~ storable v ->
          EigenvectorsToEigendisplacements eigenvectors atomicMasses
          = Raise ValueError).
Proof.
  intros F N eigenvectors atomicMasses first displacement i j mode
    Hfirst Hdisplacement Hmodes Hthree Hmasses Hmode Hearlier Hj Hbefore.
  split.
  - intros Hmissing.
    apply (EigenvectorsToEigendisplacements_fails _ _ first displacement i j mode);
      auto.
  - intros v Hv Hrefused.
    apply (EigenvectorsToEigendisplacements_fails _ _ first displacement i j mode);
      try assumption.
    right. now exists v.
Qed.

Lemma EigenvectorsToEigendisplacements_loop_failures_witness :
  EigenvectorsToEigendisplacements
    [[[2%R; 0%R; 0%R]]; []; [[0%R; 0%R; 2%R]]] [4%R]
  = Raise IndexError
  /\ EigenvectorsToEigendisplacements
       [[[2%R; 0%R; 0%R]]; [[0%R; 2%R]]; [[0%R; 0%R; 2%R]]] [4%R]
     = Raise ValueError.
Proof.
  assert (Forall (acceptable_mode 1) [[[2%R; 0%R; 0%R]]]) as Hearlier.
  { repeat constructor. }
  split.
  - apply (proj1 (EigenvectorsToEigendisplacements_loop_failures R R_Number
             [[[2%R; 0%R; 0%R]]; []; [[0%R; 0%R; 2%R]]] [4%R]
             [[2%R; 0%R; 0%R]] [2%R; 0%R; 0%R] 1 0 []
             eq_refl eq_refl eq_refl eq_refl eq_refl eq_refl Hearlier
             ltac:(cbn; lia) ltac:(intros j' Hj'; lia))).
    reflexivity.
  - apply (proj2 (EigenvectorsToEigendisplacements_loop_failures R R_Number
             [[[2%R; 0%R; 0%R]]; [[0%R; 2%R]]; [[0%R; 0%R; 2%R]]] [4%R]
             [[2%R; 0%R; 0%R]] [2%R; 0%R; 0%R] 1 0 [[0%R; 2%R]]
             eq_refl eq_refl eq_refl eq_refl eq_refl eq_refl Hearlier
             ltac:(cbn; lia) ltac:(intros j' Hj'; lia)) [0%R; 2%R] eq_refl).
    unfold storable. cbn. lia.
Defined.

Example EigenvectorsToEigendisplacements_loop_failures_float :
  EigenvectorsToEigendisplacements
    [[[2%float; 0%float; 0%float]]; []; [[0%float; 0%float; 2%float]]]
    [4%float]
  = Raise IndexError.
Proof. vm_compute. reflexivity. Qed.

Lemma insert_between {A B : Type} (g : A -> B) (before after : list A) (x : B) :
  take (length before) (map g (before ++ after)) ++ x
    :: drop (length before) (map g (before ++ after))
  = map g before ++ x :: map g after.
Proof.
  rewrite map_app.
  rewrite take_app_length' by now rewrite length_map.
  rewrite drop_app_length' by now rewrite length_map.
  reflexivity.
Qed.

(** X20.  A group without band indices is accepted.  Adding one to valid
    groups, after the first k of them, leaves every other entry of the table
    as it was and inserts at place k the symbol of the group, the intensity
    zero and, as frequency and linewidth, the quotient of zero by the count
    zero (NaN in binary64). *)
Theorem GroupForPeakTable_empty_group :
  forall (F : Type) (N : Number F) (frequencies intensities : list F)
         (before after : list IrRepGroup) (symbol : string)
         (linewidths : option (list F)),
    length intensities = length frequencies ->
    (forall values, linewidths = Some values -> length values = length frequencies) ->
    partitions (length frequencies) (before ++ after) ->
    let k := length before in
    let inserted {A : Type} (x : A) (l : list A) := take k l ++ x :: drop k l in
    exists frequenciesNew intensitiesNew linewidthsNew,
      GroupForPeakTable frequencies intensities (before ++ after) linewidths
      = Ok (frequenciesNew, intensitiesNew, (before ++ after).*1, linewidthsNew)
      /\ GroupForPeakTable frequencies intensities
           (before ++ (symbol, []) :: after) linewidths
         = Ok (inserted (div zero (of_count 0)) frequenciesNew,
               inserted zero intensitiesNew,
               inserted symbol (before ++ after).*1,
               inserted (div zero (of_count 0)) <$> linewidthsNew).
Proof.
  intros F N frequencies intensities before after symbol linewidths
    Hintensities Hlinewidths Hpartition k inserted.
  assert (partitions (length frequencies) (before ++ (symbol, []) :: after))
    as Hpartition'.
  { unfold partitions, band_indices in *.
    rewrite fmap_app in *. cbn. rewrite concat_app in *. cbn. exact Hpartition. }
  eexists _, _, _. split; [now apply GroupForPeakTable_partition |].
  rewrite GroupForPeakTable_partition by assumption.
  unfold inserted, k.
  rewrite (insert_between
             (fun group : IrRepGroup => group_mean frequencies group.2)
             before after).
  rewrite (insert_between
             (fun group : IrRepGroup => group_sum intensities group.2)
             before after).
  change ((before ++ after).*1) with (map fst (before ++ after)).
  rewrite (insert_between fst before after).
  change ((before ++ (symbol, []) :: after).*1)
    with (map fst (before ++ (symbol, []) :: after)).
  rewrite !map_app. cbn [map fst snd group_mean group_sum].
  do 2 f_equal. destruct linewidths as [values |]; [| reflexivity].
  cbn [fmap option_fmap option_map]. f_equal.
  rewrite (insert_between (fun group : IrRepGroup => group_mean values group.2)
             before after).
  rewrite map_app. reflexivity.
Qed.

Lemma GroupForPeakTable_empty_group_witness :
  exists frequenciesNew intensitiesNew linewidthsNew,
    GroupForPeakTable [10%R; 20%R] [1%R; 2%R] ([("A", [1])] ++ [("B", [2])]) None
    = Ok (frequenciesNew, intensitiesNew, ["A"; "B"], linewidthsNew)
    /\ GroupForPeakTable [10%R; 20%R] [1%R; 2%R]
         ([("A", [1])] ++ ("E", []) :: [("B", [2])]) None
       = Ok (take 1 frequenciesNew ++ (0 / INR 0)%R :: drop 1 frequenciesNew,
             take 1 intensitiesNew ++ 0%R :: drop 1 intensitiesNew,
             ["A"; "E"; "B"],
             (fun l => take 1 l ++ (0 / INR 0)%R :: drop 1 l) <$> linewidthsNew).
Proof.
  apply (GroupForPeakTable_empty_group R R_Number [10%R; 20%R] [1%R; 2%R]
           [("A", [1])] [("B", [2])] "E" None).
  - reflexivity.
  - discriminate.
  - split.
    + apply (bool_decide_unpack _). vm_compute. exact I.
    + intros index. cbn. rewrite !elem_of_cons, elem_of_nil. lia.
Defined.

Example GroupForPeakTable_empty_group_float :
  GroupForPeakTable [10%float; 20%float] [1%float; 2%float]
    [("A", [1]); ("E", []); ("B", [2])] None
  = Ok ([10%float; nan; 20%float], [1%float; 0%float; 2%float],
        ["A"; "E"; "B"], None).
Proof. vm_compute. reflexivity. Qed.
